(** * GetImage.py: the Bing image-of-the-day downloader

    A shallow embedding of [src/GetImage.py] (class [BingImageDownloader]
    and [main]) together with the parts of the Python runtime the script
    calls: [str.replace], [datetime.strftime], [os.path], [os.makedirs],
    [open]/[write], [requests.get] and the [json] codec.

    Conventions.
    - A Python [str] is a list of code points ([N]); a [bytes] object is a
      list of byte values ([N] below 256).
    - Effects are threaded through a monad [M] of state, exceptions and
      output: the state is the file system, the output is the list of
      observable events (requests, file operations, log records, printed
      lines); what the outside world answers (clock, HTTP responses, I/O
      faults) is read from an environment [env].
    - Floating-point numbers are not represented: a [FloatModel] supplies the
      type of floats with the two conversions that the [json] codec uses. *)

From Stdlib Require Import ZArith NArith List String Ascii Bool Lia.
From Stdlib Require Import Decimal DecimalFacts DecimalPos DecimalN DecimalZ.
From stdpp Require Import base option list gmap.

Local Open Scope N_scope.
Local Open Scope list_scope.

(** ** Python strings *)

(** [ord c]: the code point of an ASCII character. *)
Definition ord (a : ascii) : N := N_of_ascii a.

(** A string literal as a list of code points. *)
Definition str (s : string) : list N := map ord (list_ascii_of_string s).

(** [s.startswith(p)] *)
Fixpoint startswith (p s : list N) : bool :=
  match p, s with
  | [], _ => true
  | a :: p', b :: s' => (a =? b) && startswith p' s'
  | _ :: _, [] => false
  end.

(** [s.endswith(p)] *)
Definition endswith (p s : list N) : bool := startswith (rev p) (rev s).

(** The scan of [str.replace] for a non-empty [old]: [skip] counts the
    characters of a match still to be dropped. *)
Fixpoint replace_scan (old new : list N) (skip : nat) (s : list N) : list N :=
  match s with
  | [] => []
  | c :: r =>
      match skip with
      | S k => replace_scan old new k r
      | O =>
          if startswith old s
          then new ++ replace_scan old new (length old - 1) r
          else c :: replace_scan old new 0 r
      end
  end.

(** [s.replace(old, new)]: every non-overlapping occurrence, left to right;
    an empty [old] matches before every character and at the end. *)
Definition replace (old new s : list N) : list N :=
  match old with
  | [] => new ++ flat_map (fun c => c :: new) s
  | _ :: _ => replace_scan old new 0 s
  end.

(** [s.split(sep)] for a one-character separator. *)
Fixpoint split_on (sep : N) (s : list N) : list (list N) :=
  match s with
  | [] => [[]]
  | c :: r =>
      if c =? sep then [] :: split_on sep r
      else match split_on sep r with
           | h :: t => (c :: h) :: t
           | [] => [[c]]
           end
  end.

(** [sep.join(parts)] *)
Fixpoint join (sep : list N) (parts : list (list N)) : list N :=
  match parts with
  | [] => []
  | [p] => p
  | p :: rest => p ++ sep ++ join sep rest
  end.

(** ** Decimal and hexadecimal digits *)

Definition digit_char (d : N) : N := ord "0" + d.

Fixpoint uint_chars (u : Decimal.uint) : list N :=
  match u with
  | Nil => []
  | D0 u' => digit_char 0 :: uint_chars u'
  | D1 u' => digit_char 1 :: uint_chars u'
  | D2 u' => digit_char 2 :: uint_chars u'
  | D3 u' => digit_char 3 :: uint_chars u'
  | D4 u' => digit_char 4 :: uint_chars u'
  | D5 u' => digit_char 5 :: uint_chars u'
  | D6 u' => digit_char 6 :: uint_chars u'
  | D7 u' => digit_char 7 :: uint_chars u'
  | D8 u' => digit_char 8 :: uint_chars u'
  | D9 u' => digit_char 9 :: uint_chars u'
  end.

Definition is_digit (c : N) : bool := (ord "0" <=? c) && (c <=? ord "9").

(** The digit a character stands for, [D0] style, in front of [u]. *)
Definition push_digit (c : N) (u : Decimal.uint) : Decimal.uint :=
  match N.to_nat (c - ord "0") with
  | 0%nat => D0 u | 1%nat => D1 u | 2%nat => D2 u | 3%nat => D3 u
  | 4%nat => D4 u | 5%nat => D5 u | 6%nat => D6 u | 7%nat => D7 u
  | 8%nat => D8 u | _ => D9 u
  end.

Fixpoint chars_uint (s : list N) : Decimal.uint :=
  match s with
  | [] => Nil
  | c :: r => push_digit c (chars_uint r)
  end.

(** [str(n)] for a natural number. *)
Definition nat_repr (n : N) : list N := uint_chars (N.to_uint n).

(** [int.__repr__]: decimal digits, a minus sign for negative numbers. *)
Definition int_repr (z : Z) : list N :=
  match z with
  | Z0 => nat_repr 0
  | Zpos p => nat_repr (Npos p)
  | Zneg p => ord "-" :: nat_repr (Npos p)
  end.

(** [int(s)] for a string of decimal digits. *)
Definition int_of_digits (s : list N) : N := N.of_uint (chars_uint s).

(** [s.zfill(width)]-style padding, as [%Y], [%m] and [%d] need it. *)
Definition zero_pad (width : nat) (s : list N) : list N :=
  repeat (ord "0") (width - length s) ++ s.

(** ** datetime *)

Record date := { year : N; month : N; day : N }.

(** [d.strftime("%Y%m%d")]: four-digit year, two-digit month and day. *)
Definition strftime_Ymd (d : date) : list N :=
  zero_pad 4 (nat_repr (year d)) ++ zero_pad 2 (nat_repr (month d))
  ++ zero_pad 2 (nat_repr (day d)).

(** ** posixpath *)

Definition sep : N := ord "/".

(** [os.path.join(a, b)] *)
Definition path_join (a b : list N) : list N :=
  if startswith [sep] b then b
  else if (match a with [] => true | _ => false end) || endswith [sep] a
       then a ++ b
       else a ++ sep :: b.

Example join_example :
  path_join (str "bing_images") (str "x.jpg") = str "bing_images/x.jpg".
Proof. reflexivity. Qed.

Example replace_example :
  replace (str " ") (str "_") (str "Mountain View") = str "Mountain_View".
Proof. reflexivity. Qed.

Example strftime_example :
  strftime_Ymd {| year := 2024; month := 1; day := 15 |} = str "20240115".
Proof. reflexivity. Qed.

(** ** JSON values *)

(** Python floats are kept abstract.  [float_of_lexeme] is what the decoder
    builds from a float lexeme ([float(s)] for a number with a fraction or an
    exponent; nan, inf and -inf for [NaN], [Infinity] and [-Infinity]);
    [floatstr] is the encoder's text for a float ([float.__repr__], or one of
    the three constants). *)
Class FloatModel := {
  pyfloat : Type;
  float_of_lexeme : list N -> pyfloat;
  floatstr : pyfloat -> list N;
}.

Section Json.
Context {FM : FloatModel}.

(** What [json.loads] returns: [None], [bool], [int], [float], [str], [list]
    and [dict] with string keys, in insertion order. *)
#[warnings="-register-all"]
Inductive json :=
| JNull
| JBool (b : bool)
| JInt (z : Z)
| JFloat (f : pyfloat)
| JStr (s : list N)
| JArr (items : list json)
| JObj (members : list (list N * json)).

(** [d[k] = v] on a dict: a present key keeps its place and takes the new
    value, a new key goes last. *)
Fixpoint dict_set (d : list (list N * json)) (k : list N) (v : json)
  : list (list N * json) :=
  match d with
  | [] => [(k, v)]
  | (k', v') :: d' =>
      if decide (k' = k) then (k, v) :: d' else (k', v') :: dict_set d' k v
  end.

Fixpoint dict_lookup (d : list (list N * json)) (k : list N) : option json :=
  match d with
  | [] => None
  | (k', v) :: d' => if decide (k' = k) then Some v else dict_lookup d' k
  end.

(** *** json.encoder *)

Definition hex_digit (d : N) : N :=
  if d <? 10 then ord "0" + d else ord "a" + (d - 10).

(** ['{0:04x}'.format(n)] for [n < 0x10000]. *)
Definition hex4 (n : N) : list N :=
  [hex_digit (n / 4096 mod 16); hex_digit (n / 256 mod 16);
   hex_digit (n / 16 mod 16); hex_digit (n mod 16)].

Definition u_escape (n : N) : list N := 92 :: ord "u" :: hex4 n.

(** The replacement of one character by [py_encode_basestring_ascii]:
    the two-character escapes of [ESCAPE_DCT], the printable ASCII range
    unchanged, and a [\uXXXX] escape (a surrogate pair above the BMP) for
    everything else. 34 is the double quote, 92 the backslash. *)
Definition escape_char (c : N) : list N :=
  if c =? 34 then [92; 34]
  else if c =? 92 then [92; 92]
  else if c =? 10 then [92; ord "n"]
  else if c =? 13 then [92; ord "r"]
  else if c =? 9 then [92; ord "t"]
  else if c =? 8 then [92; ord "b"]
  else if c =? 12 then [92; ord "f"]
  else if (32 <=? c) && (c <=? 126) then [c]
  else if c <? 0x10000 then u_escape c
  else
    let n := c - 0x10000 in
    u_escape (N.lor 0xd800 (N.land (N.shiftr n 10) 0x3ff))
    ++ u_escape (N.lor 0xdc00 (N.land n 0x3ff)).

Definition encode_basestring_ascii (s : list N) : list N :=
  34 :: flat_map escape_char s ++ [34].

(** ['\n' + ' ' * indent * level] *)
Definition newline_indent (indent level : nat) : list N :=
  10 :: repeat 32 (indent * level).

(** [JSONEncoder(indent=indent).iterencode(v)], joined: the item separator
    is [","] followed by the new line and its indentation, the key separator
    is [": "]; empty containers are written [[]] and [{}]. *)
Fixpoint iterencode (indent level : nat) (v : json) : list N :=
  match v with
  | JNull => str "null"
  | JBool true => str "true"
  | JBool false => str "false"
  | JInt z => int_repr z
  | JFloat f => floatstr f
  | JStr s => encode_basestring_ascii s
  | JArr [] => str "[]"
  | JArr items =>
      let nl := newline_indent indent (S level) in
      str "[" ++ nl
      ++ join (str "," ++ nl) (map (iterencode indent (S level)) items)
      ++ newline_indent indent level ++ str "]"
  | JObj [] => str "{}"
  | JObj members =>
      let nl := newline_indent indent (S level) in
      str "{" ++ nl
      ++ join (str "," ++ nl)
           (map (fun kv => encode_basestring_ascii (fst kv) ++ str ": "
                           ++ iterencode indent (S level) (snd kv)) members)
      ++ newline_indent indent level ++ str "}"
  end.

(** [json.dumps(v, indent=4)], the text that [json.dump(v, f, indent=4)]
    writes to [f]. *)
Definition json_dumps (v : json) : list N := iterencode 4 0 v.

(** *** json.decoder *)

Definition is_ws (c : N) : bool :=
  (c =? 32) || (c =? 9) || (c =? 10) || (c =? 13).

Fixpoint skip_ws (s : list N) : list N :=
  match s with
  | c :: r => if is_ws c then skip_ws r else s
  | [] => []
  end.

Definition hex_val (c : N) : option N :=
  if is_digit c then Some (c - ord "0")
  else if (ord "a" <=? c) && (c <=? ord "f") then Some (c - ord "a" + 10)
  else if (ord "A" <=? c) && (c <=? ord "F") then Some (c - ord "A" + 10)
  else None.

(** Four hexadecimal digits of a [\uXXXX] escape. *)
Definition decode_hex4 (a b c d : N) : option N :=
  match hex_val a, hex_val b, hex_val c, hex_val d with
  | Some x, Some y, Some z, Some w => Some (x * 4096 + y * 256 + z * 16 + w)
  | _, _, _, _ => None
  end.

(** The [BACKSLASH] table of the decoder. *)
Definition unescape (e : N) : option N :=
  if e =? 34 then Some 34
  else if e =? 92 then Some 92
  else if e =? ord "/" then Some (ord "/")
  else if e =? ord "b" then Some 8
  else if e =? ord "f" then Some 12
  else if e =? ord "n" then Some 10
  else if e =? ord "r" then Some 13
  else if e =? ord "t" then Some 9
  else None.

Definition is_high_surrogate (c : N) : bool := (0xd800 <=? c) && (c <=? 0xdbff).
Definition is_low_surrogate (c : N) : bool := (0xdc00 <=? c) && (c <=? 0xdfff).

Definition join_surrogates (hi lo : N) : N :=
  0x10000 + N.lor (N.shiftl (hi - 0xd800) 10) (lo - 0xdc00).

(** [scanstring(s, end, strict=True)], entered after the opening quote:
    the decoded string and the text after the closing quote. A raw control
    character, a bad escape and a missing closing quote are errors. *)
Fixpoint scanstring (s : list N) : option (list N * list N) :=
  match s with
  | [] => None
  | c :: r =>
      if c =? 34 then Some ([], r)
      else if c =? 92 then
        match r with
        | [] => None
        | e :: r1 =>
            if e =? ord "u" then
              match r1 with
              | h1 :: h2 :: h3 :: h4 :: r2 =>
                  match decode_hex4 h1 h2 h3 h4 with
                  | None => None
                  | Some uni =>
                      let single :=
                        match scanstring r2 with
                        | Some (t, rest) => Some (uni :: t, rest)
                        | None => None
                        end in
                      if is_high_surrogate uni then
                        match r2 with
                        | b :: u :: l1 :: l2 :: l3 :: l4 :: r3 =>
                            if (b =? 92) && (u =? ord "u") then
                              match decode_hex4 l1 l2 l3 l4 with
                              | None => None
                              | Some uni2 =>
                                  if is_low_surrogate uni2 then
                                    match scanstring r3 with
                                    | Some (t, rest) =>
                                        Some (join_surrogates uni uni2 :: t, rest)
                                    | None => None
                                    end
                                  else single
                              end
                            else single
                        | _ => single
                        end
                      else single
                  end
              | _ => None
              end
            else
              match unescape e with
              | None => None
              | Some ch =>
                  match scanstring r1 with
                  | Some (t, rest) => Some (ch :: t, rest)
                  | None => None
                  end
              end
        end
      else if c <? 32 then None
      else
        match scanstring r with
        | Some (t, rest) => Some (c :: t, rest)
        | None => None
        end
  end.

(** The longest prefix of decimal digits, and what follows it. *)
Fixpoint span_digits (s : list N) : list N * list N :=
  match s with
  | c :: r =>
      if is_digit c then let (d, rest) := span_digits r in (c :: d, rest)
      else ([], s)
  | [] => ([], [])
  end.

(** The lexeme matched by [NUMBER_RE]: an optional minus sign and an integer
    part, then an optional fraction and an optional exponent. *)
Record number_lexeme := {
  nl_negative : bool;
  nl_integer : list N;
  nl_frac : list N;
  nl_exp : list N;
}.

(** The integer part: a single 0, or a non-zero digit and more digits. *)
Definition match_integer (s : list N) : option (list N * list N) :=
  match s with
  | c :: r =>
      if c =? ord "0" then Some ([c], r)
      else if is_digit c then let (d, rest) := span_digits r in Some (c :: d, rest)
      else None
  | [] => None
  end.

(** The fraction: a dot and at least one digit, or nothing. *)
Definition match_frac (s : list N) : list N * list N :=
  match s with
  | c :: r =>
      if c =? ord "." then
        match span_digits r with
        | ([], _) => ([], s)
        | (d, rest) => (c :: d, rest)
        end
      else ([], s)
  | [] => ([], [])
  end.

(** The exponent: e or E, an optional sign and at least one digit, or
    nothing. *)
Definition match_exp (s : list N) : list N * list N :=
  match s with
  | c :: r =>
      if (c =? ord "e") || (c =? ord "E") then
        match r with
        | g :: r' =>
            if (g =? ord "-") || (g =? ord "+") then
              match span_digits r' with
              | ([], _) => ([], s)
              | (d, rest) => (c :: g :: d, rest)
              end
            else
              match span_digits r with
              | ([], _) => ([], s)
              | (d, rest) => (c :: d, rest)
              end
        | [] => ([], s)
        end
      else ([], s)
  | [] => ([], [])
  end.

Definition match_number (s : list N) : option (number_lexeme * list N) :=
  let (neg, s1) :=
    match s with
    | c :: r => if c =? ord "-" then (true, r) else (false, s)
    | [] => (false, s)
    end in
  match match_integer s1 with
  | None => None
  | Some (i, s2) =>
      let (fr, s3) := match_frac s2 in
      let (ex, s4) := match_exp s3 in
      Some ({| nl_negative := neg; nl_integer := i; nl_frac := fr; nl_exp := ex |}, s4)
  end.

Definition lexeme_text (l : number_lexeme) : list N :=
  (if nl_negative l then [ord "-"] else []) ++ nl_integer l ++ nl_frac l ++ nl_exp l.

(** A lexeme with a fraction or an exponent is a float, any other an int. *)
Definition number_value (l : number_lexeme) : json :=
  match nl_frac l, nl_exp l with
  | [], [] =>
      let n := Z.of_N (int_of_digits (nl_integer l)) in
      JInt (if nl_negative l then (- n)%Z else n)
  | _, _ => JFloat (float_of_lexeme (lexeme_text l))
  end.

(** [s[idx:].startswith(w)], giving the text after [w]. *)
Fixpoint strip_prefix (w s : list N) : option (list N) :=
  match w, s with
  | [], _ => Some s
  | a :: w', b :: s' => if a =? b then strip_prefix w' s' else None
  | _ :: _, [] => None
  end.

(** What the scanner reads next. *)
Inductive mode :=
| MValue                                   (* a value starts here *)
| MArrayRest (acc : list json)             (* after an array element *)
| MObjectKey (acc : list (list N * json))  (* at the quote of a key *)
| MObjectRest (acc : list (list N * json)) (* after a member's value *).

(** [scan_once] with [JSONArray] and [JSONObject].  [fuel] bounds the number
    of nested calls; [json_loads] below gives it more than any text needs. *)
Fixpoint scan (fuel : nat) (m : mode) (s : list N) : option (json * list N) :=
  match fuel with
  | O => None
  | S fuel' =>
      match m with
      | MValue =>
          match s with
          | [] => None
          | c :: r =>
              if c =? 34 then
                match scanstring r with
                | Some (t, rest) => Some (JStr t, rest)
                | None => None
                end
              else if c =? ord "{" then
                match skip_ws r with
                | c' :: r' =>
                    if c' =? ord "}" then Some (JObj [], r')
                    else scan fuel' (MObjectKey []) (c' :: r')
                | [] => None
                end
              else if c =? ord "[" then
                match skip_ws r with
                | c' :: r' =>
                    if c' =? ord "]" then Some (JArr [], r')
                    else
                      match scan fuel' MValue (c' :: r') with
                      | Some (v, rest) => scan fuel' (MArrayRest [v]) rest
                      | None => None
                      end
                | [] => None
                end
              else
                match strip_prefix (str "null") s,
                      strip_prefix (str "true") s,
                      strip_prefix (str "false") s with
                | Some rest, _, _ => Some (JNull, rest)
                | _, Some rest, _ => Some (JBool true, rest)
                | _, _, Some rest => Some (JBool false, rest)
                | None, None, None =>
                    match match_number s with
                    | Some (l, rest) => Some (number_value l, rest)
                    | None =>
                        match strip_prefix (str "NaN") s,
                              strip_prefix (str "Infinity") s,
                              strip_prefix (str "-Infinity") s with
                        | Some rest, _, _ =>
                            Some (JFloat (float_of_lexeme (str "NaN")), rest)
                        | _, Some rest, _ =>
                            Some (JFloat (float_of_lexeme (str "Infinity")), rest)
                        | _, _, Some rest =>
                            Some (JFloat (float_of_lexeme (str "-Infinity")), rest)
                        | None, None, None => None
                        end
                    end
                end
          end
      | MArrayRest acc =>
          match skip_ws s with
          | c :: r =>
              if c =? ord "]" then Some (JArr acc, r)
              else if c =? ord "," then
                match scan fuel' MValue (skip_ws r) with
                | Some (v, rest) => scan fuel' (MArrayRest (acc ++ [v])) rest
                | None => None
                end
              else None
          | [] => None
          end
      | MObjectKey acc =>
          match s with
          | c :: r =>
              if c =? 34 then
                match scanstring r with
                | Some (k, r1) =>
                    match skip_ws r1 with
                    | c1 :: r2 =>
                        if c1 =? ord ":" then
                          match scan fuel' MValue (skip_ws r2) with
                          | Some (v, rest) =>
                              scan fuel' (MObjectRest (dict_set acc k v)) rest
                          | None => None
                          end
                        else None
                    | [] => None
                    end
                | None => None
                end
              else None
          | [] => None
          end
      | MObjectRest acc =>
          match skip_ws s with
          | c :: r =>
              if c =? ord "}" then Some (JObj acc, r)
              else if c =? ord "," then scan fuel' (MObjectKey acc) (skip_ws r)
              else None
          | [] => None
          end
      end
  end.

(** [json.loads(s)]: one value, white space allowed around it, nothing else
    after it ("Extra data"). [None] stands for [JSONDecodeError]. *)
Definition json_loads (s : list N) : option json :=
  match scan (2 * length s + 2) MValue (skip_ws s) with
  | Some (v, rest) => match skip_ws rest with [] => Some v | _ => None end
  | None => None
  end.

End Json.

(** ** UTF-8, the encoding of the metadata file *)

Definition is_surrogate (c : N) : bool := (0xd800 <=? c) && (c <=? 0xdfff).

(** [chr(c).encode('utf-8')]; surrogates and values above U+10FFFF have no
    encoding. *)
Definition utf8_encode_char (c : N) : option (list N) :=
  if c <? 0x80 then Some [c]
  else if c <? 0x800 then Some [0xc0 + c / 64; 0x80 + c mod 64]
  else if is_surrogate c then None
  else if c <? 0x10000 then
    Some [0xe0 + c / 4096; 0x80 + c / 64 mod 64; 0x80 + c mod 64]
  else if c <? 0x110000 then
    Some [0xf0 + c / 262144; 0x80 + c / 4096 mod 64; 0x80 + c / 64 mod 64;
          0x80 + c mod 64]
  else None.

(** [s.encode('utf-8')]; [None] stands for [UnicodeEncodeError]. *)
Fixpoint utf8_encode (s : list N) : option (list N) :=
  match s with
  | [] => Some []
  | c :: r =>
      match utf8_encode_char c, utf8_encode r with
      | Some b, Some br => Some (b ++ br)
      | _, _ => None
      end
  end.

Definition is_cont (b : N) : bool := (0x80 <=? b) && (b <=? 0xbf).

(** [b.decode('utf-8')], strict: shortest forms only, no surrogates. *)
Fixpoint utf8_decode (b : list N) : option (list N) :=
  match b with
  | [] => Some []
  | b0 :: r =>
      if b0 <? 0x80 then
        match utf8_decode r with Some t => Some (b0 :: t) | None => None end
      else if (0xc2 <=? b0) && (b0 <=? 0xdf) then
        match r with
        | b1 :: r' =>
            if is_cont b1 then
              match utf8_decode r' with
              | Some t => Some ((b0 - 0xc0) * 64 + (b1 - 0x80) :: t)
              | None => None
              end
            else None
        | _ => None
        end
      else if (0xe0 <=? b0) && (b0 <=? 0xef) then
        match r with
        | b1 :: b2 :: r' =>
            let c := (b0 - 0xe0) * 4096 + (b1 - 0x80) * 64 + (b2 - 0x80) in
            if is_cont b1 && is_cont b2 && (0x800 <=? c) && negb (is_surrogate c)
            then match utf8_decode r' with
                 | Some t => Some (c :: t)
                 | None => None
                 end
            else None
        | _ => None
        end
      else if (0xf0 <=? b0) && (b0 <=? 0xf4) then
        match r with
        | b1 :: b2 :: b3 :: r' =>
            let c := (b0 - 0xf0) * 262144 + (b1 - 0x80) * 4096
                     + (b2 - 0x80) * 64 + (b3 - 0x80) in
            if is_cont b1 && is_cont b2 && is_cont b3
               && (0x10000 <=? c) && (c <? 0x110000)
            then match utf8_decode r' with
                 | Some t => Some (c :: t)
                 | None => None
                 end
            else None
        | _ => None
        end
      else None
  end.

(** ** Exceptions *)

Inductive oserror := ENOENT | EEXIST | ENOTDIR | EISDIR | EACCES | ENOSPC | EBADF.

(** The ways a request can fail before any response arrives. *)
Inductive transport_error := ConnectionError | Timeout | TooManyRedirects.

(** The key or index of a subscription [v[k]]. *)
Inductive subscript := SubStr (k : list N) | SubInt (i : Z).

(** The exceptions the script can meet, all of them subclasses of
    [Exception]. [InvalidJSONError] is [requests.exceptions.JSONDecodeError],
    raised by [response.json()]. *)
Inductive exn :=
| RequestFailed (t : transport_error)
| HTTPError (status : N)
| ChunkedEncodingError
| InvalidJSONError
| KeyError (k : subscript)
| IndexError
| TypeError
| AttributeError
| UnicodeEncodeError
| OSError (e : oserror) (path : list N).

(** [isinstance(e, requests.RequestException)] *)
Definition is_RequestException (e : exn) : bool :=
  match e with
  | RequestFailed _ | HTTPError _ | ChunkedEncodingError | InvalidJSONError => true
  | _ => false
  end.

(** The error taxonomy of the specification (section 7), read onto the
    exceptions of the code: transport and HTTP-status failures, unexpected
    or missing JSON shape, file-system failures. *)
Inductive spec_error := NetworkError | MalformedResponseError | IOError.

Definition spec_error_of (e : exn) : spec_error :=
  match e with
  | RequestFailed _ | HTTPError _ | ChunkedEncodingError => NetworkError
  | InvalidJSONError | KeyError _ | IndexError | TypeError | AttributeError =>
      MalformedResponseError
  | UnicodeEncodeError | OSError _ _ => IOError
  end.

(** ** The world: events, file system, environment *)

Inductive log_record :=
| CreatedDirectory (dir : list N)        (* INFO  "Created directory: ..." *)
| ImageAlreadyExists (path : list N)     (* INFO  "Image already exists: ..." *)
| SuccessfullyDownloaded (path : list N) (* INFO  "Successfully downloaded image: ..." *)
| ErrorFetching (e : exn)                (* ERROR "Error fetching image URL: ..." *)
| ErrorDownloading (e : exn)             (* ERROR "Error downloading image: ..." *).

Inductive stdout_line :=
| DownloadedTo (path : list N)           (* "Image downloaded successfully to: ..." *)
| ErrorLine (e : exn)                    (* "Error: ..." *).

Inductive event :=
| EvRequest (url : list N) (stream : bool)   (* requests.get *)
| EvMakedirs (path : list N)                 (* os.makedirs *)
| EvOpenWrite (path : list N)                (* open(path, 'wb') or open(path, 'w') *)
| EvWrite (path : list N) (data : list N)    (* f.write *)
| EvLog (r : log_record)
| EvPrint (l : stdout_line).

Inductive node := File (content : list N) | Dir.

(** A path as the file system sees it: absolute or not, and its components,
    empty ones and ["."] dropped. [".."] and links are not interpreted. *)
Definition keep_component (c : list N) : bool :=
  match c with
  | [] => false
  | [d] => negb (d =? ord ".")
  | _ => true
  end.

Definition components (p : list N) : list (list N) :=
  List.filter keep_component (split_on sep p).

Definition resolve (p : list N) : bool * list (list N) :=
  (startswith [sep] p, components p).

Definition parent_key (k : bool * list (list N)) : bool * list (list N) :=
  (fst k, removelast (snd k)).

Record response := {
  status_code : N;
  text : list N;             (* the decoded body, what [response.json()] parses *)
  raw : list (list N);       (* the body as it arrives, piece by piece *)
  truncated : bool;          (* the connection breaks after the last piece *)
}.

Inductive outcome := Failed (t : transport_error) | Responded (r : response).

Record env := {
  now : date;                              (* datetime.now() *)
  http : list N -> outcome;                (* the answer to a GET of a URL *)
  denied : bool * list (list N) -> bool;   (* the OS refuses to create or open this file *)
  write_limit : bool * list (list N) -> option nat;
                                           (* bytes the file may hold before the disk is full *)
}.

(** ** The monad of effects *)

Inductive result (A : Type) := Ok (a : A) | Raise (e : exn).
Arguments Ok {A} a.
Arguments Raise {A} e.

Abbreviation filesystem := (gmap (bool * list (list N)) node).

(** A computation starts from a file system and gives a value or an
    exception, the file system it leaves, and the events it produced. *)
Definition M (A : Type) : Type := filesystem -> result A * filesystem * list event.

#[global] Instance M_ret : MRet M := fun A a f => (Ok a, f, []).

#[global] Instance M_bind : MBind M := fun A B k m f =>
  match m f with
  | (Ok a, f1, ev1) =>
      match k a f1 with
      | (r, f2, ev2) => (r, f2, ev1 ++ ev2)
      end
  | (Raise e, f1, ev1) => (Raise e, f1, ev1)
  end.

Definition raise {A} (e : exn) : M A := fun f => (Raise e, f, []).

(** [try: body  except Exception as e: handler(e)] *)
Definition try_except {A} (body : M A) (handler : exn -> M A) : M A := fun f =>
  match body f with
  | (Ok a, f1, ev1) => (Ok a, f1, ev1)
  | (Raise e, f1, ev1) =>
      match handler e f1 with
      | (r, f2, ev2) => (r, f2, ev1 ++ ev2)
      end
  end.

Definition emit (ev : event) : M unit := fun f => (Ok tt, f, [ev]).

Definition get_fs : M filesystem := fun f => (Ok f, f, []).

Definition put_fs (f' : filesystem) : M unit := fun _ => (Ok tt, f', []).

Definition lift {A} (r : result A) : M A := fun f => (r, f, []).

(** ** os and open *)

(** The node a path names: nothing for the empty path, a directory for the
    root and the current directory. *)
Definition lookup_path (f : filesystem) (p : list N) : option node :=
  match p with
  | [] => None
  | _ => match snd (resolve p) with
         | [] => Some Dir
         | _ => f !! resolve p
         end
  end.

Definition is_dir_key (f : filesystem) (k : bool * list (list N)) : bool :=
  match snd k with
  | [] => true
  | _ => match f !! k with Some Dir => true | _ => false end
  end.

(** [os.path.exists(p)] *)
Definition path_exists (p : list N) : M bool :=
  f ← get_fs; mret (bool_decide (is_Some (lookup_path f p))).

(** [os.mkdir] of the directory [k], named [p] in error reports. *)
Definition mkdir (E : env) (p : list N) (k : bool * list (list N)) : M unit :=
  f ← get_fs;
  if denied E k then raise (OSError EACCES p)
  else match f !! k with
       | Some _ => raise (OSError EEXIST p)
       | None =>
           if is_dir_key f (parent_key k) then put_fs (<[k := Dir]> f)
           else raise (OSError ENOENT p)
       end.

(** An intermediate directory of [os.makedirs]: made when missing, left
    alone when it is there; a file in its place stops the descent. *)
Definition ensure_dir (E : env) (p : list N) (k : bool * list (list N)) : M unit :=
  f ← get_fs;
  match f !! k with
  | Some Dir => mret tt
  | Some (File _) => raise (OSError ENOTDIR p)
  | None => mkdir E p k
  end.

Fixpoint makedirs_from (E : env) (p : list N) (abs : bool)
  (done todo : list (list N)) : M unit :=
  match todo with
  | [] => raise (OSError EEXIST p)
  | [c] => mkdir E p (abs, done ++ [c])
  | c :: rest =>
      ensure_dir E p (abs, done ++ [c]);;
      makedirs_from E p abs (done ++ [c]) rest
  end.

(** [os.makedirs(p)]: the intermediate directories that are missing, nearest
    the root first, then the leaf, which must not exist. *)
Definition makedirs (E : env) (p : list N) : M unit :=
  emit (EvMakedirs p);;
  match p with
  | [] => raise (OSError ENOENT p)
  | _ => makedirs_from E p (fst (resolve p)) [] (snd (resolve p))
  end.

(** [open(p, 'wb')] and [open(p, 'w', encoding='utf-8')]: the file is created
    or truncated. The handle is the path. *)
Definition open_write (E : env) (p : list N) : M unit :=
  emit (EvOpenWrite p);;
  f ← get_fs;
  match p with
  | [] => raise (OSError ENOENT p)
  | _ =>
      if denied E (resolve p) then raise (OSError EACCES p)
      else match lookup_path f p with
           | Some Dir => raise (OSError EISDIR p)
           | _ =>
               if is_dir_key f (parent_key (resolve p))
               then put_fs (<[resolve p := File []]> f)
               else raise (OSError ENOENT p)
           end
  end.

(** [f.write(data)] on a file opened by [open_write]: the bytes are appended;
    when the disk fills up, the part that fitted stays and [OSError] is
    raised. *)
Definition file_write (E : env) (p : list N) (data : list N) : M unit :=
  f ← get_fs;
  match f !! resolve p with
  | Some (File old) =>
      let room :=
        match write_limit E (resolve p) with
        | Some n => (n - length old)%nat
        | None => length data
        end in
      if bool_decide (length data <= room)%nat then
        emit (EvWrite p data);;
        put_fs (<[resolve p := File (old ++ data)]> f)
      else
        emit (EvWrite p (take room data));;
        put_fs (<[resolve p := File (old ++ take room data)]> f);;
        raise (OSError ENOSPC p)
  | _ => raise (OSError EBADF p)
  end.

(** [f.write(s)] on a text file with [encoding='utf-8']. *)
Definition text_write (E : env) (p : list N) (s : list N) : M unit :=
  match utf8_encode s with
  | Some b => file_write E p b
  | None => raise UnicodeEncodeError
  end.

(** ** requests *)

(** [requests.get(url, stream=stream)]. Without [stream] the body is read at
    once, so a connection that breaks shows here. *)
Definition requests_get (E : env) (url : list N) (stream : bool) : M response :=
  emit (EvRequest url stream);;
  match http E url with
  | Failed t => raise (RequestFailed t)
  | Responded r =>
      if negb stream && truncated r then raise ChunkedEncodingError else mret r
  end.

(** [response.raise_for_status()]: [HTTPError] for the client errors 4xx and
    the server errors 5xx, nothing for any other status. *)
Definition is_error_status (status : N) : bool :=
  (400 <=? status) && (status <? 600).

Definition raise_for_status (r : response) : M unit :=
  if is_error_status (status_code r)
  then raise (HTTPError (status_code r))
  else mret tt.

(** Pieces of at most [n] bytes: [k] is the room left in the piece [cur]
    being filled (kept in reverse). *)
Fixpoint slices_from (n k : nat) (cur : list N) (l : list N) : list (list N) :=
  match l with
  | [] => [rev cur]
  | b :: r =>
      match k with
      | O => rev cur :: slices_from n (n - 1) [b] r
      | S k' => slices_from n k' (b :: cur) r
      end
  end.

Definition slices (n : nat) (l : list N) : list (list N) := slices_from n n [] l.

(** [response.iter_content(chunk_size)]: what arrives, cut into chunks of at
    most [chunk_size] bytes (a piece with no bytes gives an empty chunk), and
    the error that ends the iteration when the connection broke. *)
Definition iter_content (chunk_size : nat) (r : response)
  : list (list N) * option exn :=
  (flat_map (slices chunk_size) (raw r),
   if truncated r then Some ChunkedEncodingError else None).

(** ** GetImage.py *)

Section GetImage.
Context {FM : FloatModel}.

(** [l[i]] on a sequence, negative indices counted from the end. *)
Definition seq_index {A} (l : list A) (i : Z) : option A :=
  let j := if (i <? 0)%Z then (i + Z.of_nat (length l))%Z else i in
  if (j <? 0)%Z then None else l !! Z.to_nat j.

(** [v[k]] *)
Definition getitem (v : json) (k : subscript) : result json :=
  match v, k with
  | JObj d, SubStr key =>
      match dict_lookup d key with
      | Some x => Ok x
      | None => Raise (KeyError k)
      end
  | JObj _, SubInt _ => Raise (KeyError k)
  | JArr l, SubInt i =>
      match seq_index l i with
      | Some x => Ok x
      | None => Raise IndexError
      end
  | JStr s, SubInt i =>
      match seq_index s i with
      | Some c => Ok (JStr [c])
      | None => Raise IndexError
      end
  | _, _ => Raise TypeError
  end.

(** [a + v] for a string [a] *)
Definition str_add (a : list N) (v : json) : result (list N) :=
  match v with
  | JStr b => Ok (a ++ b)
  | _ => Raise TypeError
  end.

(** [v.get(key, default)] *)
Definition method_get (v : json) (key : list N) (default : json) : result json :=
  match v with
  | JObj d =>
      match dict_lookup d key with
      | Some x => Ok x
      | None => Ok default
      end
  | _ => Raise AttributeError
  end.

(** [v.replace(old, new)] *)
Definition method_replace (v : json) (old new : list N) : result (list N) :=
  match v with
  | JStr s => Ok (replace old new s)
  | _ => Raise AttributeError
  end.

(** [response.json()] *)
Definition response_json (r : response) : M json :=
  match json_loads (text r) with
  | Some v => mret v
  | None => raise InvalidJSONError
  end.

(** [json.dump(v, f, indent=4)] on the text file [p] *)
Definition json_dump (E : env) (v : json) (p : list N) : M unit :=
  text_write E p (json_dumps v).

Definition logger_info (r : log_record) : M unit := emit (EvLog r).
Definition logger_error (r : log_record) : M unit := emit (EvLog r).
Definition print (l : stdout_line) : M unit := emit (EvPrint l).

Record BingImageDownloader := {
  save_dir : list N;
  bing_api_url : list N;
  bing_base_url : list N;
}.

(** [BingImageDownloader.__init__(self, save_dir)] *)
Definition init (E : env) (dir : list N) : M BingImageDownloader :=
  let self :=
    {| save_dir := dir;
       bing_api_url := str "https://www.bing.com/HPImageArchive.aspx?format=js&idx=0&n=1";
       bing_base_url := str "https://www.bing.com" |} in
  present ← path_exists dir;
  (if negb present
   then makedirs E dir;; logger_info (CreatedDirectory dir)
   else mret tt);;
  mret self.

(** [BingImageDownloader.get_image_url(self)] *)
Definition get_image_url (E : env) (self : BingImageDownloader)
  : M (list N * json) :=
  try_except
    (response ← requests_get E (bing_api_url self) false;
     raise_for_status response;;
     data ← response_json response;
     images ← lift (getitem data (SubStr (str "images")));
     image_data ← lift (getitem images (SubInt 0));
     url ← lift (getitem image_data (SubStr (str "url")));
     image_url ← lift (str_add (bing_base_url self) url);
     mret (image_url, image_data))
    (fun e =>
       if is_RequestException e
       then logger_error (ErrorFetching e);; raise e
       else raise e).

(** Lines 65 to 67, "Generate filename with date and title": the date, the
    title (or the fallback) with its spaces replaced, and the extension. *)
Definition date_str (E : env) : list N := strftime_Ymd (now E).

Definition image_filename (E : env) (image_data : json) : result (list N) :=
  match method_get image_data (str "title") (JStr (str "bing_image")) with
  | Raise e => Raise e
  | Ok t =>
      match method_replace t (str " ") (str "_") with
      | Raise e => Raise e
      | Ok title => Ok (date_str E ++ str "_" ++ title ++ str ".jpg")
      end
  end.

(** The chunk loop: [for chunk in ...: if chunk: f.write(chunk)]. *)
Fixpoint write_chunks (E : env) (p : list N) (chunks : list (list N)) : M unit :=
  match chunks with
  | [] => mret tt
  | chunk :: rest =>
      (match chunk with
       | [] => mret tt
       | _ => file_write E p chunk
       end);;
      write_chunks E p rest
  end.

(** Lines 80 to 83, "Save image". *)
Definition save_image (E : env) (file_path : list N) (response : response) : M unit :=
  open_write E file_path;;
  write_chunks E file_path (fst (iter_content (N.to_nat 8192) response));;
  match snd (iter_content (N.to_nat 8192) response) with
  | Some e => raise e
  | None => mret tt
  end.

(** Lines 88 to 90, "Save metadata". *)
Definition metadata_path (E : env) (self : BingImageDownloader) : list N :=
  path_join (save_dir self) (date_str E ++ str "_metadata.json").

Definition save_metadata (E : env) (self : BingImageDownloader) (image_data : json)
  : M unit :=
  open_write E (metadata_path E self);;
  json_dump E image_data (metadata_path E self).

(** [BingImageDownloader.download_image(self)] *)
Definition download_image (E : env) (self : BingImageDownloader) : M (list N) :=
  try_except
    ('(image_url, image_data) ← get_image_url E self;
     filename ← lift (image_filename E image_data);
     let file_path := path_join (save_dir self) filename in
     present ← path_exists file_path;
     if (present : bool) then
       logger_info (ImageAlreadyExists file_path);;
       mret file_path
     else
       response ← requests_get E image_url true;
       raise_for_status response;;
       save_image E file_path response;;
       logger_info (SuccessfullyDownloaded file_path);;
       save_metadata E self image_data;;
       mret file_path)
    (fun e => logger_error (ErrorDownloading e);; raise e).

(** [main()] *)
Definition main (E : env) : M unit :=
  try_except
    (downloader ← init E (str "bing_images");
     image_path ← download_image E downloader;
     print (DownloadedTo image_path))
    (fun e => print (ErrorLine e)).

(** The exit status of the interpreter: 0 when [main] returns, 1 when an
    exception leaves it. *)
Definition exit_status (r : result unit) : N :=
  match r with
  | Ok _ => 0
  | Raise _ => 1
  end.

Definition run_script (E : env) (f : filesystem) : N * filesystem * list event :=
  match main E f with
  | (r, f', evs) => (exit_status r, f', evs)
  end.

End GetImage.

(** ** Concrete worlds

    The inputs on which the theorems below are exercised. *)

(** A float model with a single float, written [0.0]. *)
Definition one_float : FloatModel :=
  {| pyfloat := unit; float_of_lexeme := fun _ => tt; floatstr := fun _ => str "0.0" |}.

Definition sample_date : date := {| year := 2024; month := 1; day := 15 |}.

Definition api_url : list N :=
  str "https://www.bing.com/HPImageArchive.aspx?format=js&idx=0&n=1".

(** [quoted s] is [s] between double quotes. *)
Definition quoted (s : string) : list N := 34 :: str s ++ [34].

(** [{"images":[{"url":"/th?id=OHR.Peak.jpg","title":"Mountain View","drk":1}]}] *)
Definition sample_body : list N :=
  str "{" ++ quoted "images" ++ str ":[{" ++ quoted "url" ++ str ":"
  ++ quoted "/th?id=OHR.Peak.jpg" ++ str "," ++ quoted "title" ++ str ":"
  ++ quoted "Mountain View" ++ str "," ++ quoted "drk" ++ str ":1}]}".

(** The same record with a path separator in its title. *)
Definition slash_body : list N :=
  str "{" ++ quoted "images" ++ str ":[{" ++ quoted "url" ++ str ":"
  ++ quoted "/th?id=OHR.Peak.jpg" ++ str "," ++ quoted "title" ++ str ":"
  ++ quoted "Sea/Shore" ++ str "}]}".

Definition sample_image : list (list N) := [[255; 216; 255]; []; [224; 0]].

Definition reply (status : N) (body : list N) (pieces : list (list N)) : outcome :=
  Responded {| status_code := status; text := body; raw := pieces; truncated := false |}.

(** A world answering the metadata URL with [meta] and any other URL with
    [image], on 15 January 2024. *)
Definition world (meta image : outcome) (deny : bool * list (list N) -> bool) : env :=
  {| now := sample_date;
     http := fun url => if decide (url = api_url) then meta else image;
     denied := deny;
     write_limit := fun _ => None |}.

Definition nothing_denied (k : bool * list (list N)) : bool := false.

(** The normal day: both endpoints answer 200. *)
Definition fine_world : env :=
  world (reply 200 sample_body []) (reply 200 [] sample_image) nothing_denied.

(** The image endpoint answers 304 Not Modified with an empty body. *)
Definition not_modified_world : env :=
  world (reply 200 sample_body []) (reply 304 [] []) nothing_denied.

(** The metadata endpoint answers 503; the image endpoint answers 404. *)
Definition unavailable_world : env :=
  world (reply 503 [] []) (reply 200 [] sample_image) nothing_denied.

Definition not_found_world : env :=
  world (reply 200 sample_body []) (reply 404 [] []) nothing_denied.

(** The metadata endpoint answers 200 with a body without images. *)
Definition empty_images_world : env :=
  world (reply 200 (str "{" ++ quoted "images" ++ str ":[]}") [])
        (reply 200 [] sample_image) nothing_denied.

(** The answer of the metadata endpoint in [empty_images_world]. *)
Definition empty_images_response : response :=
  {| status_code := 200; text := str "{" ++ quoted "images" ++ str ":[]}";
     raw := []; truncated := false |}.

(** The OS refuses to open the metadata file. *)
Definition metadata_key : bool * list (list N) :=
  (false, [str "bing_images"; str "20240115_metadata.json"]).

Definition read_only_metadata_world : env :=
  world (reply 200 sample_body []) (reply 200 [] sample_image)
        (fun k => bool_decide (k = metadata_key)).

Definition slash_world : env :=
  world (reply 200 slash_body []) (reply 200 [] sample_image) nothing_denied.

Definition empty_fs : filesystem := ∅.

(** The save directory exists and is empty. *)
Definition dir_fs : filesystem := {[ (false, [str "bing_images"]) := Dir ]}.

Definition sample_downloader : BingImageDownloader :=
  {| save_dir := str "bing_images";
     bing_api_url := api_url;
     bing_base_url := str "https://www.bing.com" |}.

Definition sample_path : list N := str "bing_images/20240115_Mountain_View.jpg".

Definition sample_image_url : list N := str "https://www.bing.com/th?id=OHR.Peak.jpg".

Definition sample_record : @json one_float :=
  JObj [(str "url", JStr (str "/th?id=OHR.Peak.jpg"));
        (str "title", JStr (str "Mountain View"));
        (str "drk", JInt 1)].

(** The runs of [download_image] on these worlds, from [dir_fs]. *)
Definition fine_run : result (list N) * filesystem * list event :=
  download_image (FM := one_float) fine_world sample_downloader dir_fs.

Definition not_modified_run : result (list N) * filesystem * list event :=
  download_image (FM := one_float) not_modified_world sample_downloader dir_fs.

Definition read_only_metadata_run : result (list N) * filesystem * list event :=
  download_image (FM := one_float) read_only_metadata_world sample_downloader dir_fs.

(** The metadata endpoint cannot be reached. *)
Definition offline_world : env :=
  world (Failed ConnectionError) (reply 200 [] sample_image) nothing_denied.

(** The image endpoint times out. *)
Definition image_timeout_world : env :=
  world (reply 200 sample_body []) (Failed Timeout) nothing_denied.


(** [{"images":[{"url":"/th?id=OHR.Peak.jpg","title":7}]}] *)
Definition numeric_title_body : list N :=
  str "{" ++ quoted "images" ++ str ":[{" ++ quoted "url" ++ str ":"
  ++ quoted "/th?id=OHR.Peak.jpg" ++ str "," ++ quoted "title" ++ str ":7}]}".

Definition numeric_title_world : env :=
  world (reply 200 numeric_title_body []) (reply 200 [] sample_image) nothing_denied.

(** The OS refuses to create the default save directory. *)
Definition no_directory_world : env :=
  world (reply 200 sample_body []) (reply 200 [] sample_image)
        (fun k => bool_decide (k = (false, [str "bing_images"]))).


(** The normal day, one day later. *)
Definition next_day_world : env :=
  {| now := {| year := 2024; month := 1; day := 16 |};
     http := http fine_world;
     denied := nothing_denied;
     write_limit := fun _ => None |}.

(** ** Auxiliary definitions for the statements and proofs *)

(** A bounded universal check, run by computation: [P] on the [n] numbers
    from [x] on. *)
Fixpoint all_from (n : nat) (x : N) (P : N -> bool) : bool :=
  match n with
  | O => true
  | S n' => P x && all_from n' (N.succ x) P
  end.

Definition all_below (n : N) (P : N -> bool) : bool := all_from (N.to_nat n) 0 P.

(** Two file systems that differ at most at [k]. *)
Definition same_elsewhere (k : bool * list (list N)) (f f' : filesystem) : Prop :=
  forall k', k' <> k -> f' !! k' = f !! k'.

(** Nothing disappears from [f] to [f']. *)
Definition keeps_entries (f f' : filesystem) : Prop :=
  forall k, is_Some (f !! k) -> is_Some (f' !! k).

(** The events that touch the file system, and the requests for an image
    binary (the streamed ones). *)
Definition is_fs_write (ev : event) : bool :=
  match ev with
  | EvMakedirs _ | EvOpenWrite _ | EvWrite _ _ => true
  | _ => false
  end.

Definition is_image_request (ev : event) : bool :=
  match ev with
  | EvRequest _ true => true
  | _ => false
  end.

Section Devices.
Context {FM : FloatModel}.

(** Lines 44 and 45 of [get_image_url], without the effects: the record and
    the URL that a decoded body gives. *)
Definition extract (self : BingImageDownloader) (data : json)
  : result (list N * json) :=
  match getitem data (SubStr (str "images")) with
  | Raise e => Raise e
  | Ok images =>
      match getitem images (SubInt 0) with
      | Raise e => Raise e
      | Ok image_data =>
          match getitem image_data (SubStr (str "url")) with
          | Raise e => Raise e
          | Ok url =>
              match str_add (bing_base_url self) url with
              | Raise e => Raise e
              | Ok image_url => Ok (image_url, image_data)
              end
          end
      end
  end.

(** The body has no [images] member, or an empty array there. *)
Definition images_absent_or_empty (data : json) : bool :=
  match data with
  | JObj d =>
      match dict_lookup d (str "images") with
      | None => true
      | Some (JArr []) => true
      | Some _ => false
      end
  | _ => true
  end.

End Devices.

(** [os.makedirs(p)] can succeed: on the way to [p] no file stands in place
    of a directory, what is missing may be created, and [p] itself is not
    there. *)
Definition creatable (E : env) (f : filesystem) (p : list N) : Prop :=
  p <> [] /\ snd (resolve p) <> [] /\
  forall n : nat,
    (0 < n <= length (snd (resolve p)))%nat ->
    match f !! (fst (resolve p), take n (snd (resolve p))) with
    | Some (File _) => False
    | Some Dir => (n < length (snd (resolve p)))%nat
    | None => denied E (fst (resolve p), take n (snd (resolve p))) = false
    end.

(** The HTTP statuses outside the range 200 to 299. *)
Definition non_2xx (status : N) : bool := negb ((200 <=? status) && (status <? 300)).

(** What may follow a number without continuing it. *)
Definition stops (rest : list N) : bool :=
  match rest with
  | [] => true
  | c :: _ =>
      negb (is_digit c || (c =? ord ".") || (c =? ord "e") || (c =? ord "E")
            || (c =? ord "+") || (c =? ord "-"))
  end.

(** What follows a value in the encoder's output: the end of the text, a
    comma, or a new line. *)
Definition value_end (rest : list N) : bool :=
  match rest with
  | [] => true
  | c :: _ => (c =? ord ",") || (c =? 10)
  end.

Definition is_ascii (c : N) : bool := c <? 128.

(** A float lexeme of JSON as Python reads it: one of the three constants,
    or a number with a fraction or an exponent and nothing after it. *)
Definition float_lexeme (t : list N) : bool :=
  bool_decide (t = str "NaN") || bool_decide (t = str "Infinity")
  || bool_decide (t = str "-Infinity")
  || match match_number t with
     | Some (l, []) =>
         negb (match nl_frac l, nl_exp l with [], [] => true | _, _ => false end)
     | _ => false
     end.

(** What the float model must satisfy for texts to be read back: the
    encoder writes a float as a float lexeme, and the decoder reads that
    lexeme as the same float ([float(repr(x)) == x]). *)
Class FloatLaws (FM : FloatModel) : Prop := {
  floatstr_lexeme : forall f : pyfloat, float_lexeme (floatstr f) = true;
  float_of_floatstr : forall f : pyfloat, float_of_lexeme (floatstr f) = f;
}.

(** A string that [json.loads] can have produced: code points up to
    U+10FFFF, and no high surrogate directly before a low one (the decoder
    joins such a pair into one character). *)
Fixpoint str_wfb (s : list N) : bool :=
  match s with
  | [] => true
  | c :: r =>
      (c <? 0x110000)
      && negb (is_high_surrogate c
               && match r with
                  | c2 :: _ => is_low_surrogate c2
                  | [] => false
                  end)
      && str_wfb r
  end.

(** The checks behind the escapes, run over all code points. *)
Definition hex4_ok (n : N) : bool :=
  match decode_hex4 (hex_digit (n / 4096 mod 16)) (hex_digit (n / 256 mod 16))
                    (hex_digit (n / 16 mod 16)) (hex_digit (n mod 16)) with
  | Some m => m =? n
  | None => false
  end.

Definition high_of (c : N) : N :=
  N.lor 0xd800 (N.land (N.shiftr (c - 0x10000) 10) 0x3ff).

Definition low_of (c : N) : N := N.lor 0xdc00 (N.land (c - 0x10000) 0x3ff).

Definition surrogate_pair_ok (c : N) : bool :=
  (c <? 0x10000)
  || (is_high_surrogate (high_of c) && is_low_surrogate (low_of c)
      && (join_surrogates (high_of c) (low_of c) =? c)).

(** The text after an escaped high surrogate does not go on with the
    escape of a low surrogate. *)
Definition no_low_escape (t : list N) : bool :=
  match t with
  | b :: u :: l1 :: l2 :: l3 :: l4 :: _ =>
      if (b =? 92) && (u =? ord "u") then
        match decode_hex4 l1 l2 l3 l4 with
        | Some uni2 => negb (is_low_surrogate uni2)
        | None => false
        end
      else true
  | _ => true
  end.

Section JsonDevices.
Context {FM : FloatModel}.

(** Induction over JSON values, through the lists of items and members. *)
Lemma json_ind' (P : json -> Prop)
  (Hnull : P JNull) (Hbool : forall b, P (JBool b)) (Hint : forall z, P (JInt z))
  (Hfloat : forall f, P (JFloat f)) (Hstr : forall s, P (JStr s))
  (Harr : forall l, Forall P l -> P (JArr l))
  (Hobj : forall m, Forall (fun kv => P (snd kv)) m -> P (JObj m)) :
  forall v, P v.
Proof.
  fix IH 1. intros [| b | z | f | s | l | m].
  - exact Hnull.
  - apply Hbool.
  - apply Hint.
  - apply Hfloat.
  - apply Hstr.
  - apply Harr. induction l as [|x l IHl]; constructor; [apply IH|exact IHl].
  - apply Hobj. induction m as [|[k x] m IHm]; constructor; [apply IH|exact IHm].
Qed.

(** A value that [json.loads] can have produced: well-formed strings, and
    objects without a repeated key. *)
Fixpoint json_wfb (v : json) : bool :=
  match v with
  | JStr s => str_wfb s
  | JArr l => forallb json_wfb l
  | JObj m =>
      bool_decide (NoDup (map fst m))
      && forallb (fun kv => str_wfb (fst kv) && json_wfb (snd kv)) m
  | _ => true
  end.

(** Fuel that reading the encoding of a value back needs. *)
Fixpoint fuel_of (v : json) : nat :=
  match v with
  | JArr l => S (S (length l + list_sum (map fuel_of l)))
  | JObj m => S (S (2 * length m + list_sum (map (fun kv => fuel_of (snd kv)) m)))
  | _ => 1
  end.

End JsonDevices.

Section AsStated.
Context {FM : FloatModel}.

(** The image-endpoint half of the transport-failure claim as the
    specification states it: every status outside 200 to 299 makes
    [download_image] raise a NetworkError and leave the file system as it
    was. *)
Definition non_2xx_is_network_error : Prop :=
  forall (E : env) (self : BingImageDownloader) (f : filesystem) (url : list N)
         (data : json) (ev0 : list event) (filename : list N) (r : response),
    get_image_url E self f = (Ok (url, data), f, ev0) ->
    image_filename E data = Ok filename ->
    lookup_path f (path_join (save_dir self) filename) = None ->
    http E url = Responded r ->
    non_2xx (status_code r) = true ->
    exists (e : exn) (evs : list event),
      download_image E self f = (Raise e, f, evs)
      /\ spec_error_of e = NetworkError.

End AsStated.

(** ** Events by kind *)

Definition is_request (ev : event) : bool :=
  match ev with
  | EvRequest _ _ => true
  | _ => false
  end.

Definition is_error_log (ev : event) : bool :=
  match ev with
  | EvLog (ErrorFetching _) | EvLog (ErrorDownloading _) => true
  | _ => false
  end.

Definition is_download_error_log (ev : event) : bool :=
  match ev with
  | EvLog (ErrorDownloading _) => true
  | _ => false
  end.

(** The truth value of a chunk in [if chunk:]. *)
Definition nonempty (chunk : list N) : bool :=
  match chunk with
  | [] => false
  | _ => true
  end.

(** The writes of the chunk loop on [chunks]. *)
Definition chunk_writes (p : list N) (chunks : list (list N)) : list event :=
  map (EvWrite p) (List.filter nonempty chunks).

(** What a file system gains: directories only. *)
Definition adds_directories (f f' : filesystem) : Prop :=
  f ⊆ f' /\ forall k n, f !! k = None -> f' !! k = Some n -> n = Dir.

(** A Unicode scalar value: a code point that is no surrogate. *)
Definition scalar (c : N) : bool := (c <? 0x110000) && negb (is_surrogate c).

Section DecoderDevices.
Context {FM : FloatModel}.

(** What the scanner holds in its accumulator. *)
Definition mode_wfb (m : mode) : bool :=
  match m with
  | MValue => true
  | MArrayRest acc => json_wfb (JArr acc)
  | MObjectKey acc | MObjectRest acc => json_wfb (JObj acc)
  end.

End DecoderDevices.

(** An event of a file opened under the path [p]. *)
Definition on_file (p : list N) (ev : event) : Prop :=
  ev = EvOpenWrite p \/ exists d, ev = EvWrite p d.

(** * Properties *)

(** ** Strings, digits and dates *)

Lemma replace_char (a b : N) (s : list N) :
  replace [a] [b] s = map (fun c => if c =? a then b else c) s.
Proof.
  unfold replace. induction s as [|c r IH]; [reflexivity|].
  cbn [replace_scan startswith length Nat.sub map].
  rewrite (N.eqb_sym a c), andb_true_r.
  destruct (c =? a); cbn [app]; now rewrite IH.
Qed.

Lemma uint_chars_digits (u : Decimal.uint) :
  Forall (fun c => is_digit c = true) (uint_chars u).
Proof. induction u; constructor; auto. Qed.

Lemma zero_pad_digits (w : nat) (s : list N) :
  Forall (fun c => is_digit c = true) s ->
  Forall (fun c => is_digit c = true) (zero_pad w s).
Proof.
  intros H. unfold zero_pad. apply Forall_app. split; [|exact H].
  apply Forall_forall. intros x Hx. apply list_elem_of_In in Hx.
  apply repeat_spec in Hx. now subst.
Qed.

Lemma strftime_Ymd_digits (d : date) :
  Forall (fun c => is_digit c = true) (strftime_Ymd d).
Proof.
  unfold strftime_Ymd.
  rewrite !Forall_app. repeat split; apply zero_pad_digits, uint_chars_digits.
Qed.

Lemma zero_pad_length (w : nat) (s : list N) :
  (length s <= w)%nat -> length (zero_pad w s) = w.
Proof. intros H. unfold zero_pad. rewrite length_app, repeat_length. lia. Qed.

Lemma zero_pad_min_length (w : nat) (s : list N) : (w <= length (zero_pad w s))%nat.
Proof. unfold zero_pad. rewrite length_app, repeat_length. lia. Qed.

Lemma strftime_Ymd_min_length (d : date) : (8 <= length (strftime_Ymd d))%nat.
Proof.
  unfold strftime_Ymd. rewrite !length_app.
  pose proof (zero_pad_min_length 4 (nat_repr (year d))).
  pose proof (zero_pad_min_length 2 (nat_repr (month d))).
  pose proof (zero_pad_min_length 2 (nat_repr (day d))). lia.
Qed.

Lemma all_from_spec (n : nat) (P : N -> bool) : forall x : N,
  all_from n x P = true -> forall y, x <= y -> y < x + N.of_nat n -> P y = true.
Proof.
  induction n as [|n IH]; intros x H y Hlo Hhi; [lia|].
  cbn [all_from] in H. apply andb_true_iff in H as [H1 H2].
  destruct (decide (y = x)) as [->|Hne]; [exact H1|].
  apply (IH _ H2); lia.
Qed.

Lemma all_below_N (n : N) (P : N -> bool) :
  all_below n P = true -> forall x, x < n -> P x = true.
Proof.
  intros H x Hx. apply (all_from_spec _ _ _ H); [lia|].
  rewrite N2Nat.id. lia.
Qed.

Lemma nat_repr_length_4 (n : N) : n < 10000 -> (length (nat_repr n) <= 4)%nat.
Proof.
  intros H. apply Nat.leb_le.
  apply (all_below_N 10000 (fun x => Nat.leb (length (nat_repr x)) 4)); [|exact H].
  vm_compute. reflexivity.
Qed.

Lemma nat_repr_length_2 (n : N) : n < 100 -> (length (nat_repr n) <= 2)%nat.
Proof.
  intros H. apply Nat.leb_le.
  apply (all_below_N 100 (fun x => Nat.leb (length (nat_repr x)) 2)); [|exact H].
  vm_compute. reflexivity.
Qed.

(** For the dates of [datetime] (years up to 9999) the stamp has exactly
    eight digits, [YYYYMMDD]. *)
Lemma strftime_Ymd_length (d : date) :
  year d < 10000 -> month d < 100 -> day d < 100 ->
  length (strftime_Ymd d) = 8%nat.
Proof.
  intros Hy Hm Hd. unfold strftime_Ymd. rewrite !length_app.
  rewrite (zero_pad_length 4), !(zero_pad_length 2);
    auto using nat_repr_length_4, nat_repr_length_2.
Qed.

(** The replacement that [download_image] performs on the title. *)
Lemma replace_space (t : list N) :
  replace (str " ") (str "_") t = map (fun c => if c =? ord " " then ord "_" else c) t.
Proof. exact (replace_char (ord " ") (ord "_") t). Qed.

(** ** Paths *)

Lemma split_on_nonempty (c : N) (s : list N) : split_on c s <> [].
Proof.
  destruct s as [|x r]; cbn [split_on]; [discriminate|].
  destruct (x =? c); [discriminate|]. destruct (split_on c r); discriminate.
Qed.

(** A character other than the separator joins the last segment. *)
Lemma split_on_snoc (c x : N) (s : list N) :
  x <> c ->
  exists init seg,
    split_on c s = init ++ [seg] /\ split_on c (s ++ [x]) = init ++ [seg ++ [x]].
Proof.
  intros Hx. induction s as [|y r IH].
  - exists [], []. cbn. apply N.eqb_neq in Hx. rewrite Hx. split; reflexivity.
  - destruct IH as (init & seg & H1 & H2).
    cbn [split_on app]. destruct (y =? c).
    + exists ([] :: init), seg. rewrite H1, H2. split; reflexivity.
    + rewrite H1, H2. destruct init as [|i0 init'].
      * exists [], (y :: seg). split; reflexivity.
      * exists ((y :: i0) :: init'), seg. split; reflexivity.
Qed.

Lemma split_on_app_sep (c : N) (a b : list N) :
  split_on c (a ++ c :: b) = split_on c a ++ split_on c b.
Proof.
  induction a as [|y r IH]; cbn [split_on app].
  - now rewrite N.eqb_refl.
  - destruct (y =? c); rewrite IH; [reflexivity|].
    pose proof (split_on_nonempty c r).
    destruct (split_on c r); [congruence|reflexivity].
Qed.

Lemma components_app_sep (a b : list N) :
  components (a ++ sep :: b) = components a ++ components b.
Proof. unfold components. now rewrite split_on_app_sep, List.filter_app. Qed.

Lemma components_nil : components [] = [].
Proof. reflexivity. Qed.

Lemma keep_component_snoc (seg : list N) (x : N) :
  x <> ord "." -> keep_component (seg ++ [x]) = true.
Proof.
  intros Hx. destruct seg as [|a [|b seg']]; cbn [app keep_component]; try reflexivity.
  apply N.eqb_neq in Hx. now rewrite Hx.
Qed.

(** The last character of a path that ends neither with the separator nor
    with a dot is the last character of its last component. *)
Lemma components_last_char (q : list N) (x : N) :
  x <> sep -> x <> ord "." ->
  exists init seg, components (q ++ [x]) = init ++ [seg ++ [x]].
Proof.
  intros Hs Hd. destruct (split_on_snoc sep x q Hs) as (init & seg & _ & H2).
  exists (List.filter keep_component init), seg.
  unfold components. rewrite H2, List.filter_app. cbn [List.filter].
  now rewrite keep_component_snoc.
Qed.

Lemma endswith_sep (d : list N) :
  endswith [sep] d = true -> exists d', d = d' ++ [sep].
Proof.
  unfold endswith. cbn [rev app]. destruct (rev d) as [|b t] eqn:Hr; cbn; [discriminate|].
  rewrite andb_true_r. intros H. apply N.eqb_eq in H. subst b.
  exists (rev t). rewrite <- (rev_involutive d), Hr. reflexivity.
Qed.

(** Joining a directory and a relative name: the components of both. *)
Lemma components_path_join (d x : list N) :
  startswith [sep] x = false ->
  components (path_join d x) = components d ++ components x.
Proof.
  intros Hx. unfold path_join. rewrite Hx.
  destruct d as [|d0 d']; [reflexivity|]. cbn [orb].
  destruct (endswith [sep] (d0 :: d')) eqn:He.
  - destruct (endswith_sep _ He) as [d'' ->].
    rewrite <- app_assoc. cbn [app].
    rewrite !components_app_sep, components_nil, app_nil_r. reflexivity.
  - apply components_app_sep.
Qed.

Lemma path_join_relative (d x : list N) :
  startswith [sep] x = false ->
  exists pre, path_join d x = pre ++ x /\ fst (resolve (path_join d x)) = fst (resolve (pre ++ x)).
Proof.
  intros Hx. unfold path_join. rewrite Hx.
  destruct (_ || _).
  - exists d. split; reflexivity.
  - exists (d ++ [sep]). rewrite <- app_assoc. split; reflexivity.
Qed.

(** A name that starts with a digit is relative, and its first component is
    kept. *)
Lemma digit_not_sep (c : N) : is_digit c = true -> c <> sep /\ c <> ord ".".
Proof.
  unfold is_digit, sep. intros H. apply andb_true_iff in H as [H1 H2].
  apply N.leb_le in H1, H2. cbn in H1, H2. cbn. lia.
Qed.

Lemma startswith_sep_digit (c : N) (s : list N) :
  is_digit c = true -> startswith [sep] (c :: s) = false.
Proof.
  intros H. destruct (digit_not_sep c H) as [Hs _].
  cbn [startswith]. rewrite andb_true_r. apply N.eqb_neq.
  intros Heq. apply Hs. symmetry. exact Heq.
Qed.

Lemma components_head (c : N) (s : list N) :
  c <> sep -> c <> ord "." -> components (c :: s) <> [].
Proof.
  intros Hs Hd. unfold components. cbn [split_on].
  apply N.eqb_neq in Hs. rewrite Hs.
  pose proof (split_on_nonempty sep s).
  destruct (split_on sep s) as [|h t]; [congruence|].
  cbn [List.filter].
  assert (keep_component (c :: h) = true) as ->; [|discriminate].
  destruct h; cbn [keep_component]; [|reflexivity]. apply N.eqb_neq in Hd. now rewrite Hd.
Qed.

(** ** Running computations *)

Lemma bind_run {A B} (m : M A) (k : A -> M B) (f : filesystem) :
  (m ≫= k) f =
  match m f with
  | (Ok a, f1, ev1) => match k a f1 with (r, f2, ev2) => (r, f2, ev1 ++ ev2) end
  | (Raise e, f1, ev1) => (Raise e, f1, ev1)
  end.
Proof. reflexivity. Qed.

(** Unfolds the monad's operations, and nothing else. *)
Ltac mstep :=
  cbv beta iota zeta delta
    [mbind mret M_bind M_ret get_fs put_fs raise emit lift try_except] in *.

(** Splits a property of an event list along the list. *)
Ltac solve_events :=
  repeat match goal with
    | |- Forall _ [] => constructor
    | |- Forall _ (_ :: _) => constructor; [reflexivity|]
    | |- Forall _ (_ ++ _) => apply Forall_app; split
    | |- Forall _ _ => assumption
    end.

(** Flattens the concatenations of an event list. *)
Ltac flat_events :=
  repeat first [rewrite <- app_assoc | rewrite app_nil_r | progress cbn [app]].

Lemma same_elsewhere_refl (k : bool * list (list N)) (f : filesystem) : same_elsewhere k f f.
Proof. intros k' _. reflexivity. Qed.

Lemma same_elsewhere_insert (k : bool * list (list N)) (v : node) (f : filesystem) : same_elsewhere k f (<[k := v]> f).
Proof. intros k' Hk. now rewrite lookup_insert_ne. Qed.

Lemma same_elsewhere_trans (k : bool * list (list N)) (f1 f2 f3 : filesystem) :
  same_elsewhere k f1 f2 -> same_elsewhere k f2 f3 -> same_elsewhere k f1 f3.
Proof. intros H1 H2 k' Hk. now rewrite H2, H1. Qed.

Lemma keeps_entries_refl (f : filesystem) : keeps_entries f f.
Proof. intros k H. exact H. Qed.

Lemma keeps_entries_insert (k : bool * list (list N)) (v : node) (f : filesystem) : keeps_entries f (<[k := v]> f).
Proof.
  intros k' H. destruct (decide (k = k')) as [->|Hne].
  - rewrite lookup_insert_eq. eauto.
  - now rewrite lookup_insert_ne.
Qed.

Lemma keeps_entries_trans (f1 f2 f3 : filesystem) :
  keeps_entries f1 f2 -> keeps_entries f2 f3 -> keeps_entries f1 f3.
Proof. intros H1 H2 k H. auto. Qed.

(** *** open and write *)

Lemma lookup_path_key (f : filesystem) (p : list N) (n : node) :
  lookup_path f p = Some n -> n = Dir \/ f !! resolve p = Some n.
Proof.
  unfold lookup_path. destruct p; [discriminate|].
  destruct (snd (resolve _)); [intros [= <-]; now left|now right].
Qed.

Lemma open_write_ok (E : env) (p : list N) (f f' : filesystem) (evs : list event) :
  open_write E p f = (Ok tt, f', evs) ->
  f' = <[resolve p := File []]> f /\ evs = [EvOpenWrite p]
  /\ lookup_path f' p = Some (File []) /\ denied E (resolve p) = false.
Proof.
  unfold open_write. mstep.
  destruct p as [|c p']; [discriminate|].
  destruct (denied E _) eqn:Hd; [discriminate|].
  unfold lookup_path.
  destruct (snd (resolve (c :: p'))) eqn:Hc; [discriminate|].
  destruct (f !! resolve (c :: p')) as [[|]|]; try discriminate;
    (destruct (is_dir_key _ _); [|discriminate]);
    cbn; intros [= <- <-]; rewrite lookup_insert_eq; auto.
Qed.

Lemma open_write_raise (E : env) (p : list N) (f : filesystem) (e : exn) (f' : filesystem) (evs : list event) :
  open_write E p f = (Raise e, f', evs) ->
  f' = f /\ evs = [EvOpenWrite p] /\ exists c, e = OSError c p.
Proof.
  unfold open_write. mstep.
  destruct p as [|c p']; [intros [= <- <- <-]; eauto|].
  destruct (denied E _); [intros [= <- <- <-]; eauto|].
  destruct (lookup_path f (c :: p')) as [[|]|];
    try (intros [= <- <- <-]; eauto);
    (destruct (is_dir_key _ _); cbn; [discriminate|intros [= <- <- <-]; eauto]).
Qed.

Lemma file_write_ok (E : env) (p d : list N) (f f' : filesystem) (evs : list event) :
  file_write E p d f = (Ok tt, f', evs) ->
  exists old, f !! resolve p = Some (File old)
    /\ f' = <[resolve p := File (old ++ d)]> f /\ evs = [EvWrite p d].
Proof.
  unfold file_write. mstep.
  destruct (f !! resolve p) as [[old|]|]; try discriminate.
  case_bool_decide; [|discriminate].
  cbn. intros [= <- <-]. eauto.
Qed.

Lemma file_write_any (E : env) (p d : list N) (f : filesystem) (r : result unit) (f' : filesystem) (evs : list event) :
  file_write E p d f = (r, f', evs) ->
  same_elsewhere (resolve p) f f' /\ keeps_entries f f'
  /\ (forall old, f !! resolve p = Some (File old) ->
        exists d', f' !! resolve p = Some (File (old ++ d')))
  /\ (forall e, r = Raise e -> exists c, e = OSError c p)
  /\ Forall (fun ev => is_image_request ev = false) evs.
Proof.
  unfold file_write. mstep.
  destruct (f !! resolve p) as [[old|]|] eqn:Hf.
  2,3: intros [= <- <- <-]; repeat split;
       auto using same_elsewhere_refl, keeps_entries_refl; try congruence;
       intros ? [= <-]; eauto.
  case_bool_decide; cbn; intros [= <- <- <-]; repeat split;
    auto using same_elsewhere_insert, keeps_entries_insert.
  - intros ? [= <-]. rewrite lookup_insert_eq. eauto.
  - discriminate.
  - intros ? [= <-]. rewrite lookup_insert_eq. eauto.
  - intros ? [= <-]. eauto.
Qed.

Lemma write_chunks_ok (E : env) (p : list N) (chunks : list (list N)) :
  forall (f : filesystem) (old : list N) (f' : filesystem) (evs : list event),
  f !! resolve p = Some (File old) ->
  write_chunks E p chunks f = (Ok tt, f', evs) ->
  f' !! resolve p = Some (File (old ++ concat chunks))
  /\ same_elsewhere (resolve p) f f'.
Proof.
  induction chunks as [|c rest IH]; intros f old f' evs Hf H.
  - cbn in H. injection H as <- <-. rewrite app_nil_r.
    auto using same_elsewhere_refl.
  - cbn [write_chunks] in H. rewrite bind_run in H.
    destruct c as [|b c'].
    + cbn in H. destruct (write_chunks E p rest f) as [[r f1] ev1] eqn:Hr.
      injection H as -> <- <-. cbn [concat app]. eauto.
    + destruct (file_write E p (b :: c') f) as [[[[]|e] f1] ev1] eqn:Hw; [|discriminate].
      destruct (write_chunks E p rest f1) as [[r f2] ev2] eqn:Hr.
      injection H as -> <- <-.
      apply file_write_ok in Hw as (old' & Hold & -> & _).
      assert (old' = old) as -> by congruence.
      destruct (IH _ (old ++ b :: c') _ _ (lookup_insert_eq _ _ _) Hr) as [H1 H2].
      split.
      * rewrite H1. cbn [concat]. now rewrite <- app_assoc.
      * eapply same_elsewhere_trans; [apply same_elsewhere_insert|exact H2].
Qed.

Lemma write_chunks_any (E : env) (p : list N) (chunks : list (list N)) :
  forall (f : filesystem) (r : result unit) (f' : filesystem) (evs : list event),
  write_chunks E p chunks f = (r, f', evs) ->
  same_elsewhere (resolve p) f f' /\ keeps_entries f f'
  /\ (forall old, f !! resolve p = Some (File old) ->
        exists d', f' !! resolve p = Some (File (old ++ d')))
  /\ (forall e, r = Raise e -> exists c, e = OSError c p)
  /\ Forall (fun ev => is_image_request ev = false) evs.
Proof.
  induction chunks as [|c rest IH]; intros f r f' evs H.
  - cbn in H. injection H as <- <- <-.
    repeat split; auto using same_elsewhere_refl, keeps_entries_refl.
    + intros old Ho. exists []. now rewrite app_nil_r.
    + discriminate.
  - cbn [write_chunks] in H. rewrite bind_run in H.
    destruct c as [|b c'].
    + cbn in H. destruct (write_chunks E p rest f) as [[r1 f1] ev1] eqn:Hr.
      injection H as <- <- <-. eauto.
    + destruct (file_write E p (b :: c') f) as [[r0 f1] ev1] eqn:Hw.
      destruct (file_write_any _ _ _ _ _ _ _ Hw) as (A1 & A2 & A3 & A4 & A5).
      destruct r0 as [[]|e0].
      * destruct (write_chunks E p rest f1) as [[r2 f2] ev2] eqn:Hr.
        injection H as <- <- <-.
        destruct (IH _ _ _ _ Hr) as (B1 & B2 & B3 & B4 & B5).
        repeat split; eauto using same_elsewhere_trans, keeps_entries_trans.
        -- intros old Ho. destruct (A3 _ Ho) as [d1 H1].
           destruct (B3 _ H1) as [d2 H2]. exists (d1 ++ d2).
           now rewrite app_assoc.
        -- apply Forall_app. auto.
      * injection H as <- <- <-. repeat split; eauto.
Qed.

(** *** Chunks *)

Lemma slices_from_concat (n : nat) (l : list N) : forall (k : nat) (cur : list N),
  concat (slices_from n k cur l) = rev cur ++ l.
Proof.
  induction l as [|b r IH]; intros k cur; cbn [slices_from].
  - cbn. now rewrite app_nil_r.
  - destruct k as [|k'].
    + cbn [concat]. rewrite IH. reflexivity.
    + rewrite IH. cbn [rev]. now rewrite <- app_assoc.
Qed.

Lemma slices_concat (n : nat) (l : list N) : concat (slices n l) = l.
Proof. unfold slices. now rewrite slices_from_concat. Qed.

Lemma slices_from_bound (n : nat) (l : list N) : forall (k : nat) (cur : list N),
  (1 <= n)%nat -> (length cur + k <= n)%nat ->
  Forall (fun c => (length c <= n)%nat) (slices_from n k cur l).
Proof.
  induction l as [|b r IH]; intros k cur Hn Hk; cbn [slices_from].
  - constructor; [rewrite length_rev; lia|constructor].
  - destruct k as [|k'].
    + constructor; [rewrite length_rev; lia|]. apply IH; cbn; lia.
    + apply IH; cbn; lia.
Qed.

Lemma flat_map_slices_concat (n : nat) (pieces : list (list N)) :
  concat (flat_map (slices n) pieces) = concat pieces.
Proof.
  induction pieces as [|p rest IH]; [reflexivity|].
  cbn [flat_map concat]. now rewrite concat_app, slices_concat, IH.
Qed.

(** The chunks of [iter_content] carry the body, whatever the pieces in
    which it arrived, and none is larger than the chunk size. *)
Lemma iter_content_concat (n : nat) (r : response) :
  concat (fst (iter_content n r)) = concat (raw r).
Proof. apply flat_map_slices_concat. Qed.

Lemma iter_content_bound (n : nat) (r : response) :
  (1 <= n)%nat -> Forall (fun c => (length c <= n)%nat) (fst (iter_content n r)).
Proof.
  intros Hn. unfold iter_content. cbn [fst].
  induction (raw r) as [|p rest IH]; [constructor|].
  cbn [flat_map]. apply Forall_app. split; [|exact IH].
  apply slices_from_bound; cbn; lia.
Qed.

(** *** Save image, save metadata *)

Lemma lookup_path_file (f : filesystem) (p c : list N) :
  lookup_path f p = Some (File c) ->
  forall f' : filesystem, lookup_path f' p = f' !! resolve p.
Proof.
  unfold lookup_path. destruct p; [discriminate|].
  destruct (snd (resolve _)); [discriminate|reflexivity].
Qed.

Lemma save_image_ok (E : env) (p : list N) (r : response) (f f' : filesystem)
  (evs : list event) :
  save_image E p r f = (Ok tt, f', evs) ->
  f' !! resolve p = Some (File (concat (raw r)))
  /\ lookup_path f' p = Some (File (concat (raw r)))
  /\ same_elsewhere (resolve p) f f' /\ truncated r = false.
Proof.
  unfold save_image. rewrite bind_run.
  destruct (open_write E p f) as [[[[]|e] f1] ev1] eqn:Ho; [|discriminate].
  rewrite bind_run.
  destruct (write_chunks E p _ f1) as [[[[]|e] f2] ev2] eqn:Hw; [|discriminate].
  apply open_write_ok in Ho as (-> & _ & Hl & _).
  destruct (write_chunks_ok _ _ _ _ _ _ _ (lookup_insert_eq _ _ _) Hw) as [H1 H2].
  rewrite iter_content_concat in H1. cbn [app] in H1.
  unfold iter_content at 1. cbn [snd].
  destruct (truncated r); mstep; [discriminate|].
  intros [= <- <-]. repeat split; auto.
  - rewrite (lookup_path_file _ _ _ Hl). exact H1.
  - eapply same_elsewhere_trans; [apply same_elsewhere_insert|exact H2].
Qed.

Lemma save_image_any (E : env) (p : list N) (r : response) (f : filesystem)
  (res : result unit) (f' : filesystem) (evs : list event) :
  save_image E p r f = (res, f', evs) ->
  same_elsewhere (resolve p) f f' /\ keeps_entries f f'
  /\ Forall (fun ev => is_image_request ev = false) evs.
Proof.
  unfold save_image. rewrite bind_run.
  destruct (open_write E p f) as [[[[]|e] f1] ev1] eqn:Ho.
  - apply open_write_ok in Ho as (-> & -> & _ & _). rewrite bind_run.
    destruct (write_chunks E p _ _) as [[r2 f2] ev2] eqn:Hw.
    destruct (write_chunks_any _ _ _ _ _ _ _ Hw) as (B1 & B2 & _ & _ & B5).
    assert (same_elsewhere (resolve p) f f2 /\ keeps_entries f f2) as [C1 C2].
    { split; [eapply same_elsewhere_trans|eapply keeps_entries_trans]; eauto;
        [apply same_elsewhere_insert|apply keeps_entries_insert]. }
    destruct r2 as [[]|e2].
    + destruct (snd (iter_content _ r)); mstep; intros [= <- <- <-];
        repeat split; auto; solve_events.
    + intros [= <- <- <-]. repeat split; auto; solve_events.
  - apply open_write_raise in Ho as (-> & -> & _).
    intros [= <- <- <-]. repeat split;
      auto using same_elsewhere_refl, keeps_entries_refl.
Qed.

Lemma text_write_any (E : env) (p s : list N) (f : filesystem) (r : result unit)
  (f' : filesystem) (evs : list event) :
  text_write E p s f = (r, f', evs) ->
  same_elsewhere (resolve p) f f' /\ keeps_entries f f'
  /\ Forall (fun ev => is_image_request ev = false) evs.
Proof.
  unfold text_write. destruct (utf8_encode s).
  - intros H. apply file_write_any in H. tauto.
  - mstep. intros [= <- <- <-].
    auto using same_elsewhere_refl, keeps_entries_refl.
Qed.

Section SaveMetadata.
Context {FM : FloatModel}.

Lemma save_metadata_any (E : env) (self : BingImageDownloader) (data : json)
  (f : filesystem) (r : result unit) (f' : filesystem) (evs : list event) :
  save_metadata E self data f = (r, f', evs) ->
  same_elsewhere (resolve (metadata_path E self)) f f' /\ keeps_entries f f'
  /\ Forall (fun ev => is_image_request ev = false) evs.
Proof.
  unfold save_metadata, json_dump. rewrite bind_run.
  destruct (open_write E _ f) as [[[[]|e] f1] ev1] eqn:Ho.
  - apply open_write_ok in Ho as (-> & -> & _ & _).
    destruct (text_write E _ _ _) as [[r2 f2] ev2] eqn:Hw.
    destruct (text_write_any _ _ _ _ _ _ _ Hw) as (B1 & B2 & B3).
    intros [= <- <- <-]. repeat split.
    + eapply same_elsewhere_trans; [apply same_elsewhere_insert|exact B1].
    + eapply keeps_entries_trans; [apply keeps_entries_insert|exact B2].
    + solve_events.
  - apply open_write_raise in Ho as (-> & -> & _).
    intros [= <- <- <-]. repeat split;
      auto using same_elsewhere_refl, keeps_entries_refl.
Qed.

(** A successful metadata step leaves the UTF-8 bytes of the dumped record,
    and nothing else, in the metadata file: what was there is overwritten. *)
Lemma save_metadata_ok (E : env) (self : BingImageDownloader) (data : json)
  (f f' : filesystem) (evs : list event) :
  save_metadata E self data f = (Ok tt, f', evs) ->
  exists b, utf8_encode (json_dumps data) = Some b
    /\ f' !! resolve (metadata_path E self) = Some (File b).
Proof.
  unfold save_metadata, json_dump, text_write. rewrite bind_run.
  destruct (open_write E _ f) as [[[[]|e] f1] ev1] eqn:Ho; [|discriminate].
  apply open_write_ok in Ho as (-> & -> & _ & _).
  destruct (utf8_encode (json_dumps data)) as [b|]; [|mstep; discriminate].
  destruct (file_write E _ b _) as [[[[]|e] f2] ev2] eqn:Hw; [|discriminate].
  intros [= <- <-].
  apply file_write_ok in Hw as (old & Hold & -> & _).
  rewrite lookup_insert_eq in Hold. injection Hold as <-.
  exists b. split; [reflexivity|]. now rewrite lookup_insert_eq.
Qed.

End SaveMetadata.

(** ** The two methods, case by case *)

Section Methods.
Context {FM : FloatModel}.

Lemma getitem_raise (v : json) (k : subscript) (e : exn) :
  getitem v k = Raise e ->
  is_RequestException e = false /\ spec_error_of e = MalformedResponseError.
Proof.
  destruct v, k; cbn; repeat case_match; intros [= <-]; auto.
Qed.

Lemma extract_raise (self : BingImageDownloader) (data : json) (e : exn) :
  extract self data = Raise e ->
  is_RequestException e = false /\ spec_error_of e = MalformedResponseError.
Proof.
  unfold extract.
  destruct (getitem data _) as [images|e1] eqn:H1;
    [|intros [= <-]; eapply getitem_raise; eauto].
  destruct (getitem images _) as [image_data|e2] eqn:H2;
    [|intros [= <-]; eapply getitem_raise; eauto].
  destruct (getitem image_data _) as [url|e3] eqn:H3;
    [|intros [= <-]; eapply getitem_raise; eauto].
  destruct url; cbn; intros [= <-]; auto.
Qed.

(** [get_image_url] never touches the file system; what it returns and what
    it logs is decided by the answer of the metadata endpoint. *)
Lemma get_image_url_unfold (E : env) (self : BingImageDownloader) (f : filesystem) :
  get_image_url E self f =
  let api := bing_api_url self in
  let failed e := (Raise e, f, [EvRequest api false; EvLog (ErrorFetching e)]) in
  match http E api with
  | Failed t => failed (RequestFailed t)
  | Responded r =>
      if truncated r then failed ChunkedEncodingError
      else if is_error_status (status_code r) then failed (HTTPError (status_code r))
      else match json_loads (text r) with
           | None => failed InvalidJSONError
           | Some data =>
               match extract self data with
               | Ok x => (Ok x, f, [EvRequest api false])
               | Raise e => (Raise e, f, [EvRequest api false])
               end
           end
  end.
Proof.
  unfold get_image_url, requests_get, raise_for_status, response_json.
  mstep. cbn [negb andb].
  destruct (http E (bing_api_url self)) as [t|r]; [reflexivity|].
  destruct (truncated r); [reflexivity|].
  destruct (is_error_status (status_code r)); [reflexivity|].
  destruct (json_loads (text r)) as [data|]; [|reflexivity].
  destruct (extract self data) as [x|e] eqn:Hx.
  - unfold extract in Hx.
    destruct (getitem data _) as [images|e1]; [|discriminate].
    destruct (getitem images _) as [image_data|e2]; [|discriminate].
    destruct (getitem image_data _) as [url|e3]; [|discriminate].
    destruct (str_add _ url) as [image_url|e4]; [|discriminate].
    injection Hx as <-. reflexivity.
  - destruct (extract_raise _ _ _ Hx) as [Hr _].
    unfold extract in Hx.
    destruct (getitem data _) as [images|e1];
      [|injection Hx as ->; rewrite Hr; reflexivity].
    destruct (getitem images _) as [image_data|e2];
      [|injection Hx as ->; rewrite Hr; reflexivity].
    destruct (getitem image_data _) as [url|e3];
      [|injection Hx as ->; rewrite Hr; reflexivity].
    destruct (str_add _ url) as [image_url|e4]; [discriminate|].
    injection Hx as ->. rewrite Hr. reflexivity.
Qed.

(** The run of [get_image_url] carries the same value and events from any
    file system, and leaves the file system as it was. *)
Lemma get_image_url_readonly (E : env) (self : BingImageDownloader)
  (f : filesystem) (r : result (list N * json)) (f' : filesystem) (evs : list event) :
  get_image_url E self f = (r, f', evs) ->
  f' = f /\ forall g : filesystem, get_image_url E self g = (r, g, evs).
Proof.
  rewrite get_image_url_unfold. intros H. split.
  - cbv zeta in H. repeat case_match; congruence.
  - intros g. rewrite get_image_url_unfold. cbv zeta in *.
    repeat case_match; congruence.
Qed.

Lemma get_image_url_ok_events (E : env) (self : BingImageDownloader)
  (f : filesystem) (x : list N * json) (f' : filesystem) (evs : list event) :
  get_image_url E self f = (Ok x, f', evs) ->
  evs = [EvRequest (bing_api_url self) false].
Proof.
  rewrite get_image_url_unfold. cbv zeta. repeat case_match; congruence.
Qed.

(** [download_image], branch by branch. *)
Lemma download_image_unfold (E : env) (self : BingImageDownloader) (f : filesystem) :
  download_image E self f =
  match get_image_url E self f with
  | (Raise e, f0, ev0) => (Raise e, f0, ev0 ++ [EvLog (ErrorDownloading e)])
  | (Ok (image_url, image_data), f0, ev0) =>
      match image_filename E image_data with
      | Raise e => (Raise e, f0, ev0 ++ [EvLog (ErrorDownloading e)])
      | Ok filename =>
          let file_path := path_join (save_dir self) filename in
          let stop e pre := (Raise e, f0, ev0 ++ EvRequest image_url true :: pre) in
          if bool_decide (is_Some (lookup_path f0 file_path))
          then (Ok file_path, f0, ev0 ++ [EvLog (ImageAlreadyExists file_path)])
          else
            match http E image_url with
            | Failed t =>
                stop (RequestFailed t) [EvLog (ErrorDownloading (RequestFailed t))]
            | Responded r =>
                if is_error_status (status_code r)
                then stop (HTTPError (status_code r))
                          [EvLog (ErrorDownloading (HTTPError (status_code r)))]
                else
                  match save_image E file_path r f0 with
                  | (Raise e, f1, ev1) =>
                      (Raise e, f1,
                       ev0 ++ EvRequest image_url true :: ev1
                       ++ [EvLog (ErrorDownloading e)])
                  | (Ok _, f1, ev1) =>
                      match save_metadata E self image_data f1 with
                      | (Raise e, f2, ev2) =>
                          (Raise e, f2,
                           ev0 ++ EvRequest image_url true :: ev1
                           ++ EvLog (SuccessfullyDownloaded file_path) :: ev2
                           ++ [EvLog (ErrorDownloading e)])
                      | (Ok _, f2, ev2) =>
                          (Ok file_path, f2,
                           ev0 ++ EvRequest image_url true :: ev1
                           ++ EvLog (SuccessfullyDownloaded file_path) :: ev2)
                      end
                  end
            end
      end
  end.
Proof.
  unfold download_image, try_except at 1. rewrite bind_run.
  destruct (get_image_url E self f) as [[[[image_url image_data]|e] f0] ev0];
    [|mstep; unfold logger_error; mstep; reflexivity].
  rewrite bind_run. unfold lift at 1.
  destruct (image_filename E image_data) as [filename|e];
    [|mstep; unfold logger_error; mstep; flat_events; reflexivity].
  rewrite bind_run. unfold path_exists at 1. rewrite bind_run. unfold get_fs at 1.
  cbv beta iota zeta. unfold mret at 1, M_ret at 1. cbv beta iota.
  destruct (bool_decide (is_Some (lookup_path f0 _))).
  { unfold logger_info. mstep. flat_events. reflexivity. }
  rewrite bind_run. unfold requests_get at 1. rewrite bind_run.
  unfold emit at 1. cbv beta iota. cbn [negb andb].
  destruct (http E image_url) as [t|r];
    [unfold logger_error; mstep; flat_events; reflexivity|].
  unfold mret at 1, M_ret at 1. cbv beta iota.
  rewrite bind_run. unfold raise_for_status at 1.
  destruct (is_error_status (status_code r));
    [unfold logger_error; mstep; flat_events; reflexivity|].
  unfold mret at 1, M_ret at 1. cbv beta iota. rewrite bind_run.
  destruct (save_image E _ r f0) as [[[[]|e] f1] ev1];
    [|unfold logger_error; mstep; flat_events; reflexivity].
  rewrite bind_run. unfold logger_info at 1, emit at 1. cbv beta iota.
  rewrite bind_run.
  destruct (save_metadata E self image_data f1) as [[[[]|e] f2] ev2];
    unfold logger_error; mstep; flat_events; reflexivity.
Qed.

End Methods.

(** ** File names and keys (lines 65 to 68 and 88) *)

Section FileNames.
Context {FM : FloatModel}.

Lemma image_filename_ok (E : env) (data : json) (filename : list N) :
  image_filename E data = Ok filename ->
  exists title, filename = date_str E ++ str "_" ++ title ++ str ".jpg".
Proof.
  unfold image_filename.
  destruct (method_get data _ _) as [t|]; [|discriminate].
  destruct (method_replace t _ _) as [title|]; [|discriminate].
  intros [= <-]. eauto.
Qed.

Lemma path_join_suffix (d x : list N) : exists pre, path_join d x = pre ++ x.
Proof.
  unfold path_join. destruct (startswith [sep] x); [now exists []|].
  destruct (_ || _); [now exists d|].
  exists (d ++ [sep]). now rewrite <- app_assoc.
Qed.

(** The image file and the metadata file are different files. *)
Lemma image_key_ne_metadata_key (E : env) (self : BingImageDownloader)
  (data : json) (filename : list N) :
  image_filename E data = Ok filename ->
  resolve (path_join (save_dir self) filename) <> resolve (metadata_path E self).
Proof.
  intros H. apply image_filename_ok in H as [title ->].
  unfold metadata_path.
  destruct (path_join_suffix (save_dir self)
              (date_str E ++ str "_" ++ title ++ str ".jpg")) as [p1 ->].
  destruct (path_join_suffix (save_dir self)
              (date_str E ++ str "_metadata.json")) as [p2 ->].
  assert (H1 : exists q, p1 ++ date_str E ++ str "_" ++ title ++ str ".jpg"
                         = q ++ [ord "g"]).
  { exists (p1 ++ date_str E ++ str "_" ++ title ++ str ".jp").
    rewrite <- !app_assoc. reflexivity. }
  assert (H2 : exists q, p2 ++ date_str E ++ str "_metadata.json" = q ++ [ord "n"]).
  { exists (p2 ++ date_str E ++ str "_metadata.jso").
    rewrite <- !app_assoc. reflexivity. }
  destruct H1 as [q1 ->], H2 as [q2 ->].
  destruct (components_last_char q1 (ord "g")) as (i1 & s1 & C1); [discriminate..|].
  destruct (components_last_char q2 (ord "n")) as (i2 & s2 & C2); [discriminate..|].
  intros Hr. assert (Hc := f_equal snd Hr). unfold resolve in Hc.
  cbv beta iota delta [snd] in Hc. rewrite C1, C2 in Hc.
  apply app_inj_tail in Hc as [_ Hc]. apply app_inj_tail in Hc as [_ Hc].
  discriminate.
Qed.

End FileNames.

(** ** The claims about [download_image], [get_image_url] and [main] *)

Section Claims.
Context {FM : FloatModel}.

(** The skip branch: with a file at the derived path, the run is the
    metadata request and one log record. *)
Lemma download_image_skip (E : env) (self : BingImageDownloader) (f : filesystem)
  (url : list N) (data : json) (f0 : filesystem) (ev0 : list event)
  (filename : list N) :
  get_image_url E self f = (Ok (url, data), f0, ev0) ->
  image_filename E data = Ok filename ->
  is_Some (lookup_path f (path_join (save_dir self) filename)) ->
  download_image E self f =
    (Ok (path_join (save_dir self) filename), f,
     [EvRequest (bing_api_url self) false;
      EvLog (ImageAlreadyExists (path_join (save_dir self) filename))]).
Proof.
  intros Hg Hn Hp. rewrite download_image_unfold.
  destruct (get_image_url_readonly _ _ _ _ _ _ Hg) as [-> _].
  rewrite (get_image_url_ok_events _ _ _ _ _ _ Hg) in Hg.
  rewrite Hg, Hn. cbv zeta. rewrite bool_decide_eq_true_2 by exact Hp.
  reflexivity.
Qed.

(** C1. Idempotence of download_image: when a file already exists at the
    derived path [save_dir/{YYYYMMDD}_{title}.jpg], [download_image] returns
    that path with no request for the image binary and no write (its only
    events are the metadata request and a log record); hence a second call,
    on the same day with the same metadata response, returns the path of
    the first call and performs no image request and no write. *)
Theorem download_image_idempotent (E : env) (self : BingImageDownloader)
  (f : filesystem) (url : list N) (data : json) (ev0 : list event)
  (filename : list N) :
  get_image_url E self f = (Ok (url, data), f, ev0) ->
  image_filename E data = Ok filename ->
  (is_Some (lookup_path f (path_join (save_dir self) filename)) ->
   download_image E self f =
     (Ok (path_join (save_dir self) filename), f,
      [EvRequest (bing_api_url self) false;
       EvLog (ImageAlreadyExists (path_join (save_dir self) filename))]))
  /\ (forall (p : list N) (f1 : filesystem) (evs : list event),
        download_image E self f = (Ok p, f1, evs) ->
        p = path_join (save_dir self) filename
        /\ download_image E self f1 =
             (Ok p, f1,
              [EvRequest (bing_api_url self) false; EvLog (ImageAlreadyExists p)])).
Proof.
  intros Hg Hn. split; [eauto using download_image_skip|].
  intros p f1 evs Hd.
  destruct (get_image_url_readonly _ _ _ _ _ _ Hg) as [_ Hany].
  assert (Hdone : p = path_join (save_dir self) filename
                  /\ is_Some (lookup_path f1 (path_join (save_dir self) filename))).
  { rewrite download_image_unfold, Hg, Hn in Hd. cbv zeta in Hd.
    case_bool_decide as Hp.
    { injection Hd as <- <- _. auto. }
    destruct (http E url) as [t|r]; [discriminate|].
    destruct (is_error_status _); [discriminate|].
    destruct (save_image E _ r f) as [[[[]|e] fa] ev1] eqn:Hi; [|discriminate].
    destruct (save_metadata E self data fa) as [[[[]|e] fb] ev2] eqn:Hm;
      [|discriminate].
    injection Hd as <- <- _. split; [reflexivity|].
    apply save_image_ok in Hi as (Hk & Hl & _ & _).
    apply save_metadata_any in Hm as (_ & Hkeep & _).
    rewrite (lookup_path_file _ _ _ Hl). apply Hkeep. rewrite Hk. eauto. }
  destruct Hdone as [-> Hthere]. split; [reflexivity|].
  eapply download_image_skip; eauto.
Qed.

(** C2. Malformed metadata response: when the metadata endpoint answers
    with a success status and a body that is not valid JSON, or whose
    [images] member is absent or an empty array, [get_image_url] raises an
    exception of the class MalformedResponseError; [download_image]
    propagates it, and the only events are the request and error log
    records: no file-system write is attempted and the file system is
    unchanged. *)
Theorem malformed_response_raises (E : env) (self : BingImageDownloader)
  (f : filesystem) (r : response) :
  http E (bing_api_url self) = Responded r ->
  truncated r = false ->
  is_error_status (status_code r) = false ->
  match json_loads (text r) with
  | None => True
  | Some data => images_absent_or_empty data = true
  end ->
  let e :=
    match json_loads (text r) with
    | None => InvalidJSONError
    | Some (JObj d) =>
        match dict_lookup d (str "images") with
        | None => KeyError (SubStr (str "images"))
        | Some _ => IndexError
        end
    | Some _ => TypeError
    end in
  let fetch_events :=
    EvRequest (bing_api_url self) false
    :: (if is_RequestException e then [EvLog (ErrorFetching e)] else []) in
  spec_error_of e = MalformedResponseError
  /\ get_image_url E self f = (Raise e, f, fetch_events)
  /\ download_image E self f =
       (Raise e, f, fetch_events ++ [EvLog (ErrorDownloading e)])
  /\ Forall (fun ev => is_fs_write ev = false)
       (fetch_events ++ [EvLog (ErrorDownloading e)]).
Proof.
  intros Hh Ht Hs Hbody. cbv zeta.
  assert (Hg : get_image_url E self f =
    (Raise (match json_loads (text r) with
            | None => InvalidJSONError
            | Some (JObj d) =>
                match dict_lookup d (str "images") with
                | None => KeyError (SubStr (str "images"))
                | Some _ => IndexError
                end
            | Some _ => TypeError
            end), f,
     EvRequest (bing_api_url self) false
     :: (if is_RequestException
              (match json_loads (text r) with
               | None => InvalidJSONError
               | Some (JObj d) =>
                   match dict_lookup d (str "images") with
                   | None => KeyError (SubStr (str "images"))
                   | Some _ => IndexError
                   end
               | Some _ => TypeError
               end)
         then [EvLog (ErrorFetching
                 (match json_loads (text r) with
                  | None => InvalidJSONError
                  | Some (JObj d) =>
                      match dict_lookup d (str "images") with
                      | None => KeyError (SubStr (str "images"))
                      | Some _ => IndexError
                      end
                  | Some _ => TypeError
                  end))]
         else []))).
  { rewrite get_image_url_unfold. cbv zeta. rewrite Hh, Ht, Hs.
    destruct (json_loads (text r)) as [data|]; [|reflexivity].
    unfold extract. destruct data; try reflexivity.
    cbn [images_absent_or_empty] in Hbody. cbn [getitem].
    destruct (dict_lookup members (str "images")) as [v|]; [|reflexivity].
    destruct v; try discriminate. destruct items; [reflexivity|discriminate]. }
  split; [|split; [exact Hg|split]].
  - destruct (json_loads (text r)) as [[]|]; try reflexivity.
    destruct (dict_lookup _ _); reflexivity.
  - rewrite download_image_unfold, Hg. reflexivity.
  - destruct (json_loads (text r)) as [[]|]; cbn; try (solve_events; fail).
    destruct (dict_lookup _ _); cbn; solve_events.
Qed.

(** C4 (amended). Transport failure atomicity: when either endpoint answers
    with a 4xx or 5xx status, the statuses on which [raise_for_status]
    raises, [download_image] raises an exception of the class NetworkError
    ([HTTPError] with that status), the file system is left as it was, and
    no file is opened or written. *)
Theorem http_error_leaves_directory_unchanged (E : env)
  (self : BingImageDownloader) (f : filesystem) :
  (forall r : response,
     http E (bing_api_url self) = Responded r ->
     is_error_status (status_code r) = true ->
     exists e,
       spec_error_of e = NetworkError
       /\ (truncated r = false -> e = HTTPError (status_code r))
       /\ get_image_url E self f =
            (Raise e, f, [EvRequest (bing_api_url self) false; EvLog (ErrorFetching e)])
       /\ download_image E self f =
            (Raise e, f,
             [EvRequest (bing_api_url self) false; EvLog (ErrorFetching e);
              EvLog (ErrorDownloading e)]))
  /\ (forall (url : list N) (data : json) (ev0 : list event) (filename : list N)
             (r : response),
        get_image_url E self f = (Ok (url, data), f, ev0) ->
        image_filename E data = Ok filename ->
        lookup_path f (path_join (save_dir self) filename) = None ->
        http E url = Responded r ->
        is_error_status (status_code r) = true ->
        spec_error_of (HTTPError (status_code r)) = NetworkError
        /\ download_image E self f =
             (Raise (HTTPError (status_code r)), f,
              [EvRequest (bing_api_url self) false; EvRequest url true;
               EvLog (ErrorDownloading (HTTPError (status_code r)))])).
Proof.
  split.
  - intros r Hh Hs.
    exists (if truncated r then ChunkedEncodingError else HTTPError (status_code r)).
    rewrite download_image_unfold, get_image_url_unfold. cbv zeta. rewrite Hh, Hs.
    destruct (truncated r); repeat split; auto; discriminate.
  - intros url data ev0 filename r Hg Hn Hp Hh Hs. split; [reflexivity|].
    rewrite download_image_unfold.
    rewrite (get_image_url_ok_events _ _ _ _ _ _ Hg) in Hg.
    rewrite Hg, Hn. cbv zeta. rewrite Hp, Hh, Hs.
    rewrite bool_decide_eq_false_2 by (intros [? ?]; discriminate).
    reflexivity.
Qed.

(** C6. Entry-point exit behaviour: whatever the constructor and
    [download_image] do, [main] returns; an exception is caught at the top
    level and printed as the last line of output, a success prints the path;
    the exit status is 0 in both cases. *)
Theorem main_exit_status (E : env) (f : filesystem) :
  fst (fst (run_script E f)) = 0
  /\ match (downloader ← init E (str "bing_images"); download_image E downloader) f with
     | (Ok p, f', evs) => main E f = (Ok tt, f', evs ++ [EvPrint (DownloadedTo p)])
     | (Raise e, f', evs) => main E f = (Ok tt, f', evs ++ [EvPrint (ErrorLine e)])
     end.
Proof.
  unfold run_script, main, try_except, print. rewrite !bind_run.
  destruct (init E (str "bing_images") f) as [[[d|e] f1] ev1]; cbv beta iota.
  - rewrite bind_run.
    destruct (download_image E d f1) as [[[p|e] f2] ev2]; mstep;
      (split; [reflexivity|flat_events; reflexivity]).
  - mstep. split; reflexivity.
Qed.

(** C7. No rollback on metadata-write failure: when the image has been
    written and the metadata step that follows fails, [download_image]
    raises the error of the metadata step, and the image file is on disk
    with the whole body, as the image step left it. *)
Theorem metadata_failure_keeps_image (E : env) (self : BingImageDownloader)
  (f f1 f2 : filesystem) (url : list N) (data : json) (ev0 ev1 ev2 : list event)
  (filename : list N) (r : response) (e : exn) :
  get_image_url E self f = (Ok (url, data), f, ev0) ->
  image_filename E data = Ok filename ->
  lookup_path f (path_join (save_dir self) filename) = None ->
  http E url = Responded r ->
  is_error_status (status_code r) = false ->
  save_image E (path_join (save_dir self) filename) r f = (Ok tt, f1, ev1) ->
  save_metadata E self data f1 = (Raise e, f2, ev2) ->
  download_image E self f =
    (Raise e, f2,
     ev0 ++ EvRequest url true :: ev1
     ++ EvLog (SuccessfullyDownloaded (path_join (save_dir self) filename)) :: ev2
     ++ [EvLog (ErrorDownloading e)])
  /\ f1 !! resolve (path_join (save_dir self) filename) = Some (File (concat (raw r)))
  /\ f2 !! resolve (path_join (save_dir self) filename) = Some (File (concat (raw r)))
  /\ lookup_path f2 (path_join (save_dir self) filename) = Some (File (concat (raw r))).
Proof.
  intros Hg Hn Hp Hh Hs Hi Hm.
  split.
  { rewrite download_image_unfold, Hg, Hn. cbv zeta. rewrite Hp, Hh, Hs, Hi, Hm.
    rewrite bool_decide_eq_false_2 by (intros [? ?]; discriminate).
    reflexivity. }
  apply save_image_ok in Hi as (Hk & Hl & _ & _).
  apply save_metadata_any in Hm as (Hsame & _ & _).
  assert (Hk2 : f2 !! resolve (path_join (save_dir self) filename)
                = Some (File (concat (raw r)))).
  { rewrite Hsame; [exact Hk|]. eapply image_key_ne_metadata_key; eauto. }
  repeat split; auto.
  rewrite (lookup_path_file _ _ _ Hl). exact Hk2.
Qed.

(** C8. Chunked write completeness: after a successful fresh download the
    image file holds exactly the bytes of the response body, whatever the
    pieces in which the body arrived; the body was written in chunks of at
    most 8192 bytes, empty chunks skipped, and the length of the file is the
    total length of the body. *)
Theorem chunked_write_complete (E : env) (self : BingImageDownloader)
  (f f1 : filesystem) (url : list N) (data : json) (ev0 evs : list event)
  (filename p : list N) (r : response) (body : list N) :
  get_image_url E self f = (Ok (url, data), f, ev0) ->
  image_filename E data = Ok filename ->
  lookup_path f (path_join (save_dir self) filename) = None ->
  http E url = Responded r ->
  concat (raw r) = body ->
  download_image E self f = (Ok p, f1, evs) ->
  p = path_join (save_dir self) filename
  /\ f1 !! resolve p = Some (File body)
  /\ lookup_path f1 p = Some (File body)
  /\ concat (fst (iter_content (N.to_nat 8192) r)) = body
  /\ Forall (fun c => (length c <= N.to_nat 8192)%nat)
       (fst (iter_content (N.to_nat 8192) r))
  /\ length body = list_sum (map length (raw r)).
Proof.
  intros Hg Hn Hp Hh Hb Hd.
  rewrite download_image_unfold, Hg, Hn in Hd. cbv zeta in Hd.
  rewrite Hp, Hh in Hd.
  rewrite bool_decide_eq_false_2 in Hd by (intros [? ?]; discriminate).
  destruct (is_error_status _); [discriminate|].
  destruct (save_image E _ r f) as [[[[]|e] fa] ev1] eqn:Hi; [|discriminate].
  destruct (save_metadata E self data fa) as [[[[]|e] fb] ev2] eqn:Hm;
    [|discriminate].
  injection Hd as <- <- _.
  apply save_image_ok in Hi as (Hk & Hl & _ & _).
  apply save_metadata_any in Hm as (Hsame & _ & _).
  assert (Hk2 : fb !! resolve (path_join (save_dir self) filename) = Some (File body)).
  { rewrite Hsame; [now rewrite Hk, Hb|]. eapply image_key_ne_metadata_key; eauto. }
  repeat split; auto.
  - rewrite (lookup_path_file _ _ _ Hl). exact Hk2.
  - rewrite iter_content_concat. exact Hb.
  - apply iter_content_bound. lia.
  - subst body. clear. induction (raw r) as [|c l IH]; [reflexivity|].
    cbn [concat map list_sum]. rewrite length_app, IH. reflexivity.
Qed.

End Claims.

(** ** File-name derivation and the constructor *)

Section Derivation.
Context {FM : FloatModel}.

(** C3. Filename derivation: for every metadata record the file name is the
    date stamp, an underscore, the title with every space replaced by an
    underscore (the literal [bing_image] when the record has no title), and
    [.jpg]; the stamp of a [datetime] date is eight digits; for the title
    "Mountain View" on 2024-01-15 the name is [20240115_Mountain_View.jpg]. *)
Theorem filename_derivation (E : env) (members : list (list N * json)) :
  image_filename E (JObj members) =
    match dict_lookup members (str "title") with
    | None => Ok (strftime_Ymd (now E) ++ str "_bing_image.jpg")
    | Some (JStr title) =>
        Ok (strftime_Ymd (now E) ++ str "_"
            ++ map (fun c => if c =? ord " " then ord "_" else c) title
            ++ str ".jpg")
    | Some _ => Raise AttributeError
    end
  /\ (year (now E) < 10000 -> month (now E) < 100 -> day (now E) < 100 ->
      length (strftime_Ymd (now E)) = 8%nat
      /\ Forall (fun c => is_digit c = true) (strftime_Ymd (now E)))
  /\ (now E = {| year := 2024; month := 1; day := 15 |} ->
      dict_lookup members (str "title") = Some (JStr (str "Mountain View")) ->
      image_filename E (JObj members) = Ok (str "20240115_Mountain_View.jpg")).
Proof.
  assert (Hgen : image_filename E (JObj members) =
    match dict_lookup members (str "title") with
    | None => Ok (strftime_Ymd (now E) ++ str "_bing_image.jpg")
    | Some (JStr title) =>
        Ok (strftime_Ymd (now E) ++ str "_"
            ++ map (fun c => if c =? ord " " then ord "_" else c) title
            ++ str ".jpg")
    | Some _ => Raise AttributeError
    end).
  { unfold image_filename, method_get, date_str.
    destruct (dict_lookup members (str "title")) as [v|]; [|reflexivity].
    destruct v; try reflexivity.
    unfold method_replace. now rewrite replace_space. }
  split; [exact Hgen|]. split.
  - intros Hy Hm Hd. split; [now apply strftime_Ymd_length|].
    apply strftime_Ymd_digits.
  - intros Hnow Ht. rewrite Hgen, Ht, Hnow. reflexivity.
Qed.

(** C10. Sanitization replaces only the space character: every other
    character of the title, the path separator included, goes unchanged
    into the file name; so for a title with a separator the derived path
    has at least one directory level between the save directory and the
    file: it names a file in a subdirectory, not in the save directory. *)
Theorem title_separator_reaches_path (E : env) (self : BingImageDownloader)
  (members : list (list N * json)) (title : list N) :
  dict_lookup members (str "title") = Some (JStr title) ->
  replace (str " ") (str "_") title
    = map (fun c => if c =? ord " " then ord "_" else c) title
  /\ (forall c, c <> ord " " -> c ∈ title -> c ∈ replace (str " ") (str "_") title)
  /\ image_filename E (JObj members)
       = Ok (date_str E ++ str "_" ++ replace (str " ") (str "_") title ++ str ".jpg")
  /\ (sep ∈ title ->
      forall filename, image_filename E (JObj members) = Ok filename ->
        (length (snd (resolve (save_dir self))) + 2
           <= length (snd (resolve (path_join (save_dir self) filename))))%nat
        /\ parent_key (resolve (path_join (save_dir self) filename))
           <> resolve (save_dir self)).
Proof.
  intros Ht.
  assert (Hrep : replace (str " ") (str "_") title
                 = map (fun c => if c =? ord " " then ord "_" else c) title)
    by apply replace_space.
  assert (Hin : forall c, c <> ord " " -> c ∈ title ->
                  c ∈ replace (str " ") (str "_") title).
  { intros c Hc Hi. rewrite Hrep. apply list_elem_of_fmap.
    exists c. split; [|exact Hi]. apply N.eqb_neq in Hc. now rewrite Hc. }
  assert (Hname : image_filename E (JObj members)
       = Ok (date_str E ++ str "_" ++ replace (str " ") (str "_") title ++ str ".jpg")).
  { unfold image_filename, method_get. rewrite Ht. reflexivity. }
  split; [exact Hrep|]. split; [exact Hin|]. split; [exact Hname|].
  intros Hsep filename Hf.
  assert (Hs : sep ∈ replace (str " ") (str "_") title)
    by (apply Hin; [discriminate|exact Hsep]).
  apply list_elem_of_split in Hs as (t1 & t2 & Hs).
  assert (filename = date_str E ++ str "_" ++ (t1 ++ sep :: t2) ++ str ".jpg")
    as -> by (rewrite <- Hs; congruence).
  clear Hrep Hin Hname Hf Hs.
  pose proof (strftime_Ymd_min_length (now E)) as Hlen.
  pose proof (strftime_Ymd_digits (now E)) as Hdig.
  unfold date_str in *.
  destruct (strftime_Ymd (now E)) as [|d0 ds]; [cbn in Hlen; lia|].
  apply Forall_cons in Hdig as [Hd0 _].
  destruct (digit_not_sep _ Hd0) as [Hns Hnd].
  assert (Hcomp : exists first init seg,
         components (path_join (save_dir self)
           ((d0 :: ds) ++ str "_" ++ (t1 ++ sep :: t2) ++ str ".jpg"))
         = components (save_dir self) ++ (first ++ init ++ [seg]) /\ first <> []).
  { rewrite components_path_join by (apply startswith_sep_digit; exact Hd0).
    replace ((d0 :: ds) ++ str "_" ++ (t1 ++ sep :: t2) ++ str ".jpg")
      with ((d0 :: ds ++ str "_" ++ t1) ++ sep :: ((t2 ++ str ".jp") ++ [ord "g"]))
      by (cbn [app]; rewrite <- !app_assoc; reflexivity).
    rewrite components_app_sep.
    destruct (components_last_char (t2 ++ str ".jp") (ord "g"))
      as (init & seg & ->); [discriminate..|].
    exists (components (d0 :: ds ++ str "_" ++ t1)), init, (seg ++ [ord "g"]).
    split; [reflexivity|apply components_head; assumption]. }
  destruct Hcomp as (first & init & seg & Hc & Hfirst).
  split.
  - unfold resolve. cbn [snd]. rewrite Hc, !length_app. cbn [length].
    destruct first; [congruence|cbn [length]; lia].
  - unfold parent_key, resolve. cbn [fst snd]. rewrite Hc.
    intros Heq. apply (f_equal snd) in Heq. cbn [snd] in Heq.
    apply (f_equal length) in Heq.
    rewrite !app_assoc, removelast_last, !length_app in Heq.
    destruct first; [congruence|cbn [length] in Heq; lia].
Qed.

End Derivation.

(** ** The constructor and the save directory *)

Lemma mkdir_ok (E : env) (p : list N) (k : bool * list (list N)) (f : filesystem) :
  f !! k = None -> denied E k = false -> is_dir_key f (parent_key k) = true ->
  mkdir E p k f = (Ok tt, <[k := Dir]> f, []).
Proof.
  intros Hk Hd Hp. unfold mkdir. mstep. now rewrite Hd, Hk, Hp.
Qed.

(** The descent of [os.makedirs]: when nothing stands in the way, every
    directory from [done] down to [done ++ todo] is there at the end, and
    what was in the file system is still there. *)
Lemma makedirs_from_ok (E : env) (p : list N) (abs : bool) (todo : list (list N)) :
  forall (done : list (list N)) (f : filesystem),
    todo <> [] ->
    is_dir_key f (abs, done) = true ->
    (forall n : nat, (0 < n <= length todo)%nat ->
       match f !! (abs, done ++ take n todo) with
       | Some (File _) => False
       | Some Dir => (n < length todo)%nat
       | None => denied E (abs, done ++ take n todo) = false
       end) ->
    exists f' : filesystem,
      makedirs_from E p abs done todo f = (Ok tt, f', [])
      /\ f' !! (abs, done ++ todo) = Some Dir /\ f ⊆ f'.
Proof.
  induction todo as [|c rest IH]; intros done f Hne Hpar Hok; [congruence|].
  destruct rest as [|c2 rest'].
  - specialize (Hok 1%nat ltac:(cbn; lia)). cbn [take] in Hok.
    cbn [makedirs_from].
    destruct (f !! (abs, done ++ [c])) as [[|]|] eqn:Hk; [tauto|cbn in Hok; lia|].
    exists (<[(abs, done ++ [c]) := Dir]> f). split; [|split].
    + apply mkdir_ok; auto. unfold parent_key. cbn [fst snd].
      now rewrite removelast_last.
    + apply lookup_insert_eq.
    + now apply insert_subseteq.
  - pose proof (Hok 1%nat ltac:(cbn; lia)) as H1. cbn [take] in H1.
    assert (Hstep : exists f1 : filesystem,
              ensure_dir E p (abs, done ++ [c]) f = (Ok tt, f1, [])
              /\ f1 !! (abs, done ++ [c]) = Some Dir /\ f ⊆ f1
              /\ forall k, k <> (abs, done ++ [c]) -> f1 !! k = f !! k).
    { unfold ensure_dir. mstep.
      destruct (f !! (abs, done ++ [c])) as [[|]|] eqn:Hk; [tauto| |].
      - exists f. repeat split; auto.
      - exists (<[(abs, done ++ [c]) := Dir]> f).
        rewrite mkdir_ok; auto.
        + split; [reflexivity|]. split; [apply lookup_insert_eq|].
          split; [now apply insert_subseteq|].
          intros k Hne'. now rewrite lookup_insert_ne.
        + unfold parent_key. cbn [fst snd]. now rewrite removelast_last. }
    destruct Hstep as (f1 & Hrun & Hdir & Hsub & Hsame).
    destruct (IH (done ++ [c]) f1) as (f' & Hrun' & Hdir' & Hsub').
    + discriminate.
    + unfold is_dir_key. cbn [snd]. rewrite Hdir.
      destruct (done ++ [c]); reflexivity.
    + intros n Hn. specialize (Hok (S n) ltac:(cbn [length] in *; lia)).
      cbn [take] in Hok. rewrite <- app_assoc. cbn [app].
      rewrite Hsame; [|].
      * destruct (f !! _) as [[|]|]; auto. cbn [length] in *. lia.
      * intros Heq. apply (f_equal snd) in Heq. cbn [snd] in Heq.
        apply (f_equal length) in Heq. rewrite !length_app in Heq.
        destruct n; [lia|]. cbn [take length] in Heq. lia.
    + exists f'. split; [|split].
      * change (makedirs_from E p abs done (c :: c2 :: rest') f)
          with ((ensure_dir E p (abs, done ++ [c]);;
                 makedirs_from E p abs (done ++ [c]) (c2 :: rest')) f).
        rewrite bind_run, Hrun, Hrun'. reflexivity.
      * rewrite <- app_assoc in Hdir'. exact Hdir'.
      * etrans; eauto.
Qed.

Lemma mkdir_events (E : env) (p : list N) (k : bool * list (list N))
  (f : filesystem) (r : result unit) (f' : filesystem) (evs : list event) :
  mkdir E p k f = (r, f', evs) -> evs = [].
Proof.
  unfold mkdir. mstep.
  destruct (denied E k); [now intros [= <- <- <-]|].
  destruct (f !! k); [now intros [= <- <- <-]|].
  destruct (is_dir_key f (parent_key k)); now intros [= <- <- <-].
Qed.

Lemma makedirs_from_events (E : env) (p : list N) (abs : bool)
  (todo : list (list N)) :
  forall (done : list (list N)) (f : filesystem) (r : result unit)
         (f' : filesystem) (evs : list event),
    makedirs_from E p abs done todo f = (r, f', evs) -> evs = [].
Proof.
  induction todo as [|c rest IH]; intros done f r f' evs H.
  - cbn in H. mstep. now injection H as <- <- <-.
  - destruct rest as [|c2 rest'].
    + cbn [makedirs_from] in H. eauto using mkdir_events.
    + change (makedirs_from E p abs done (c :: c2 :: rest') f)
        with ((ensure_dir E p (abs, done ++ [c]);;
               makedirs_from E p abs (done ++ [c]) (c2 :: rest')) f) in H.
      rewrite bind_run in H.
      destruct (ensure_dir E p (abs, done ++ [c]) f) as [[r1 f1] ev1] eqn:H1.
      assert (ev1 = []) as ->.
      { revert H1. unfold ensure_dir. mstep.
        destruct (f !! (abs, done ++ [c])) as [[|]|];
          try (now intros [= <- <- <-]).
        destruct (mkdir E p _ f) as [[r' f''] ev'] eqn:Hmk.
        apply mkdir_events in Hmk as ->. now intros [= <- <- <-]. }
      destruct r1 as [[]|e1]; [|now injection H as <- <- <-].
      destruct (makedirs_from E p abs (done ++ [c]) (c2 :: rest') f1)
        as [[r2 f2] ev2] eqn:H2.
      apply IH in H2 as ->. now injection H as <- <- <-.
Qed.

Section Constructor.
Context {FM : FloatModel}.

(** C9. Directory auto-creation: constructing the downloader with a save
    directory that does not exist, and that the OS lets be created, creates
    it: the only events of the constructor are [os.makedirs] and its log
    record, no file is opened or written, and what was in the file system
    stays; when the directory exists, the constructor changes nothing and
    produces no event. In [main] the constructor runs first, so the
    directory is there before any write. *)
Theorem init_creates_save_dir (E : env) (dir : list N) (f : filesystem) :
  let self :=
    {| save_dir := dir;
       bing_api_url := str "https://www.bing.com/HPImageArchive.aspx?format=js&idx=0&n=1";
       bing_base_url := str "https://www.bing.com" |} in
  (lookup_path f dir = None -> creatable E f dir ->
   exists f' : filesystem,
     init E dir f = (Ok self, f', [EvMakedirs dir; EvLog (CreatedDirectory dir)])
     /\ lookup_path f' dir = Some Dir /\ f ⊆ f')
  /\ (is_Some (lookup_path f dir) -> init E dir f = (Ok self, f, []))
  /\ (forall (r0 : result BingImageDownloader) (f0 : filesystem) (ev0 : list event),
        init E dir f = (r0, f0, ev0) ->
        ev0 = [] \/ ev0 = [EvMakedirs dir]
        \/ ev0 = [EvMakedirs dir; EvLog (CreatedDirectory dir)])
  /\ (forall (r : result unit) (f' : filesystem) (evs : list event),
        main E f = (r, f', evs) ->
        exists rest : list event,
          evs = snd (init E (str "bing_images") f) ++ rest).
Proof.
  cbv zeta. split; [|split; [|split]].
  - intros Hnone (Hp & Hc & Hok).
    destruct (makedirs_from_ok E dir (fst (resolve dir)) (snd (resolve dir)) [] f)
      as (f' & Hrun & Hdir & Hsub); auto.
    exists f'. split; [|split; [|exact Hsub]].
    + unfold init, path_exists, makedirs, logger_info. mstep.
      rewrite Hnone. rewrite bool_decide_eq_false_2 by (intros [? ?]; discriminate).
      cbn [negb]. destruct dir as [|c dir']; [congruence|].
      rewrite Hrun. reflexivity.
    + unfold lookup_path. destruct dir as [|c dir']; [congruence|].
      destruct (snd (resolve (c :: dir'))) eqn:Hs; [congruence|].
      cbn [app] in Hdir. rewrite <- Hdir, <- Hs.
      f_equal; now destruct (resolve (c :: dir')).
  - intros Hthere. unfold init, path_exists. mstep.
    rewrite bool_decide_eq_true_2 by exact Hthere. reflexivity.
  - intros r0 f0 ev0. unfold init, path_exists, makedirs, logger_info. mstep.
    destruct (bool_decide _); cbn [negb]; [intros [= <- <- <-]; now left|].
    destruct dir as [|c dir']; [intros [= <- <- <-]; right; now left|].
    destruct (makedirs_from E _ _ _ _ f) as [[r1 f1] ev1] eqn:Hm.
    apply makedirs_from_events in Hm as ->.
    destruct r1 as [[]|e]; intros [= <- <- <-]; auto.
  - intros r f' evs Hmain. unfold main, try_except in Hmain.
    rewrite bind_run in Hmain.
    destruct (init E (str "bing_images") f) as [[[d|e] f0] ev0]; cbn [snd].
    + destruct ((download_image E d
                 ≫= λ image_path : list N, print (DownloadedTo image_path)) f0)
        as [[r1 f1] ev1].
      destruct r1; [injection Hmain as <- <- <-; eauto|].
      unfold print in Hmain. mstep. injection Hmain as <- <- <-.
      rewrite <- app_assoc. eauto.
    + unfold print in Hmain. mstep. injection Hmain as <- <- <-. eauto.
Qed.

End Constructor.

(** ** Numbers as the decoder reads them *)

Lemma value_end_stops (rest : list N) : value_end rest = true -> stops rest = true.
Proof.
  destruct rest as [|c r]; [reflexivity|]. cbn [value_end stops].
  intros H. apply orb_true_iff in H as [H|H]; apply N.eqb_eq in H; subst c;
    reflexivity.
Qed.

Lemma stops_not_digit (c : N) (r : list N) :
  stops (c :: r) = true -> is_digit c = false.
Proof.
  cbn [stops]. intros H. apply negb_true_iff in H.
  repeat (apply orb_false_iff in H as [H _]). exact H.
Qed.

Lemma span_digits_split (s : list N) : forall d r,
  span_digits s = (d, r) -> s = d ++ r /\ Forall (fun c => is_digit c = true) d.
Proof.
  induction s as [|c s' IH]; intros d r; cbn [span_digits].
  - intros [= <- <-]. split; [reflexivity|constructor].
  - destruct (is_digit c) eqn:Hc.
    + destruct (span_digits s') as [d' r'] eqn:Hs. intros [= <- <-].
      destruct (IH _ _ eq_refl) as [-> Hd]. split; [reflexivity|].
      constructor; assumption.
    + intros [= <- <-]. split; [reflexivity|constructor].
Qed.

Lemma span_digits_app (s rest : list N) : forall d r,
  stops rest = true ->
  span_digits s = (d, r) -> span_digits (s ++ rest) = (d, r ++ rest).
Proof.
  induction s as [|c s' IH]; intros d r Hst; cbn [span_digits app].
  - intros [= <- <-]. destruct rest as [|c r']; [reflexivity|].
    cbn [span_digits]. now rewrite (stops_not_digit _ _ Hst).
  - destruct (is_digit c) eqn:Hc.
    + destruct (span_digits s') as [d' r'] eqn:Hs. intros [= <- <-].
      now rewrite (IH _ _ Hst eq_refl).
    + intros [= <- <-]. reflexivity.
Qed.

Lemma span_digits_all (d rest : list N) :
  Forall (fun c => is_digit c = true) d -> stops rest = true ->
  span_digits (d ++ rest) = (d, rest).
Proof.
  intros Hd Hst. induction Hd as [|c d' Hc Hd IH]; cbn [app].
  - destruct rest as [|c r']; [reflexivity|].
    cbn [span_digits]. now rewrite (stops_not_digit _ _ Hst).
  - cbn [span_digits]. now rewrite Hc, IH.
Qed.

Lemma match_integer_app (s rest : list N) : forall i r,
  stops rest = true ->
  match_integer s = Some (i, r) -> match_integer (s ++ rest) = Some (i, r ++ rest).
Proof.
  intros i r Hst. destruct s as [|c s']; [discriminate|].
  cbn [match_integer app]. destruct (c =? ord "0"); [now intros [= <- <-]|].
  destruct (is_digit c); [|discriminate].
  destruct (span_digits s') as [d r'] eqn:Hs. intros [= <- <-].
  now rewrite (span_digits_app _ _ _ _ Hst Hs).
Qed.

Lemma match_frac_app (s rest : list N) : forall fr r,
  stops rest = true ->
  match_frac s = (fr, r) -> match_frac (s ++ rest) = (fr, r ++ rest).
Proof.
  intros fr r Hst. destruct s as [|c s'].
  - cbn [match_frac app]. intros [= <- <-].
    destruct rest as [|c r']; [reflexivity|]. cbn [match_frac].
    cbn [stops] in Hst. apply negb_true_iff in Hst.
    repeat (apply orb_false_iff in Hst as [Hst ?]).
    assert ((c =? ord ".") = false) as -> by assumption. reflexivity.
  - cbn [match_frac app]. destruct (c =? ord "."); [|now intros [= <- <-]].
    destruct (span_digits s') as [d r'] eqn:Hs.
    rewrite (span_digits_app _ _ _ _ Hst Hs).
    destruct d; now intros [= <- <-].
Qed.

Lemma match_exp_app (s rest : list N) : forall ex r,
  stops rest = true ->
  match_exp s = (ex, r) -> match_exp (s ++ rest) = (ex, r ++ rest).
Proof.
  intros ex r Hst.
  assert (Hrest : match rest with
                  | [] => True
                  | c :: _ => is_digit c = false /\ (c =? ord "e") = false
                              /\ (c =? ord "E") = false /\ (c =? ord "+") = false
                              /\ (c =? ord "-") = false
                  end).
  { destruct rest as [|c r0]; [exact I|]. cbn [stops] in Hst.
    apply negb_true_iff in Hst.
    repeat (apply orb_false_iff in Hst as [Hst ?]). auto. }
  destruct s as [|c s'].
  - cbn [match_exp app]. intros [= <- <-].
    destruct rest as [|c r']; [reflexivity|]. cbn [match_exp].
    destruct Hrest as (_ & -> & -> & _). reflexivity.
  - cbn [match_exp app]. destruct ((c =? ord "e") || (c =? ord "E"));
      [|now intros [= <- <-]].
    destruct s' as [|g s''].
    + intros [= <- <-]. cbn [app].
      destruct rest as [|g r']; [reflexivity|].
      destruct Hrest as (Hd & _ & _ & Hp & Hm). rewrite Hm, Hp. cbn [orb].
      cbn [span_digits]. rewrite Hd. reflexivity.
    + cbn [app]. destruct ((g =? ord "-") || (g =? ord "+")).
      * destruct (span_digits s'') as [d r'] eqn:Hs.
        rewrite (span_digits_app _ _ _ _ Hst Hs).
        destruct d; now intros [= <- <-].
      * destruct (span_digits (g :: s'')) as [d r'] eqn:Hs.
        change (g :: s'' ++ rest) with ((g :: s'') ++ rest).
        rewrite (span_digits_app _ _ _ _ Hst Hs).
        destruct d; now intros [= <- <-].
Qed.

(** A number followed by something that cannot continue it is read as the
    same lexeme. *)
Lemma match_number_app (s rest : list N) (l : number_lexeme) (r : list N) :
  stops rest = true ->
  match_number s = Some (l, r) -> match_number (s ++ rest) = Some (l, r ++ rest).
Proof.
  intros Hst. unfold match_number.
  assert (Hsign : forall s1 neg,
            match match_integer s1 with
            | Some (i, s2) =>
                let (fr, s3) := match_frac s2 in
                let (ex, s4) := match_exp s3 in
                Some ({| nl_negative := neg; nl_integer := i; nl_frac := fr;
                         nl_exp := ex |}, s4)
            | None => None
            end = Some (l, r) ->
            match match_integer (s1 ++ rest) with
            | Some (i, s2) =>
                let (fr, s3) := match_frac s2 in
                let (ex, s4) := match_exp s3 in
                Some ({| nl_negative := neg; nl_integer := i; nl_frac := fr;
                         nl_exp := ex |}, s4)
            | None => None
            end = Some (l, r ++ rest)).
  { intros s1 neg. destruct (match_integer s1) as [[i s2]|] eqn:Hi; [|discriminate].
    rewrite (match_integer_app _ _ _ _ Hst Hi).
    destruct (match_frac s2) as [fr s3] eqn:Hf.
    rewrite (match_frac_app _ _ _ _ Hst Hf).
    destruct (match_exp s3) as [ex s4] eqn:He.
    rewrite (match_exp_app _ _ _ _ Hst He).
    now intros [= <- <-]. }
  destruct s as [|c s'].
  - cbn [match_integer]. discriminate.
  - cbn [app]. destruct (c =? ord "-").
    + apply Hsign.
    + apply (Hsign (c :: s')).
Qed.

Lemma is_digit_ascii (c : N) : is_digit c = true -> is_ascii c = true.
Proof.
  unfold is_digit, is_ascii. intros H. apply andb_true_iff in H as [_ H].
  apply N.leb_le in H. apply N.ltb_lt. cbn in H. lia.
Qed.

Lemma digits_ascii (d : list N) :
  Forall (fun c => is_digit c = true) d -> Forall (fun c => is_ascii c = true) d.
Proof. intros H. eapply Forall_impl; [exact H|]. apply is_digit_ascii. Qed.

Lemma match_integer_split (s i r : list N) :
  match_integer s = Some (i, r) ->
  s = i ++ r /\ Forall (fun c => is_ascii c = true) i /\ i <> [].
Proof.
  destruct s as [|c s']; [discriminate|]. cbn [match_integer].
  destruct (c =? ord "0") eqn:H0.
  - intros [= <- <-]. apply N.eqb_eq in H0. subst c.
    repeat split; [repeat constructor|discriminate].
  - destruct (is_digit c) eqn:Hc; [|discriminate].
    destruct (span_digits s') as [d r'] eqn:Hs. intros [= <- <-].
    destruct (span_digits_split _ _ _ Hs) as [-> Hd].
    repeat split; [|discriminate].
    constructor; [now apply is_digit_ascii|now apply digits_ascii].
Qed.

Lemma match_frac_split (s fr r : list N) :
  match_frac s = (fr, r) -> s = fr ++ r /\ Forall (fun c => is_ascii c = true) fr.
Proof.
  destruct s as [|c s']; cbn [match_frac].
  - intros [= <- <-]. split; [reflexivity|constructor].
  - destruct (c =? ord ".") eqn:Hc; [|intros [= <- <-]; split; [reflexivity|constructor]].
    destruct (span_digits s') as [d r'] eqn:Hs.
    destruct (span_digits_split _ _ _ Hs) as [-> Hd].
    destruct d; intros [= <- <-]; (split; [reflexivity|]); [constructor|].
    apply N.eqb_eq in Hc. subst c. constructor; [reflexivity|now apply digits_ascii].
Qed.

Lemma match_exp_split (s ex r : list N) :
  match_exp s = (ex, r) -> s = ex ++ r /\ Forall (fun c => is_ascii c = true) ex.
Proof.
  destruct s as [|c s']; cbn [match_exp].
  - intros [= <- <-]. split; [reflexivity|constructor].
  - destruct ((c =? ord "e") || (c =? ord "E")) eqn:Hc;
      [|intros [= <- <-]; split; [reflexivity|constructor]].
    assert (Hca : is_ascii c = true).
    { apply orb_true_iff in Hc as [Hc|Hc]; apply N.eqb_eq in Hc; now subst c. }
    destruct s' as [|g s'']; [intros [= <- <-]; split; [reflexivity|constructor]|].
    destruct ((g =? ord "-") || (g =? ord "+")) eqn:Hg.
    + assert (Hga : is_ascii g = true).
      { apply orb_true_iff in Hg as [Hg|Hg]; apply N.eqb_eq in Hg; now subst g. }
      destruct (span_digits s'') as [d r'] eqn:Hs.
      destruct (span_digits_split _ _ _ Hs) as [-> Hd].
      destruct d; intros [= <- <-]; (split; [reflexivity|]); [constructor|].
      repeat (constructor; [assumption|]). now apply digits_ascii.
    + destruct (span_digits (g :: s'')) as [d r'] eqn:Hs.
      destruct (span_digits_split _ _ _ Hs) as [Heq Hd].
      destruct d as [|n d]; intros [= <- <-].
      * split; [reflexivity|constructor].
      * split; [cbn [app]; now rewrite Heq|].
        constructor; [assumption|now apply digits_ascii].
Qed.

(** The lexeme is the text that was read, in ASCII. *)
Lemma match_number_split (s : list N) (l : number_lexeme) (r : list N) :
  match_number s = Some (l, r) ->
  s = lexeme_text l ++ r /\ Forall (fun c => is_ascii c = true) (lexeme_text l)
  /\ lexeme_text l <> [].
Proof.
  unfold match_number.
  assert (Hbody : forall s1 neg,
            match match_integer s1 with
            | Some (i, s2) =>
                let (fr, s3) := match_frac s2 in
                let (ex, s4) := match_exp s3 in
                Some ({| nl_negative := neg; nl_integer := i; nl_frac := fr;
                         nl_exp := ex |}, s4)
            | None => None
            end = Some (l, r) ->
            nl_negative l = neg
            /\ s1 = nl_integer l ++ nl_frac l ++ nl_exp l ++ r
            /\ Forall (fun c => is_ascii c = true)
                 (nl_integer l ++ nl_frac l ++ nl_exp l)
            /\ nl_integer l <> []).
  { intros s1 neg. destruct (match_integer s1) as [[i s2]|] eqn:Hi; [|discriminate].
    destruct (match_frac s2) as [fr s3] eqn:Hf.
    destruct (match_exp s3) as [ex s4] eqn:He.
    intros [= <- <-]. cbn [nl_negative nl_integer nl_frac nl_exp].
    destruct (match_integer_split _ _ _ Hi) as (-> & Hia & Hne).
    destruct (match_frac_split _ _ _ Hf) as (-> & Hfa).
    destruct (match_exp_split _ _ _ He) as (-> & Hea).
    repeat split; auto. rewrite !Forall_app. auto. }
  unfold lexeme_text. destruct s as [|c s'].
  - cbn [match_integer]. discriminate.
  - destruct (c =? ord "-") eqn:Hc.
    + intros H. destruct (Hbody _ _ H) as (-> & -> & Ha & Hne).
      apply N.eqb_eq in Hc. subst c. cbn [app].
      rewrite <- !app_assoc. repeat split; [|discriminate].
      constructor; [reflexivity|exact Ha].
    + intros H. destruct (Hbody _ _ H) as (-> & -> & Ha & Hne).
      cbn [app]. rewrite <- !app_assoc. repeat split; [exact Ha|].
      destruct (nl_integer l); [congruence|discriminate].
Qed.

(** *** Integers *)

Lemma chars_uint_chars (u : Decimal.uint) : chars_uint (uint_chars u) = u.
Proof. induction u; cbn [uint_chars chars_uint]; rewrite ?IHu; reflexivity. Qed.

Lemma int_of_digits_repr (n : N) : int_of_digits (nat_repr n) = n.
Proof.
  unfold int_of_digits, nat_repr. rewrite chars_uint_chars.
  apply DecimalN.Unsigned.of_to.
Qed.

Lemma nat_repr_digits (n : N) : Forall (fun c => is_digit c = true) (nat_repr n).
Proof. apply uint_chars_digits. Qed.

(** A positive number has no leading zero. *)
Lemma to_uint_no_leading_zero (p : positive) (u : Decimal.uint) :
  Pos.to_uint p <> D0 u.
Proof.
  intros H.
  pose proof (DecimalPos.Unsigned.to_of (Pos.to_uint p)) as Hn.
  rewrite DecimalPos.Unsigned.of_to in Hn. cbn [N.to_uint] in Hn.
  rewrite H in Hn. rewrite unorm_D0 in Hn.
  destruct (uint_eq_dec u Nil) as [->|Hu].
  - cbn in Hn. apply (DecimalPos.Unsigned.to_uint_nonzero p). exact H.
  - pose proof (nb_digits_unorm u Hu) as Hd. rewrite <- Hn in Hd.
    cbn [nb_digits] in Hd. lia.
Qed.

Lemma nat_repr_pos (p : positive) :
  exists c tl, nat_repr (Npos p) = c :: tl /\ (c =? ord "0") = false
               /\ is_digit c = true.
Proof.
  unfold nat_repr. cbn [N.to_uint].
  pose proof (to_uint_no_leading_zero p) as Hz.
  pose proof (DecimalPos.Unsigned.to_uint_nonnil p) as Hn.
  destruct (Pos.to_uint p); cbn [uint_chars]; try (eexists _, _; repeat split; fail).
  - congruence.
  - exfalso. eapply Hz. reflexivity.
Qed.

Lemma match_integer_repr (n : N) (rest : list N) :
  stops rest = true -> match_integer (nat_repr n ++ rest) = Some (nat_repr n, rest).
Proof.
  intros Hst. destruct n as [|p]; [reflexivity|].
  destruct (nat_repr_pos p) as (c & tl & Heq & Hc & Hd).
  pose proof (nat_repr_digits (Npos p)) as Hall. rewrite Heq in *.
  cbn [app match_integer]. rewrite Hc, Hd.
  apply Forall_cons in Hall as [_ Hall].
  now rewrite (span_digits_all _ _ Hall Hst).
Qed.

Lemma match_frac_none (rest : list N) :
  stops rest = true -> match_frac rest = ([], rest).
Proof. intros H. exact (match_frac_app [] rest [] [] H eq_refl). Qed.

Lemma match_exp_none (rest : list N) :
  stops rest = true -> match_exp rest = ([], rest).
Proof. intros H. exact (match_exp_app [] rest [] [] H eq_refl). Qed.

Lemma nat_repr_head (n : N) :
  exists c tl, nat_repr n = c :: tl /\ is_digit c = true.
Proof.
  destruct n as [|p]; [now exists (ord "0"), []|].
  destruct (nat_repr_pos p) as (c & tl & H & _ & Hd). eauto.
Qed.

Lemma match_number_nat (n : N) (rest : list N) :
  stops rest = true ->
  match_number (nat_repr n ++ rest)
  = Some ({| nl_negative := false; nl_integer := nat_repr n; nl_frac := [];
             nl_exp := [] |}, rest).
Proof.
  intros Hst. unfold match_number.
  destruct (nat_repr_head n) as (c & tl & Heq & Hd).
  assert (Hm : (c =? ord "-") = false).
  { apply N.eqb_neq. intros ->. discriminate. }
  pose proof (match_integer_repr n rest Hst) as Hi.
  rewrite Heq in *. cbn [app] in *. rewrite Hm, Hi.
  now rewrite (match_frac_none _ Hst), (match_exp_none _ Hst).
Qed.

Lemma match_number_neg (n : N) (rest : list N) :
  stops rest = true ->
  match_number (ord "-" :: nat_repr n ++ rest)
  = Some ({| nl_negative := true; nl_integer := nat_repr n; nl_frac := [];
             nl_exp := [] |}, rest).
Proof.
  intros Hst. unfold match_number. rewrite N.eqb_refl.
  rewrite (match_integer_repr n rest Hst).
  now rewrite (match_frac_none _ Hst), (match_exp_none _ Hst).
Qed.

Section IntLexeme.
Context {FM : FloatModel}.

(** The decoder reads the text of an integer as that integer. *)
Lemma match_number_int (z : Z) (rest : list N) :
  stops rest = true ->
  exists l, match_number (int_repr z ++ rest) = Some (l, rest)
            /\ number_value l = JInt z.
Proof.
  intros Hst. unfold int_repr. destruct z as [|p|p].
  - eexists. split; [apply (match_number_nat 0 rest Hst)|]. reflexivity.
  - eexists. split; [apply (match_number_nat (Npos p) rest Hst)|].
    unfold number_value. cbn [nl_frac nl_exp nl_negative nl_integer].
    now rewrite int_of_digits_repr.
  - eexists. split; [apply (match_number_neg (Npos p) rest Hst)|].
    unfold number_value. cbn [nl_frac nl_exp nl_negative nl_integer].
    now rewrite int_of_digits_repr.
Qed.

End IntLexeme.

(** ** Strings as the decoder reads them *)

Lemma hex4_decode (n : N) :
  n < 0x10000 ->
  decode_hex4 (hex_digit (n / 4096 mod 16)) (hex_digit (n / 256 mod 16))
              (hex_digit (n / 16 mod 16)) (hex_digit (n mod 16)) = Some n.
Proof.
  intros H.
  assert (Hok : hex4_ok n = true).
  { apply (all_below_N 0x10000 hex4_ok); [vm_compute; reflexivity|exact H]. }
  unfold hex4_ok in Hok.
  destruct (decode_hex4 _ _ _ _) as [m|]; [|discriminate].
  apply N.eqb_eq in Hok. now subst m.
Qed.

Lemma surrogate_pair (c : N) :
  0x10000 <= c -> c < 0x110000 ->
  is_high_surrogate (high_of c) = true /\ is_low_surrogate (low_of c) = true
  /\ join_surrogates (high_of c) (low_of c) = c.
Proof.
  intros Hlo Hhi.
  assert (Hok : surrogate_pair_ok c = true).
  { apply (all_below_N 0x110000 surrogate_pair_ok); [vm_compute; reflexivity|exact Hhi]. }
  unfold surrogate_pair_ok in Hok.
  apply orb_true_iff in Hok as [Hok|Hok]; [apply N.ltb_lt in Hok; lia|].
  apply andb_true_iff in Hok as [Hok H3]. apply andb_true_iff in Hok as [H1 H2].
  apply N.eqb_eq in H3. auto.
Qed.

(** The four shapes of an escaped character. *)
Lemma escape_char_spec (c : N) :
  (exists e, escape_char c = [92; e] /\ (e =? ord "u") = false /\ unescape e = Some c)
  \/ (escape_char c = [c] /\ (c =? 34) = false /\ (c =? 92) = false
      /\ (c <? 32) = false /\ is_ascii c = true)
  \/ (c < 0x10000 /\ escape_char c = 92 :: ord "u" :: hex4 c)
  \/ (0x10000 <= c /\ escape_char c = u_escape (high_of c) ++ u_escape (low_of c)).
Proof.
  unfold escape_char.
  destruct (c =? 34) eqn:H1; [apply N.eqb_eq in H1; subst; left; eexists; repeat split|].
  destruct (c =? 92) eqn:H2; [apply N.eqb_eq in H2; subst; left; eexists; repeat split|].
  destruct (c =? 10) eqn:H3; [apply N.eqb_eq in H3; subst; left; eexists; repeat split|].
  destruct (c =? 13) eqn:H4; [apply N.eqb_eq in H4; subst; left; eexists; repeat split|].
  destruct (c =? 9) eqn:H5; [apply N.eqb_eq in H5; subst; left; eexists; repeat split|].
  destruct (c =? 8) eqn:H6; [apply N.eqb_eq in H6; subst; left; eexists; repeat split|].
  destruct (c =? 12) eqn:H7; [apply N.eqb_eq in H7; subst; left; eexists; repeat split|].
  destruct ((32 <=? c) && (c <=? 126)) eqn:H8.
  { right; left. apply andb_true_iff in H8 as [Ha Hb].
    apply N.leb_le in Ha, Hb. repeat split; auto.
    - apply N.ltb_ge. exact Ha.
    - apply N.ltb_lt. lia. }
  destruct (c <? 0x10000) eqn:H9.
  { right; right; left. apply N.ltb_lt in H9. split; [exact H9|reflexivity]. }
  right; right; right. apply N.ltb_ge in H9. split; [exact H9|reflexivity].
Qed.

Lemma hex4_length (n : N) : exists a b c d, hex4 n = [a; b; c; d]
  /\ (n < 0x10000 -> decode_hex4 a b c d = Some n)
  /\ Forall (fun x => is_ascii x = true) [a; b; c; d].
Proof.
  unfold hex4. do 4 eexists. split; [reflexivity|]. split; [apply hex4_decode|].
  assert (Hd : forall d, is_ascii (hex_digit (d mod 16)) = true).
  { intros d. pose proof (N.mod_lt d 16 ltac:(lia)) as Hlt.
    unfold hex_digit, is_ascii. destruct (d mod 16 <? 10) eqn:Hc; apply N.ltb_lt; cbn;
      [apply N.ltb_lt in Hc|apply N.ltb_ge in Hc]; lia. }
  repeat constructor; apply Hd.
Qed.

(** The head of the text that follows an escaped character. *)
Lemma no_low_escape_next (s rest : list N) :
  match s with
  | c :: _ => is_low_surrogate c = false /\ c < 0x110000
  | [] => True
  end ->
  no_low_escape (flat_map escape_char s ++ 34 :: rest) = true.
Proof.
  intros Hs. destruct s as [|c s'].
  - cbn [flat_map app]. unfold no_low_escape.
    destruct rest as [|? [|? [|? [|? [|? ?]]]]]; reflexivity.
  - cbn [flat_map]. rewrite <- app_assoc.
    destruct (escape_char_spec c) as [(e & -> & He & _)|[(-> & _ & H92 & _)|[(Hc & ->)|(Hc & ->)]]].
    + cbn [app]. unfold no_low_escape.
      destruct (flat_map escape_char s' ++ 34 :: rest) as [|? [|? [|? [|? ?]]]];
        try reflexivity.
      rewrite He, andb_false_r. reflexivity.
    + cbn [app]. unfold no_low_escape.
      destruct (flat_map escape_char s' ++ 34 :: rest) as [|? [|? [|? [|? [|? ?]]]]];
        try reflexivity.
      rewrite H92. reflexivity.
    + destruct (hex4_length c) as (a & b & x & d & -> & Hdec & _).
      cbn [app]. unfold no_low_escape. rewrite !N.eqb_refl. cbn [andb].
      destruct Hs as [Hs _]. rewrite (Hdec Hc), Hs. reflexivity.
    + unfold u_escape at 1.
      destruct (hex4_length (high_of c)) as (a & b & x & d & -> & Hdec & _).
      cbn [app]. unfold no_low_escape. rewrite !N.eqb_refl. cbn [andb].
      destruct Hs as [_ Hlt].
      destruct (surrogate_pair c Hc Hlt) as (Hh & _ & _).
      assert (Hrange : high_of c < 0x10000 /\ is_low_surrogate (high_of c) = false).
      { unfold is_high_surrogate in Hh. apply andb_true_iff in Hh as [Ha Hb].
        apply N.leb_le in Ha, Hb. split; [lia|].
        unfold is_low_surrogate. apply andb_false_iff. left. apply N.leb_gt. lia. }
      destruct Hrange as [Hr1 Hr2]. rewrite (Hdec Hr1), Hr2. reflexivity.
Qed.

Lemma str_wfb_cons (c : N) (s : list N) :
  str_wfb (c :: s) = true ->
  c < 0x110000 /\ str_wfb s = true
  /\ (is_high_surrogate c = true ->
      match s with c2 :: _ => is_low_surrogate c2 = false | [] => True end).
Proof.
  cbn [str_wfb]. intros H. apply andb_true_iff in H as [H H3].
  apply andb_true_iff in H as [H1 H2]. apply N.ltb_lt in H1.
  repeat split; auto. intros Hh. rewrite Hh in H2. cbn [andb] in H2.
  destruct s; [exact I|]. now apply negb_true_iff in H2.
Qed.

(** Reading back an escaped string: the string, and the text after the
    closing quote. *)
Lemma scanstring_escaped (s rest : list N) :
  str_wfb s = true ->
  scanstring (flat_map escape_char s ++ 34 :: rest) = Some (s, rest).
Proof.
  induction s as [|c s' IH]; intros Hwf.
  - reflexivity.
  - destruct (str_wfb_cons _ _ Hwf) as (Hlt & Hwf' & Hnext).
    specialize (IH Hwf'). cbn [flat_map]. rewrite <- app_assoc.
    destruct (escape_char_spec c)
      as [(e & -> & He & Hu)|[(-> & H34 & H92 & H32 & _)|[(Hc & ->)|(Hc & ->)]]].
    + cbn [app scanstring]. rewrite He, Hu, IH. reflexivity.
    + cbn [app scanstring]. rewrite H34, H92, H32, IH. reflexivity.
    + destruct (hex4_length c) as (a & b & x & d & -> & Hdec & _).
      cbn [app]. cbn [scanstring]. rewrite N.eqb_refl.
      rewrite (Hdec Hc), IH.
      destruct (is_high_surrogate c) eqn:Hh; [|reflexivity].
      assert (Hn : no_low_escape (flat_map escape_char s' ++ 34 :: rest) = true).
      { apply no_low_escape_next. specialize (Hnext eq_refl).
        destruct s' as [|c2 s'']; [exact I|]. split; [exact Hnext|].
        now destruct (str_wfb_cons _ _ Hwf'). }
      unfold no_low_escape in Hn.
      destruct (flat_map escape_char s' ++ 34 :: rest)
        as [|b0 [|u0 [|l1 [|l2 [|l3 [|l4 r3]]]]]]; try reflexivity.
      destruct ((b0 =? 92) && (u0 =? ord "u")); [|reflexivity].
      destruct (decode_hex4 l1 l2 l3 l4) as [uni2|]; [|discriminate].
      apply negb_true_iff in Hn. rewrite Hn. reflexivity.
    + destruct (surrogate_pair c Hc Hlt) as (Hh & Hl & Hj).
      assert (Hr1 : high_of c < 0x10000).
      { unfold is_high_surrogate in Hh. apply andb_true_iff in Hh as [_ Hb].
        apply N.leb_le in Hb. lia. }
      assert (Hr2 : low_of c < 0x10000).
      { unfold is_low_surrogate in Hl. apply andb_true_iff in Hl as [_ Hb].
        apply N.leb_le in Hb. lia. }
      unfold u_escape.
      destruct (hex4_length (high_of c)) as (a & b & x & d & -> & Hdec & _).
      destruct (hex4_length (low_of c)) as (a' & b' & x' & d' & -> & Hdec' & _).
      cbn [app]. cbn [scanstring]. rewrite !N.eqb_refl.
      rewrite (Hdec Hr1), Hh. cbn [andb]. rewrite (Hdec' Hr2), Hl, IH, Hj.
      reflexivity.
Qed.

Lemma escape_char_ascii (c : N) :
  Forall (fun x => is_ascii x = true) (escape_char c).
Proof.
  destruct (escape_char_spec c)
    as [(e & -> & He & Hu)|[(-> & _ & _ & _ & Ha)|[(Hc & ->)|(Hc & ->)]]].
  - constructor; [reflexivity|]. constructor; [|constructor].
    unfold unescape in Hu. repeat case_match; try discriminate;
      match goal with H : (e =? _) = true |- _ => apply N.eqb_eq in H; subst e end;
      reflexivity.
  - repeat constructor. exact Ha.
  - destruct (hex4_length c) as (a & b & x & d & -> & _ & Hasc).
    constructor; [reflexivity|]. constructor; [reflexivity|]. exact Hasc.
  - unfold u_escape.
    destruct (hex4_length (high_of c)) as (a & b & x & d & -> & _ & Hasc).
    destruct (hex4_length (low_of c)) as (a' & b' & x' & d' & -> & _ & Hasc').
    apply Forall_app. split; (constructor; [reflexivity|]; constructor; [reflexivity|]);
      assumption.
Qed.


(** ** Values as the decoder reads them *)

Lemma skip_ws_indent (i l : nat) (s : list N) :
  skip_ws (newline_indent i l ++ s) = skip_ws s.
Proof.
  unfold newline_indent. cbn [app skip_ws is_ws N.eqb orb].
  change (is_ws 10) with true. cbv iota.
  induction (i * l)%nat as [|k IH]; [reflexivity|]. cbn [repeat app skip_ws].
  change (is_ws 32) with true. exact IH.
Qed.

Lemma skip_ws_head (c : N) (r : list N) : is_ws c = false -> skip_ws (c :: r) = c :: r.
Proof. intros H. cbn [skip_ws]. now rewrite H. Qed.

Lemma join_cons (sp a : list N) (l : list (list N)) :
  join sp (a :: l) = a ++ flat_map (fun b => sp ++ b) l.
Proof.
  revert a. induction l as [|b l IH]; intros a.
  - cbn. now rewrite app_nil_r.
  - change (join sp (a :: b :: l)) with (a ++ sp ++ join sp (b :: l)).
    rewrite IH. cbn [flat_map]. now rewrite <- app_assoc.
Qed.

Lemma flat_map_map {A B C} (f : B -> list C) (g : A -> B) (l : list A) :
  flat_map f (map g l) = flat_map (fun x => f (g x)) l.
Proof. induction l as [|x l IH]; [reflexivity|]. cbn. now rewrite IH. Qed.

Section Scan.
Context {FM : FloatModel} {FL : FloatLaws FM}.

(** What a float lexeme is. *)
Lemma float_lexeme_cases (t : list N) :
  float_lexeme t = true ->
  t = str "NaN" \/ t = str "Infinity" \/ t = str "-Infinity"
  \/ exists l, match_number t = Some (l, [])
       /\ match nl_frac l, nl_exp l with [], [] => False | _, _ => True end.
Proof.
  unfold float_lexeme. intros H.
  apply orb_true_iff in H as [H|H].
  - apply orb_true_iff in H as [H|H].
    + apply orb_true_iff in H as [H|H]; apply bool_decide_eq_true in H; auto.
    + apply bool_decide_eq_true in H; auto.
  - right; right; right.
    destruct (match_number t) as [[l [|? ?]]|]; try discriminate.
    exists l. split; [reflexivity|].
    destruct (nl_frac l), (nl_exp l); try exact I. discriminate.
Qed.

(** A value that starts with a digit or a minus sign is a number, or
    [-Infinity]. *)
Lemma scan_number_head (n : nat) (c : N) (r : list N) :
  is_digit c = true \/ c = ord "-" ->
  scan (S n) MValue (c :: r) =
    match match_number (c :: r) with
    | Some (l, rest) => Some (number_value l, rest)
    | None =>
        match strip_prefix (str "-Infinity") (c :: r) with
        | Some rest => Some (JFloat (float_of_lexeme (str "-Infinity")), rest)
        | None => None
        end
    end.
Proof.
  intros Hc.
  assert (Hr : c = ord "-" \/ (48 <= c /\ c <= 57)).
  { destruct Hc as [Hc| ->]; [right|now left].
    unfold is_digit in Hc. apply andb_true_iff in Hc as [H1 H2].
    apply N.leb_le in H1, H2. cbn in H1, H2. lia. }
  assert (Hne : forall x, x <> 45 -> x < 48 \/ 57 < x -> (c =? x) = false).
  { intros x H1 H2. apply N.eqb_neq. destruct Hr as [-> | Hr]; cbn; lia. }
  cbn [scan].
  rewrite (Hne 34), (Hne (ord "{")), (Hne (ord "[")) by (cbn; lia).
  assert (Hs : forall w x, x <> 45 -> x < 48 \/ 57 < x ->
            strip_prefix (x :: w) (c :: r) = None).
  { intros w x H1 H2. cbn [strip_prefix]. rewrite N.eqb_sym, (Hne x) by assumption.
    reflexivity. }
  assert (strip_prefix (str "null") (c :: r) = None) as ->
    by (apply (Hs (str "ull") (ord "n")); cbn; lia).
  assert (strip_prefix (str "true") (c :: r) = None) as ->
    by (apply (Hs (str "rue") (ord "t")); cbn; lia).
  assert (strip_prefix (str "false") (c :: r) = None) as ->
    by (apply (Hs (str "alse") (ord "f")); cbn; lia).
  destruct (match_number (c :: r)) as [[l rest]|]; [reflexivity|].
  assert (strip_prefix (str "NaN") (c :: r) = None) as ->
    by (apply (Hs (str "aN") (ord "N")); cbn; lia).
  assert (strip_prefix (str "Infinity") (c :: r) = None) as ->
    by (apply (Hs (str "nfinity") (ord "I")); cbn; lia).
  reflexivity.
Qed.

Lemma match_number_head (s : list N) (l : number_lexeme) (r : list N) :
  match_number s = Some (l, r) ->
  exists c tl, s = c :: tl /\ (is_digit c = true \/ c = ord "-").
Proof.
  unfold match_number. destruct s as [|c s']; [discriminate|].
  intros H. exists c, s'. split; [reflexivity|].
  destruct (c =? ord "-") eqn:Hc; [right; now apply N.eqb_eq|left].
  cbn [match_integer] in H. destruct (c =? ord "0") eqn:H0.
  - apply N.eqb_eq in H0. now subst c.
  - destruct (is_digit c); [reflexivity|discriminate].
Qed.

(** The decoder reads the text of a float as that float. *)
Lemma scan_float (n : nat) (f : pyfloat) (rest : list N) :
  stops rest = true ->
  scan (S n) MValue (floatstr f ++ rest) = Some (JFloat f, rest).
Proof.
  intros Hst. pose proof (floatstr_lexeme f) as Hl.
  pose proof (float_of_floatstr f) as Hf.
  destruct (float_lexeme_cases _ Hl) as [H|[H|[H|(l & Hm & Hfe)]]].
  - rewrite H in Hf |- *. rewrite <- Hf. reflexivity.
  - rewrite H in Hf |- *. rewrite <- Hf. reflexivity.
  - rewrite H in Hf |- *. rewrite <- Hf. reflexivity.
  - destruct (match_number_head _ _ _ Hm) as (c & tl & Heq & Hc).
    pose proof (match_number_app _ rest _ _ Hst Hm) as Happ.
    destruct (match_number_split _ _ _ Hm) as (Htext & _ & _).
    rewrite app_nil_r in Htext.
    rewrite Heq in *. cbn [app] in *. rewrite (scan_number_head n c _ Hc), Happ.
    cbn [app]. f_equal. f_equal. unfold number_value.
    destruct (nl_frac l), (nl_exp l); try contradiction;
      now rewrite <- Htext, Hf.
Qed.

End Scan.

Section ScanValues.
Context {FM : FloatModel} {FL : FloatLaws FM}.

(** The encoding of a value starts with a character that is not white
    space and closes no container; it is never empty. *)
Lemma iterencode_head (i lvl : nat) (v : json) :
  exists c tl, iterencode i lvl v = c :: tl
    /\ is_ws c = false /\ (c =? ord "]") = false /\ (c =? ord "}") = false.
Proof.
  destruct v as [| [|] | z | f | s | [|x l] | [|kv m]];
    try (cbn [iterencode]; do 2 eexists; split; [reflexivity|]; repeat split; fail).
  - (* integer *)
    cbn [iterencode]. unfold int_repr.
    assert (Hd : forall n, exists c tl, nat_repr n = c :: tl
                 /\ is_ws c = false /\ (c =? ord "]") = false /\ (c =? ord "}") = false).
    { intros n. destruct (nat_repr_head n) as (c & tl & -> & Hc).
      exists c, tl. split; [reflexivity|].
      unfold is_digit in Hc. apply andb_true_iff in Hc as [H1 H2].
      apply N.leb_le in H1, H2. cbn in H1, H2.
      unfold is_ws. repeat split; repeat (apply orb_false_iff; split);
        apply N.eqb_neq; cbn; lia. }
    destruct z; [apply (Hd 0)|apply Hd|].
    do 2 eexists. split; [reflexivity|]. repeat split.
  - (* float *)
    cbn [iterencode]. pose proof (floatstr_lexeme f) as Hl.
    destruct (float_lexeme_cases _ Hl) as [H|[H|[H|(l & Hm & _)]]];
      try (rewrite H; do 2 eexists; split; [reflexivity|]; repeat split; fail).
    destruct (match_number_head _ _ _ Hm) as (c & tl & -> & Hc).
    exists c, tl. split; [reflexivity|].
    destruct Hc as [Hc| ->]; [|repeat split].
    unfold is_digit in Hc. apply andb_true_iff in Hc as [H1 H2].
    apply N.leb_le in H1, H2. cbn in H1, H2.
    unfold is_ws. repeat split; repeat (apply orb_false_iff; split);
      apply N.eqb_neq; cbn; lia.
Qed.

Lemma skip_ws_encoded (i lvl : nat) (v : json) (rest : list N) :
  skip_ws (iterencode i lvl v ++ rest) = iterencode i lvl v ++ rest.
Proof.
  destruct (iterencode_head i lvl v) as (c & tl & -> & Hw & _).
  cbn [app]. now apply skip_ws_head.
Qed.

Lemma fuel_of_pos (v : json) : (1 <= fuel_of v)%nat.
Proof. destruct v; cbn [fuel_of]; lia. Qed.

(** The loop over the items of an array, after the first. *)
Lemma scan_array_rest (i lvl : nat) (ys : list json) :
  Forall (fun y => forall lvl rest n, (fuel_of y <= n)%nat -> value_end rest = true ->
            scan n MValue (iterencode i lvl y ++ rest) = Some (y, rest)) ys ->
  forall (acc : list json) (rest : list N) (n : nat),
    (length ys + list_sum (map fuel_of ys) < n)%nat ->
    scan n (MArrayRest acc)
      (flat_map (fun y => (str "," ++ newline_indent i (S lvl))
                          ++ iterencode i (S lvl) y) ys
       ++ newline_indent i lvl ++ str "]" ++ rest)
    = Some (JArr (acc ++ ys), rest).
Proof.
  induction 1 as [|y ys Hy Hys IH]; intros acc rest n Hn.
  - destruct n as [|n']; [lia|]. cbn [flat_map app scan].
    rewrite skip_ws_indent. cbn. now rewrite app_nil_r.
  - destruct n as [|n']; [lia|]. cbn [flat_map length map] in *. change (list_sum (fuel_of y :: map fuel_of ys))
      with (fuel_of y + list_sum (map fuel_of ys))%nat in Hn.
    rewrite <- !app_assoc. cbn [scan].
    change (str "," ++ ?x) with (ord "," :: x).
    rewrite skip_ws_head by reflexivity.
    change (ord "," =? ord "]") with false. change (ord "," =? ord ",") with true.
    cbv iota. rewrite <- ?app_assoc, skip_ws_indent, skip_ws_encoded.
    rewrite Hy; [|lia|].
    + rewrite IH by lia. now rewrite <- app_assoc.
    + destruct ys as [|y2 ys']; reflexivity.
Qed.

Lemma dict_set_fresh (acc : list (list N * json)) (k : list N) (v : json) :
  k ∉ map fst acc -> dict_set acc k v = acc ++ [(k, v)].
Proof.
  induction acc as [|[k' v'] acc IH]; intros Hk; [reflexivity|].
  cbn [dict_set map fst] in *. apply not_elem_of_cons in Hk as [Hne Hk].
  destruct (decide (k' = k)); [congruence|]. cbn [app]. now rewrite IH.
Qed.

(** The loop over the members of an object, from the quote of a key on. *)
Lemma scan_object_key (i lvl : nat) (ms : list (list N * json)) :
  Forall (fun kv => forall lvl rest n, (fuel_of (snd kv) <= n)%nat ->
            value_end rest = true ->
            scan n MValue (iterencode i lvl (snd kv) ++ rest) = Some (snd kv, rest)) ms ->
  forall (k : list N) (v : json) (acc : list (list N * json)) (rest : list N) (n : nat),
    (forall lvl rest n, (fuel_of v <= n)%nat -> value_end rest = true ->
       scan n MValue (iterencode i lvl v ++ rest) = Some (v, rest)) ->
    str_wfb k = true ->
    Forall (fun kv => str_wfb (fst kv) = true) ms ->
    NoDup (map fst acc ++ k :: map fst ms) ->
    (2 + fuel_of v + 2 * length ms
     + list_sum (map (fun kv => fuel_of (snd kv)) ms) < n)%nat ->
    scan n (MObjectKey acc)
      ((encode_basestring_ascii k ++ str ": " ++ iterencode i (S lvl) v)
       ++ flat_map (fun kv => (str "," ++ newline_indent i (S lvl))
                      ++ encode_basestring_ascii (fst kv) ++ str ": "
                      ++ iterencode i (S lvl) (snd kv)) ms
       ++ newline_indent i lvl ++ str "}" ++ rest)
    = Some (JObj (acc ++ (k, v) :: ms), rest).
Proof.
  induction 1 as [|[k2 v2] ms Hv2 Hms IH]; intros k v acc rest n Hv Hk Hks Hnd Hn.
  - destruct n as [|n']; [cbn in Hn; lia|].
    unfold encode_basestring_ascii. cbn [flat_map app]. rewrite <- !app_assoc.
    cbn [app]. cbn [scan]. rewrite N.eqb_refl.
    rewrite (scanstring_escaped _ _ Hk).
    change (str ": " ++ ?x) with (ord ":" :: 32 :: x).
    rewrite skip_ws_head by reflexivity.
    change (ord ":" =? ord ":") with true. cbv iota.
    change (skip_ws (32 :: ?x)) with (skip_ws x). rewrite skip_ws_encoded.
    rewrite Hv; [|cbn in Hn; lia|reflexivity].
    destruct n' as [|n'']; [cbn in Hn; lia|].
    cbn [scan]. rewrite skip_ws_indent. cbn.
    rewrite dict_set_fresh; [reflexivity|].
    apply NoDup_app in Hnd as (_ & Hd & _).
    intros Hin. apply (Hd k Hin). now left.
  - destruct n as [|n']; [cbn in Hn; lia|].
    cbn [length map snd] in Hn.
    change (list_sum (fuel_of v2 :: ?l)) with (fuel_of v2 + list_sum l)%nat in Hn.
    unfold encode_basestring_ascii at 1. cbn [flat_map app fst snd].
    rewrite <- !app_assoc. cbn [app]. cbn [scan]. rewrite N.eqb_refl.
    rewrite (scanstring_escaped _ _ Hk).
    change (str ": " ++ ?x) with (ord ":" :: 32 :: x).
    rewrite skip_ws_head by reflexivity.
    change (ord ":" =? ord ":") with true. cbv iota.
    change (skip_ws (32 :: ?x)) with (skip_ws x). rewrite skip_ws_encoded.
    rewrite Hv; [|lia|reflexivity].
    destruct n' as [|n'']; [lia|].
    cbn [scan].
    change (str "," ++ ?x) with (ord "," :: x).
    rewrite skip_ws_head by reflexivity.
    change (ord "," =? ord "}") with false. change (ord "," =? ord ",") with true.
    cbv iota. rewrite skip_ws_indent.
    apply Forall_cons in Hks as [Hk2 Hks]. cbn [fst] in Hk2.
    assert (Hacc : dict_set acc k v = acc ++ [(k, v)]).
    { apply dict_set_fresh. apply NoDup_app in Hnd as (_ & Hd & _).
      intros Hin. apply (Hd k Hin). now left. }
    rewrite Hacc.
    assert (Hskip : forall x, skip_ws (encode_basestring_ascii k2 ++ x)
                              = encode_basestring_ascii k2 ++ x).
    { intros x. unfold encode_basestring_ascii. cbn [app].
      now apply skip_ws_head. }
    rewrite Hskip.
    specialize (IH k2 v2 (acc ++ [(k, v)]) rest n'' Hv2 Hk2 Hks).
    rewrite <- !app_assoc in IH. cbn [app] in IH. rewrite IH; [reflexivity| |lia].
    rewrite map_app, <- app_assoc. exact Hnd.
Qed.

(** Reading back what the encoder wrote gives the value, whatever the
    indentation and the nesting level, and leaves the text that follows. *)
Lemma scan_encoded (i : nat) (v : json) :
  json_wfb v = true ->
  forall (lvl : nat) (rest : list N) (n : nat),
    (fuel_of v <= n)%nat -> value_end rest = true ->
    scan n MValue (iterencode i lvl v ++ rest) = Some (v, rest).
Proof.
  induction v as [| b | z | f | s | l IH | m IH] using json_ind';
    intros Hwf lvl rest n Hn Hend.
  - destruct n as [|n']; [cbn in Hn; lia|]. reflexivity.
  - destruct n as [|n']; [cbn in Hn; lia|]. destruct b; reflexivity.
  - destruct n as [|n']; [cbn in Hn; lia|]. cbn [iterencode].
    destruct (match_number_int z rest (value_end_stops _ Hend)) as (lx & Hm & Hv).
    destruct (match_number_head _ _ _ Hm) as (c & tl & Heq & Hc).
    rewrite Heq in *. rewrite (scan_number_head n' c tl Hc), Hm, Hv. reflexivity.
  - destruct n as [|n']; [cbn in Hn; lia|]. cbn [iterencode].
    apply scan_float. now apply value_end_stops.
  - destruct n as [|n']; [cbn in Hn; lia|]. cbn [iterencode json_wfb] in *.
    unfold encode_basestring_ascii. cbn [app]. rewrite <- app_assoc. cbn [app].
    cbn [scan]. rewrite N.eqb_refl. now rewrite (scanstring_escaped _ _ Hwf).
  - destruct l as [|x xs].
    + destruct n as [|n']; [cbn in Hn; lia|]. reflexivity.
    + cbn [json_wfb forallb] in Hwf. apply andb_true_iff in Hwf as [Hx Hxs].
      apply Forall_cons in IH as [IHx IHxs].
      cbn [fuel_of length map] in Hn.
      change (list_sum (fuel_of x :: ?l)) with (fuel_of x + list_sum l)%nat in Hn.
      destruct n as [|n']; [lia|].
      change (iterencode i lvl (JArr (x :: xs)))
        with (str "[" ++ newline_indent i (S lvl)
              ++ join (str "," ++ newline_indent i (S lvl))
                   (map (iterencode i (S lvl)) (x :: xs))
              ++ newline_indent i lvl ++ str "]").
      cbn [map]. rewrite join_cons, flat_map_map. rewrite <- !app_assoc.
      change (str "[" ++ ?y) with (ord "[" :: y).
      assert (Hstart : forall tail,
        scan (S n') MValue
          (ord "[" :: newline_indent i (S lvl) ++ iterencode i (S lvl) x ++ tail)
        = match scan n' MValue (iterencode i (S lvl) x ++ tail) with
          | Some (v, r) => scan n' (MArrayRest [v]) r
          | None => None
          end).
      { intros tail. cbn [scan].
        change (ord "[" =? 34) with false. change (ord "[" =? ord "{") with false.
        change (ord "[" =? ord "[") with true. cbv iota.
        rewrite skip_ws_indent, skip_ws_encoded.
        destruct (iterencode_head i (S lvl) x) as (c & tl & Heq & _ & Hc & _).
        rewrite Heq. cbn [app]. rewrite Hc. reflexivity. }
      rewrite Hstart.
      rewrite (IHx Hx); [|lia|destruct xs; reflexivity].
      assert (Hall : Forall (fun y => forall lvl rest n, (fuel_of y <= n)%nat ->
                value_end rest = true ->
                scan n MValue (iterencode i lvl y ++ rest) = Some (y, rest)) xs).
      { apply Forall_forall. intros y Hy.
        rewrite Forall_forall in IHxs. apply IHxs; [exact Hy|].
        rewrite forallb_forall in Hxs. apply Hxs. now apply list_elem_of_In. }
      rewrite (scan_array_rest i lvl xs Hall [x] rest n') by lia. reflexivity.
  - destruct m as [|[k x] ms].
    + destruct n as [|n']; [cbn in Hn; lia|]. reflexivity.
    + cbn [json_wfb forallb map fst snd] in Hwf.
      apply andb_true_iff in Hwf as [Hnd Hwf].
      apply bool_decide_eq_true in Hnd.
      apply andb_true_iff in Hwf as [Hkx Hms].
      apply andb_true_iff in Hkx as [Hk Hx].
      apply Forall_cons in IH as [IHx IHms]. cbn [snd] in IHx.
      cbn [fuel_of length map snd] in Hn.
      change (list_sum (fuel_of x :: ?l)) with (fuel_of x + list_sum l)%nat in Hn.
      destruct n as [|n']; [lia|].
      change (iterencode i lvl (JObj ((k, x) :: ms)))
        with (str "{" ++ newline_indent i (S lvl)
              ++ join (str "," ++ newline_indent i (S lvl))
                   (map (fun kv => encode_basestring_ascii (fst kv) ++ str ": "
                                   ++ iterencode i (S lvl) (snd kv)) ((k, x) :: ms))
              ++ newline_indent i lvl ++ str "}").
      cbn [map fst snd]. rewrite join_cons, flat_map_map. rewrite <- !app_assoc.
      change (str "{" ++ ?y) with (ord "{" :: y). cbn [scan].
      change (ord "{" =? 34) with false. change (ord "{" =? ord "{") with true.
      cbv iota. rewrite skip_ws_indent.
      unfold encode_basestring_ascii at 1. cbn [app].
      rewrite skip_ws_head by reflexivity.
      change (34 =? ord "}") with false. cbv iota.
      assert (Hall : Forall (fun kv => forall lvl rest n,
                (fuel_of (snd kv) <= n)%nat -> value_end rest = true ->
                scan n MValue (iterencode i lvl (snd kv) ++ rest)
                = Some (snd kv, rest)) ms).
      { apply Forall_forall. intros kv Hkv.
        rewrite Forall_forall in IHms. apply IHms; [exact Hkv|].
        rewrite forallb_forall in Hms. apply list_elem_of_In in Hkv.
        apply Hms in Hkv. now apply andb_true_iff in Hkv as [_ ?]. }
      assert (Hkeys : Forall (fun kv => str_wfb (fst kv) = true) ms).
      { apply Forall_forall. intros kv Hkv.
        rewrite forallb_forall in Hms. apply list_elem_of_In in Hkv.
        apply Hms in Hkv. now apply andb_true_iff in Hkv as [? _]. }
      pose proof (scan_object_key i lvl ms Hall k x [] rest n' (IHx Hx) Hk Hkeys Hnd)
        as Hscan.
      etrans; [|apply Hscan; lia]. f_equal.
      unfold encode_basestring_ascii. flat_events. reflexivity.
Qed.

End ScanValues.

(** ** The round trip of [json.dumps] and [json.loads] *)

Lemma utf8_encode_ascii (s : list N) :
  Forall (fun c => is_ascii c = true) s -> utf8_encode s = Some s.
Proof.
  induction 1 as [|c s Hc Hs IH]; [reflexivity|].
  cbn [utf8_encode]. unfold utf8_encode_char. unfold is_ascii in Hc.
  change 0x80 with 128. rewrite Hc, IH. reflexivity.
Qed.

Lemma utf8_decode_ascii (s : list N) :
  Forall (fun c => is_ascii c = true) s -> utf8_decode s = Some s.
Proof.
  induction 1 as [|c s Hc Hs IH]; [reflexivity|].
  cbn [utf8_decode]. unfold is_ascii in Hc.
  change 0x80 with 128. rewrite Hc, IH. reflexivity.
Qed.

Lemma join_ascii (sp : list N) (parts : list (list N)) :
  Forall (fun c => is_ascii c = true) sp ->
  Forall (fun p => Forall (fun c => is_ascii c = true) p) parts ->
  Forall (fun c => is_ascii c = true) (join sp parts).
Proof.
  intros Hsp Hp. destruct parts as [|a l]; [constructor|].
  rewrite join_cons. apply Forall_cons in Hp as [Ha Hl].
  apply Forall_app. split; [exact Ha|].
  induction Hl as [|b l Hb Hl IH]; [constructor|].
  cbn [flat_map]. rewrite !Forall_app. auto.
Qed.

Lemma newline_indent_ascii (i l : nat) :
  Forall (fun c => is_ascii c = true) (newline_indent i l).
Proof.
  unfold newline_indent. constructor; [reflexivity|].
  apply Forall_forall. intros x Hx. apply list_elem_of_In, repeat_spec in Hx.
  now subst.
Qed.

Lemma encode_basestring_ascii_ascii (s : list N) :
  Forall (fun c => is_ascii c = true) (encode_basestring_ascii s).
Proof.
  unfold encode_basestring_ascii. constructor; [reflexivity|].
  apply Forall_app. split; [|repeat constructor].
  induction s as [|c s IH]; [constructor|].
  cbn [flat_map]. apply Forall_app. split; [apply escape_char_ascii|exact IH].
Qed.

Lemma int_repr_ascii (z : Z) : Forall (fun c => is_ascii c = true) (int_repr z).
Proof.
  unfold int_repr. destruct z.
  - apply digits_ascii, nat_repr_digits.
  - apply digits_ascii, nat_repr_digits.
  - constructor; [reflexivity|apply digits_ascii, nat_repr_digits].
Qed.

Section RoundTrip.
Context {FM : FloatModel} {FL : FloatLaws FM}.

Lemma floatstr_ascii (f : pyfloat) : Forall (fun c => is_ascii c = true) (floatstr f).
Proof.
  pose proof (floatstr_lexeme f) as Hl.
  destruct (float_lexeme_cases _ Hl) as [H|[H|[H|(l & Hm & _)]]];
    try (rewrite H; repeat constructor; fail).
  destruct (match_number_split _ _ _ Hm) as (-> & Ha & _).
  now rewrite app_nil_r.
Qed.

(** What [json.dump] writes is plain ASCII ([ensure_ascii]). *)
Lemma iterencode_ascii (i : nat) (v : json) : forall lvl,
  Forall (fun c => is_ascii c = true) (iterencode i lvl v).
Proof.
  induction v as [| b | z | f | s | l IH | m IH] using json_ind'; intros lvl.
  - repeat constructor.
  - destruct b; repeat constructor.
  - apply int_repr_ascii.
  - apply floatstr_ascii.
  - apply encode_basestring_ascii_ascii.
  - destruct l as [|x xs]; [repeat constructor|].
    change (iterencode i lvl (JArr (x :: xs)))
      with (str "[" ++ newline_indent i (S lvl)
            ++ join (str "," ++ newline_indent i (S lvl))
                 (map (iterencode i (S lvl)) (x :: xs))
            ++ newline_indent i lvl ++ str "]").
    rewrite !Forall_app. repeat split; try apply newline_indent_ascii;
      try (repeat constructor; fail).
    apply join_ascii.
    + apply Forall_app. split; [repeat constructor|apply newline_indent_ascii].
    + apply Forall_map. eapply Forall_impl; [exact IH|]. intros y Hy. apply Hy.
  - destruct m as [|kv ms]; [repeat constructor|].
    change (iterencode i lvl (JObj (kv :: ms)))
      with (str "{" ++ newline_indent i (S lvl)
            ++ join (str "," ++ newline_indent i (S lvl))
                 (map (fun kv => encode_basestring_ascii (fst kv) ++ str ": "
                                 ++ iterencode i (S lvl) (snd kv)) (kv :: ms))
            ++ newline_indent i lvl ++ str "}").
    rewrite !Forall_app. repeat split; try apply newline_indent_ascii;
      try (repeat constructor; fail).
    apply join_ascii.
    + apply Forall_app. split; [repeat constructor|apply newline_indent_ascii].
    + apply Forall_map. eapply Forall_impl; [exact IH|]. intros y Hy.
      rewrite !Forall_app. repeat split;
        [apply encode_basestring_ascii_ascii|repeat constructor|apply Hy].
Qed.

Lemma flat_map_length_bound {A} (f : A -> list N) (g : A -> nat) (c : nat)
  (l : list A) :
  Forall (fun x => (c + g x <= length (f x))%nat) l ->
  (c * length l + list_sum (map g l) <= length (flat_map f l))%nat.
Proof.
  induction 1 as [|x l Hx Hl IH]; [cbn; lia|].
  cbn [flat_map length map]. rewrite length_app.
  change (list_sum (g x :: ?t)) with (g x + list_sum t)%nat. lia.
Qed.

(** The fuel that reading a text back needs is within the length of the
    text. *)
Lemma fuel_of_bound (i : nat) (v : json) : forall lvl,
  (fuel_of v <= length (iterencode i lvl v))%nat.
Proof.
  induction v as [| b | z | f | s | l IH | m IH] using json_ind'; intros lvl.
  1-5: match goal with
       | |- context [iterencode ?j ?l ?v] =>
           destruct (iterencode_head j l v) as (c & tl & Heq & _); rewrite Heq
       end; cbn [fuel_of length]; lia.
  - destruct l as [|x xs]; [cbn; lia|].
    change (iterencode i lvl (JArr (x :: xs)))
      with (str "[" ++ newline_indent i (S lvl)
            ++ join (str "," ++ newline_indent i (S lvl))
                 (map (iterencode i (S lvl)) (x :: xs))
            ++ newline_indent i lvl ++ str "]").
    cbn [map]. rewrite join_cons, flat_map_map.
    apply Forall_cons in IH as [IHx IHxs].
    assert (Hb : (2 * length xs + list_sum (map fuel_of xs)
                  <= length (flat_map (fun y => (str "," ++ newline_indent i (S lvl))
                                                 ++ iterencode i (S lvl) y) xs))%nat).
    { apply flat_map_length_bound. eapply Forall_impl; [exact IHxs|].
      intros y Hy. cbn beta. rewrite length_app.
      specialize (Hy (S lvl)). unfold newline_indent. cbn [length app str].
      cbn. lia. }
    rewrite !length_app. specialize (IHx (S lvl)).
    cbn [fuel_of length map].
    change (list_sum (fuel_of x :: ?t)) with (fuel_of x + list_sum t)%nat.
    change (length (str "[")) with 1%nat. change (length (str "]")) with 1%nat.
    assert (Hnl : forall l, (1 <= length (newline_indent i l))%nat)
      by (intros l; cbn; lia).
    pose proof (Hnl lvl). pose proof (Hnl (S lvl)). lia.
  - destruct m as [|[k x] ms]; [cbn; lia|].
    change (iterencode i lvl (JObj ((k, x) :: ms)))
      with (str "{" ++ newline_indent i (S lvl)
            ++ join (str "," ++ newline_indent i (S lvl))
                 (map (fun kv => encode_basestring_ascii (fst kv) ++ str ": "
                                 ++ iterencode i (S lvl) (snd kv)) ((k, x) :: ms))
            ++ newline_indent i lvl ++ str "}").
    cbn [map fst snd]. rewrite join_cons, flat_map_map.
    apply Forall_cons in IH as [IHx IHms]. cbn [snd] in IHx.
    assert (Hb : (2 * length ms + list_sum (map (fun kv => fuel_of (snd kv)) ms)
                  <= length (flat_map
                       (fun kv => (str "," ++ newline_indent i (S lvl))
                                  ++ encode_basestring_ascii (fst kv) ++ str ": "
                                  ++ iterencode i (S lvl) (snd kv)) ms))%nat).
    { apply flat_map_length_bound. eapply Forall_impl; [exact IHms|].
      intros y Hy. cbn beta. rewrite !length_app.
      specialize (Hy (S lvl)). unfold newline_indent. cbn [length app str].
      cbn. lia. }
    rewrite !length_app. specialize (IHx (S lvl)).
    cbn [fuel_of length map snd].
    change (list_sum (fuel_of x :: ?t)) with (fuel_of x + list_sum t)%nat.
    change (length (str "{")) with 1%nat. change (length (str "}")) with 1%nat.
    assert (Hnl : forall l, (1 <= length (newline_indent i l))%nat)
      by (intros l; cbn; lia).
    pose proof (Hnl lvl). pose proof (Hnl (S lvl)). lia.
Qed.

(** The round trip of the codec: a well-formed value, dumped with
    [indent=4] and loaded back, is the same value. *)
Lemma json_loads_dumps (v : json) :
  json_wfb v = true -> json_loads (json_dumps v) = Some v.
Proof.
  intros Hwf. unfold json_loads, json_dumps.
  pose proof (skip_ws_encoded 4 0 v []) as Hs. rewrite app_nil_r in Hs.
  rewrite Hs. pose proof (fuel_of_bound 4 v 0%nat) as Hb.
  pose proof (scan_encoded 4 v Hwf 0%nat [] (2 * length (iterencode 4 0 v) + 2))
    as Hscan.
  rewrite app_nil_r in Hscan. rewrite Hscan; [reflexivity|lia|reflexivity].
Qed.

End RoundTrip.

Section MetadataFidelity.
Context {FM : FloatModel} {FL : FloatLaws FM}.

(** C5. Metadata fidelity round trip: after a successful fresh download the
    metadata file [save_dir/{YYYYMMDD}_metadata.json] holds exactly the text
    of [json.dumps(record, indent=4)], whatever the file held before, and
    that content, decoded and parsed back, is the record that
    [get_image_url] returned. *)
Theorem metadata_round_trip (E : env) (self : BingImageDownloader)
  (f f1 : filesystem) (url : list N) (data : json) (ev0 evs : list event)
  (filename p : list N) :
  get_image_url E self f = (Ok (url, data), f, ev0) ->
  image_filename E data = Ok filename ->
  lookup_path f (path_join (save_dir self) filename) = None ->
  json_wfb data = true ->
  download_image E self f = (Ok p, f1, evs) ->
  f1 !! resolve (metadata_path E self) = Some (File (json_dumps data))
  /\ match utf8_decode (json_dumps data) with
     | Some t => json_loads t
     | None => None
     end = Some data.
Proof.
  intros Hg Hn Hp Hwf Hd.
  rewrite download_image_unfold, Hg, Hn in Hd. cbv zeta in Hd.
  rewrite Hp in Hd.
  rewrite bool_decide_eq_false_2 in Hd by (intros [? ?]; discriminate).
  destruct (http E url) as [t|r]; [discriminate|].
  destruct (is_error_status _); [discriminate|].
  destruct (save_image E _ r f) as [[[[]|e] fa] ev1] eqn:Hi; [|discriminate].
  destruct (save_metadata E self data fa) as [[[[]|e] fb] ev2] eqn:Hm;
    [|discriminate].
  injection Hd as <- <- _.
  apply save_metadata_ok in Hm as (b & Hb & Hfile).
  pose proof (iterencode_ascii 4 data 0%nat) as Hascii.
  fold (json_dumps data) in Hascii.
  rewrite (utf8_encode_ascii _ Hascii) in Hb. injection Hb as <-.
  split; [exact Hfile|].
  rewrite (utf8_decode_ascii _ Hascii). now apply json_loads_dumps.
Qed.

End MetadataFidelity.

(** ** The theorems on concrete worlds *)

Lemma one_float_laws : FloatLaws one_float.
Proof.
  split.
  - intros []. vm_compute. reflexivity.
  - intros []. reflexivity.
Qed.

(** An equation between closed terms, by evaluation of its left side. *)
Ltac by_evaluation :=
  lazymatch goal with
  | |- @eq ?A _ ?b => vm_cast_no_check (@eq_refl A b)
  end.

(** *** Evaluations shared by the concrete statements *)

Lemma fine_fetch :
  get_image_url (FM := one_float) fine_world sample_downloader dir_fs
  = (Ok (sample_image_url, sample_record), dir_fs,
     [EvRequest (bing_api_url sample_downloader) false]).
Proof. by_evaluation. Qed.

Lemma fine_filename :
  image_filename (FM := one_float) fine_world sample_record
  = Ok (str "20240115_Mountain_View.jpg").
Proof. by_evaluation. Qed.

Lemma fresh_path :
  lookup_path dir_fs
    (path_join (save_dir sample_downloader) (str "20240115_Mountain_View.jpg"))
  = None.
Proof. by_evaluation. Qed.

Lemma fine_run_ok :
  download_image (FM := one_float) fine_world sample_downloader dir_fs
  = (Ok (path_join (save_dir sample_downloader) (str "20240115_Mountain_View.jpg")),
     snd (fst fine_run), snd fine_run).
Proof. by_evaluation. Qed.

Lemma sample_record_wf : json_wfb (FM := one_float) sample_record = true.
Proof. by_evaluation. Qed.

(** The normal day, twice: the first call downloads, the second finds the
    file. *)
Lemma download_image_idempotent_witness :
  path_join (save_dir sample_downloader) (str "20240115_Mountain_View.jpg")
  = path_join (save_dir sample_downloader) (str "20240115_Mountain_View.jpg")
  /\ download_image (FM := one_float) fine_world sample_downloader (snd (fst fine_run))
     = (Ok (path_join (save_dir sample_downloader) (str "20240115_Mountain_View.jpg")),
        snd (fst fine_run),
        [EvRequest (bing_api_url sample_downloader) false;
         EvLog (ImageAlreadyExists
                  (path_join (save_dir sample_downloader)
                     (str "20240115_Mountain_View.jpg")))]).
Proof.
  exact (proj2 (download_image_idempotent (FM := one_float) fine_world
                  sample_downloader dir_fs _ _ _ _ fine_fetch fine_filename)
           _ _ _ fine_run_ok).
Defined.

(** An empty [images] array: [IndexError], nothing written. *)
Lemma empty_images_body :
  match json_loads (FM := one_float) (text empty_images_response) with
  | None => True
  | Some data => images_absent_or_empty data = true
  end.
Proof. vm_cast_no_check (@eq_refl bool true). Qed.

Lemma malformed_response_raises_witness :
  spec_error_of IndexError = MalformedResponseError
  /\ get_image_url (FM := one_float) empty_images_world sample_downloader dir_fs
     = (Raise IndexError, dir_fs, [EvRequest (bing_api_url sample_downloader) false])
  /\ download_image (FM := one_float) empty_images_world sample_downloader dir_fs
     = (Raise IndexError, dir_fs,
        [EvRequest (bing_api_url sample_downloader) false;
         EvLog (ErrorDownloading IndexError)])
  /\ Forall (fun ev => is_fs_write ev = false)
       [EvRequest (bing_api_url sample_downloader) false;
        EvLog (ErrorDownloading IndexError)].
Proof.
  exact (malformed_response_raises (FM := one_float) empty_images_world
           sample_downloader dir_fs empty_images_response
           eq_refl eq_refl eq_refl empty_images_body).
Defined.

(** A 503 from the metadata endpoint, a 404 from the image endpoint. *)
Lemma not_found_fetch :
  get_image_url (FM := one_float) not_found_world sample_downloader dir_fs
  = (Ok (sample_image_url, sample_record), dir_fs,
     [EvRequest (bing_api_url sample_downloader) false]).
Proof. by_evaluation. Qed.

Lemma http_error_leaves_directory_unchanged_witness :
  (exists e,
     spec_error_of e = NetworkError
     /\ (false = false -> e = HTTPError 503)
     /\ get_image_url (FM := one_float) unavailable_world sample_downloader dir_fs
        = (Raise e, dir_fs,
           [EvRequest (bing_api_url sample_downloader) false; EvLog (ErrorFetching e)])
     /\ download_image (FM := one_float) unavailable_world sample_downloader dir_fs
        = (Raise e, dir_fs,
           [EvRequest (bing_api_url sample_downloader) false; EvLog (ErrorFetching e);
            EvLog (ErrorDownloading e)]))
  /\ spec_error_of (HTTPError 404) = NetworkError
  /\ download_image (FM := one_float) not_found_world sample_downloader dir_fs
     = (Raise (HTTPError 404), dir_fs,
        [EvRequest (bing_api_url sample_downloader) false;
         EvRequest sample_image_url true;
         EvLog (ErrorDownloading (HTTPError 404))]).
Proof.
  split.
  - exact (proj1 (http_error_leaves_directory_unchanged (FM := one_float)
                    unavailable_world sample_downloader dir_fs)
             {| status_code := 503; text := []; raw := []; truncated := false |}
             eq_refl eq_refl).
  - exact (proj2 (http_error_leaves_directory_unchanged (FM := one_float)
                    not_found_world sample_downloader dir_fs)
             sample_image_url sample_record _ _
             {| status_code := 404; text := []; raw := []; truncated := false |}
             not_found_fetch fine_filename fresh_path eq_refl eq_refl).
Defined.

(** A status that is not 2xx and not an error for [raise_for_status]: 304
    from the image endpoint. The download goes through, an empty image file
    and the metadata file are written. *)
Lemma not_modified_fetch :
  get_image_url (FM := one_float) not_modified_world sample_downloader dir_fs
  = (Ok (sample_image_url, sample_record), dir_fs,
     [EvRequest (bing_api_url sample_downloader) false]).
Proof. by_evaluation. Qed.

Lemma not_modified_is_downloaded :
  non_2xx 304 = true
  /\ fst (fst not_modified_run) = Ok sample_path
  /\ snd (fst not_modified_run) !! resolve sample_path = Some (File [])
  /\ dir_fs !! resolve sample_path = None.
Proof. repeat split; by_evaluation. Qed.

Lemma non_2xx_is_network_error_fails :
  ~ non_2xx_is_network_error (FM := one_float).
Proof.
  intros H.
  destruct (H not_modified_world sample_downloader dir_fs sample_image_url
              sample_record _ _
              {| status_code := 304; text := []; raw := []; truncated := false |}
              not_modified_fetch fine_filename fresh_path eq_refl eq_refl)
    as (e & evs & Hd & _).
  destruct not_modified_is_downloaded as (_ & Hok & _).
  unfold not_modified_run in Hok. rewrite Hd in Hok. discriminate.
Qed.

(** The normal day, once: the metadata file holds the dumped record, which
    parses back to the record. *)
Lemma metadata_round_trip_witness :
  snd (fst fine_run) !! resolve (metadata_path fine_world sample_downloader)
  = Some (File (json_dumps (FM := one_float) sample_record))
  /\ match utf8_decode (json_dumps (FM := one_float) sample_record) with
     | Some t => json_loads (FM := one_float) t
     | None => None
     end = Some sample_record.
Proof.
  exact (metadata_round_trip (FM := one_float) (FL := one_float_laws) fine_world
           sample_downloader dir_fs _ _ _ _ _ _ _
           fine_fetch fine_filename fresh_path sample_record_wf fine_run_ok).
Defined.

(** The OS refuses the metadata file: the error comes out, the image
    stays. *)
Lemma read_only_fetch :
  get_image_url (FM := one_float) read_only_metadata_world sample_downloader dir_fs
  = (Ok (sample_image_url, sample_record), dir_fs,
     [EvRequest (bing_api_url sample_downloader) false]).
Proof. by_evaluation. Qed.

Lemma read_only_save_image :
  save_image read_only_metadata_world
    (path_join (save_dir sample_downloader) (str "20240115_Mountain_View.jpg"))
    {| status_code := 200; text := []; raw := sample_image; truncated := false |}
    dir_fs
  = (Ok tt, snd (fst read_only_metadata_run),
     [EvOpenWrite sample_path; EvWrite sample_path [255; 216; 255];
      EvWrite sample_path [224; 0]]).
Proof. by_evaluation. Qed.

Lemma read_only_save_metadata :
  save_metadata (FM := one_float) read_only_metadata_world sample_downloader
    sample_record (snd (fst read_only_metadata_run))
  = (Raise (OSError EACCES (str "bing_images/20240115_metadata.json")),
     snd (fst read_only_metadata_run),
     [EvOpenWrite (str "bing_images/20240115_metadata.json")]).
Proof. by_evaluation. Qed.

Lemma metadata_failure_keeps_image_witness :
  download_image (FM := one_float) read_only_metadata_world sample_downloader dir_fs
  = (Raise (OSError EACCES (str "bing_images/20240115_metadata.json")),
     snd (fst read_only_metadata_run),
     [EvRequest (bing_api_url sample_downloader) false]
     ++ EvRequest sample_image_url true
     :: [EvOpenWrite sample_path; EvWrite sample_path [255; 216; 255];
         EvWrite sample_path [224; 0]]
     ++ EvLog (SuccessfullyDownloaded
                 (path_join (save_dir sample_downloader)
                    (str "20240115_Mountain_View.jpg")))
     :: [EvOpenWrite (str "bing_images/20240115_metadata.json")]
     ++ [EvLog (ErrorDownloading
                  (OSError EACCES (str "bing_images/20240115_metadata.json")))])
  /\ snd (fst read_only_metadata_run)
       !! resolve (path_join (save_dir sample_downloader)
                     (str "20240115_Mountain_View.jpg"))
     = Some (File (concat sample_image)).
Proof.
  destruct (metadata_failure_keeps_image (FM := one_float) read_only_metadata_world
              sample_downloader dir_fs _ _ _ _ _ _ _ _
              {| status_code := 200; text := []; raw := sample_image;
                 truncated := false |} _
              read_only_fetch fine_filename fresh_path eq_refl eq_refl
              read_only_save_image read_only_save_metadata) as (Hd & _ & Hk & _).
  exact (conj Hd Hk).
Defined.

(** The image of the normal day arrives in three pieces, one of them
    empty; the file holds the five bytes. *)
Lemma chunked_write_complete_witness :
  snd (fst fine_run)
    !! resolve (path_join (save_dir sample_downloader)
                  (str "20240115_Mountain_View.jpg"))
  = Some (File [255; 216; 255; 224; 0])
  /\ length [255; 216; 255; 224; 0] = list_sum (map length sample_image).
Proof.
  destruct (chunked_write_complete (FM := one_float) fine_world sample_downloader
              dir_fs _ _ _ _ _ _ _
              {| status_code := 200; text := []; raw := sample_image;
                 truncated := false |} [255; 216; 255; 224; 0]
              fine_fetch fine_filename fresh_path eq_refl eq_refl fine_run_ok)
    as (_ & Hk & _ & _ & _ & Hlen).
  exact (conj Hk Hlen).
Defined.

(** The default save directory on an empty file system. *)
Lemma default_dir_creatable : creatable fine_world empty_fs (str "bing_images").
Proof.
  split; [discriminate|]. split; [vm_compute; discriminate|].
  intros n Hn. assert (n = 1%nat) as -> by (vm_compute in Hn; lia).
  vm_compute. reflexivity.
Qed.

Lemma init_creates_save_dir_witness :
  exists f' : filesystem,
    init fine_world (str "bing_images") empty_fs
    = (Ok {| save_dir := str "bing_images";
             bing_api_url :=
               str "https://www.bing.com/HPImageArchive.aspx?format=js&idx=0&n=1";
             bing_base_url := str "https://www.bing.com" |}, f',
       [EvMakedirs (str "bing_images"); EvLog (CreatedDirectory (str "bing_images"))])
    /\ lookup_path f' (str "bing_images") = Some Dir /\ empty_fs ⊆ f'.
Proof.
  exact (proj1 (init_creates_save_dir (FM := one_float) fine_world
                  (str "bing_images") empty_fs)
           eq_refl default_dir_creatable).
Defined.

(** "Mountain View" on 15 January 2024. *)
Lemma filename_derivation_witness :
  image_filename (FM := one_float) fine_world sample_record
  = Ok (str "20240115_Mountain_View.jpg").
Proof.
  exact (proj2 (proj2 (filename_derivation (FM := one_float) fine_world
           [(str "url", JStr (str "/th?id=OHR.Peak.jpg"));
            (str "title", JStr (str "Mountain View"));
            (str "drk", JInt 1)])) eq_refl eq_refl).
Defined.

(** The title "Sea/Shore": the path goes through a directory
    [bing_images/20240115_Sea]. *)
Lemma separator_in_title : sep ∈ str "Sea/Shore".
Proof. vm_compute. set_solver. Qed.

Lemma title_separator_reaches_path_witness :
  image_filename (FM := one_float) slash_world
    (JObj [(str "title", JStr (str "Sea/Shore"))])
  = Ok (date_str slash_world ++ str "_"
        ++ replace (str " ") (str "_") (str "Sea/Shore") ++ str ".jpg")
  /\ parent_key (resolve (path_join (save_dir sample_downloader)
                            (date_str slash_world ++ str "_"
                             ++ replace (str " ") (str "_") (str "Sea/Shore")
                             ++ str ".jpg")))
     <> resolve (save_dir sample_downloader).
Proof.
  destruct (title_separator_reaches_path (FM := one_float) slash_world
              sample_downloader [(str "title", JStr (str "Sea/Shore"))]
              (str "Sea/Shore") eq_refl) as (_ & _ & Hname & Hsub).
  exact (conj Hname (proj2 (Hsub separator_in_title _ Hname))).
Defined.
Section FetchExtras.
Context {FM : FloatModel}.

Lemma seq_index_first {A} (l : list A) (x : A) :
  seq_index l 0 = Some x -> exists rest, l = x :: rest.
Proof.
  unfold seq_index. cbn. destruct l as [|y l]; [discriminate|].
  intros [= ->]. eauto.
Qed.

Lemma extract_ok (self : BingImageDownloader) (data : json) (url : list N)
  (image_data : json) :
  extract self data = Ok (url, image_data) ->
  exists d rest m u,
    data = JObj d
    /\ dict_lookup d (str "images") = Some (JArr (image_data :: rest))
    /\ image_data = JObj m
    /\ dict_lookup m (str "url") = Some (JStr u)
    /\ url = bing_base_url self ++ u.
Proof.
  unfold extract.
  destruct (getitem data _) as [images|e1] eqn:H1; [|discriminate].
  destruct (getitem images _) as [x|e2] eqn:H2; [|discriminate].
  destruct (getitem x _) as [v|e3] eqn:H3; [|discriminate].
  destruct (str_add _ v) as [image_url|e4] eqn:H4; [|discriminate].
  intros [= <- <-].
  destruct x; try discriminate. cbn [getitem] in H3.
  destruct (dict_lookup members (str "url")) as [v'|] eqn:Hu; [|discriminate].
  injection H3 as ->. destruct v; try discriminate. injection H4 as <-.
  destruct images; try discriminate.
  - cbn [getitem] in H2. case_match; discriminate.
  - cbn [getitem] in H2. destruct (seq_index items 0) as [y|] eqn:Hi; [|discriminate].
    injection H2 as ->. apply seq_index_first in Hi as [rest ->].
    destruct data; try discriminate. cbn [getitem] in H1.
    destruct (dict_lookup members0 (str "images")) as [w|] eqn:Hw; [|discriminate].
    injection H1 as ->. eauto 10.
Qed.

(** X1. [get_image_url] leaves the file system as it was and does not read
    it: from any two file systems it gives the same value and the same
    events; its first event is the request to the metadata endpoint, the
    only request it makes, and it opens and writes nothing. *)
Theorem get_image_url_leaves_filesystem (E : env) (self : BingImageDownloader)
  (f g : filesystem) :
  snd (fst (get_image_url E self f)) = f
  /\ fst (fst (get_image_url E self g)) = fst (fst (get_image_url E self f))
  /\ snd (get_image_url E self g) = snd (get_image_url E self f)
  /\ (exists rest,
        snd (get_image_url E self f) = EvRequest (bing_api_url self) false :: rest
        /\ Forall (fun ev => is_request ev = false) rest)
  /\ Forall (fun ev => is_fs_write ev = false) (snd (get_image_url E self f)).
Proof.
  rewrite !get_image_url_unfold. cbv zeta.
  destruct (http E (bing_api_url self)) as [t|r].
  { cbn. repeat split; eauto 10. }
  destruct (truncated r); [cbn; repeat split; eauto 10|].
  destruct (is_error_status _); [cbn; repeat split; eauto 10|].
  destruct (json_loads _); [|cbn; repeat split; eauto 10].
  destruct (extract self j); cbn; repeat split; eauto 10.
Qed.

(** X2. What [get_image_url] returns: the metadata endpoint answered with a
    status that is no error and a body that parses to an object whose
    [images] member is an array; the record returned is the first element of
    that array, whatever follows it, it is an object with a string [url],
    and the image URL is the base URL followed by that string. *)
Theorem get_image_url_returns_first_image (E : env) (self : BingImageDownloader)
  (f f' : filesystem) (url : list N) (data : json) (evs : list event) :
  get_image_url E self f = (Ok (url, data), f', evs) ->
  exists (r : response) (d : list (list N * json)) (rest : list json)
         (m : list (list N * json)) (u : list N),
    http E (bing_api_url self) = Responded r
    /\ is_error_status (status_code r) = false
    /\ json_loads (text r) = Some (JObj d)
    /\ dict_lookup d (str "images") = Some (JArr (data :: rest))
    /\ data = JObj m
    /\ dict_lookup m (str "url") = Some (JStr u)
    /\ url = bing_base_url self ++ u.
Proof.
  rewrite get_image_url_unfold. cbv zeta.
  destruct (http E (bing_api_url self)) as [t|r]; [discriminate|].
  destruct (truncated r); [discriminate|].
  destruct (is_error_status _) eqn:Hs; [discriminate|].
  destruct (json_loads _) as [v|] eqn:Hl; [|discriminate].
  destruct (extract self v) as [[u0 d0]|e] eqn:Hx; [|discriminate].
  intros [= -> -> _ _].
  apply extract_ok in Hx as (d & rest & m & u & -> & Hi & -> & Hu & ->).
  exists r, d, rest, m, u. auto 10.
Qed.

(** X3. A request to the metadata endpoint that gets no response (no
    connection, a timeout, too many redirects): [get_image_url] logs the
    error and raises it again, [download_image] logs it a second time and
    raises it again; no other request is made and the file system is as it
    was. *)
Theorem connection_failure_is_logged_twice (E : env) (self : BingImageDownloader)
  (f : filesystem) (t : transport_error) :
  http E (bing_api_url self) = Failed t ->
  get_image_url E self f =
    (Raise (RequestFailed t), f,
     [EvRequest (bing_api_url self) false; EvLog (ErrorFetching (RequestFailed t))])
  /\ download_image E self f =
       (Raise (RequestFailed t), f,
        [EvRequest (bing_api_url self) false; EvLog (ErrorFetching (RequestFailed t));
         EvLog (ErrorDownloading (RequestFailed t))])
  /\ spec_error_of (RequestFailed t) = NetworkError.
Proof.
  intros Hh.
  assert (Hg : get_image_url E self f =
    (Raise (RequestFailed t), f,
     [EvRequest (bing_api_url self) false; EvLog (ErrorFetching (RequestFailed t))])).
  { rewrite get_image_url_unfold. cbv zeta. rewrite Hh. reflexivity. }
  split; [exact Hg|]. split; [|reflexivity].
  rewrite download_image_unfold, Hg. reflexivity.
Qed.

(** X4. A request for the image that gets no response: [download_image]
    logs the error once and raises it; no file is opened and the file system
    is as it was. *)
Theorem image_request_failure_writes_nothing (E : env) (self : BingImageDownloader)
  (f : filesystem) (url : list N) (data : json) (ev0 : list event)
  (filename : list N) (t : transport_error) :
  get_image_url E self f = (Ok (url, data), f, ev0) ->
  image_filename E data = Ok filename ->
  lookup_path f (path_join (save_dir self) filename) = None ->
  http E url = Failed t ->
  download_image E self f =
    (Raise (RequestFailed t), f,
     [EvRequest (bing_api_url self) false; EvRequest url true;
      EvLog (ErrorDownloading (RequestFailed t))]).
Proof.
  intros Hg Hn Hp Hh. rewrite download_image_unfold.
  rewrite (get_image_url_ok_events _ _ _ _ _ _ Hg) in Hg.
  rewrite Hg, Hn. cbv zeta. rewrite Hp, Hh.
  rewrite bool_decide_eq_false_2 by (intros [? ?]; discriminate).
  reflexivity.
Qed.


End FetchExtras.
(** ** Runs of the write steps when the OS lets them through *)

Lemma file_write_run (E : env) (p d : list N) (f : filesystem) (old : list N) :
  f !! resolve p = Some (File old) ->
  write_limit E (resolve p) = None ->
  file_write E p d f = (Ok tt, <[resolve p := File (old ++ d)]> f, [EvWrite p d]).
Proof.
  intros Hf Hl. unfold file_write. mstep. rewrite Hf, Hl.
  rewrite bool_decide_eq_true_2 by lia. reflexivity.
Qed.

Lemma write_chunks_run (E : env) (p : list N) (chunks : list (list N)) :
  forall (f : filesystem) (old : list N),
    f !! resolve p = Some (File old) ->
    write_limit E (resolve p) = None ->
    write_chunks E p chunks f
    = (Ok tt, <[resolve p := File (old ++ concat chunks)]> f, chunk_writes p chunks).
Proof.
  induction chunks as [|c rest IH]; intros f old Hf Hl.
  - cbn. rewrite app_nil_r, insert_id by exact Hf. reflexivity.
  - cbn [write_chunks]. rewrite bind_run. destruct c as [|b c'].
    + mstep. rewrite (IH f old Hf Hl). reflexivity.
    + rewrite (file_write_run E p (b :: c') f old Hf Hl).
      rewrite (IH _ (old ++ b :: c') (lookup_insert_eq _ _ _) Hl).
      rewrite insert_insert_eq. cbn [concat]. rewrite <- app_assoc. reflexivity.
Qed.

Lemma open_write_run (E : env) (p : list N) (f : filesystem) :
  p <> [] ->
  denied E (resolve p) = false ->
  lookup_path f p <> Some Dir ->
  is_dir_key f (parent_key (resolve p)) = true ->
  open_write E p f = (Ok tt, <[resolve p := File []]> f, [EvOpenWrite p]).
Proof.
  intros Hp Hd Hl Hk. unfold open_write. mstep.
  destruct p as [|c p']; [congruence|]. rewrite Hd, Hk.
  destruct (lookup_path f (c :: p')) as [[|]|]; try reflexivity. congruence.
Qed.

Lemma save_image_run (E : env) (p : list N) (r : response) (f : filesystem) :
  p <> [] ->
  denied E (resolve p) = false ->
  lookup_path f p <> Some Dir ->
  is_dir_key f (parent_key (resolve p)) = true ->
  write_limit E (resolve p) = None ->
  save_image E p r f
  = ((if truncated r then Raise ChunkedEncodingError else Ok tt),
     <[resolve p := File (concat (raw r))]> f,
     EvOpenWrite p :: chunk_writes p (fst (iter_content (N.to_nat 8192) r))).
Proof.
  intros Hp Hd Hl Hk Hw. unfold save_image. rewrite bind_run.
  rewrite (open_write_run E p f Hp Hd Hl Hk). rewrite bind_run.
  rewrite (write_chunks_run E p _ _ [] (lookup_insert_eq _ _ _) Hw).
  rewrite insert_insert_eq. cbn [app]. rewrite iter_content_concat.
  unfold iter_content at 1. cbn [snd]. destruct (truncated r); mstep;
    rewrite app_nil_r; reflexivity.
Qed.

(** The events of the write steps are file operations. *)
Lemma file_write_events (E : env) (p d : list N) (f : filesystem) (r : result unit)
  (f' : filesystem) (evs : list event) :
  file_write E p d f = (r, f', evs) -> Forall (fun ev => is_fs_write ev = true) evs.
Proof.
  unfold file_write. mstep. destruct (f !! resolve p) as [[old|]|].
  2,3: intros [= <- <- <-]; constructor.
  case_bool_decide; cbn; intros [= <- <- <-]; repeat constructor.
Qed.

Lemma write_chunks_events (E : env) (p : list N) (chunks : list (list N)) :
  forall (f : filesystem) (r : result unit) (f' : filesystem) (evs : list event),
    write_chunks E p chunks f = (r, f', evs) ->
    Forall (fun ev => is_fs_write ev = true) evs.
Proof.
  induction chunks as [|c rest IH]; intros f r f' evs H.
  - cbn in H. injection H as <- <- <-. constructor.
  - cbn [write_chunks] in H. rewrite bind_run in H.
    destruct (match c with [] => mret tt | _ => file_write E p c end f)
      as [[[[]|e] f1] ev1] eqn:Hc.
    + destruct (write_chunks E p rest f1) as [[r2 f2] ev2] eqn:Hr.
      injection H as <- <- <-. apply Forall_app. split; [|eauto].
      destruct c; [injection Hc as <- <-; constructor|eauto using file_write_events].
    + injection H as <- <- <-.
      destruct c; [discriminate|eauto using file_write_events].
Qed.

Lemma open_write_events (E : env) (p : list N) (f : filesystem) (r : result unit)
  (f' : filesystem) (evs : list event) :
  open_write E p f = (r, f', evs) -> evs = [EvOpenWrite p].
Proof.
  destruct r as [[]|e]; intros H.
  - now apply open_write_ok in H as (_ & -> & _).
  - now apply open_write_raise in H as (_ & -> & _).
Qed.

Lemma save_image_events (E : env) (p : list N) (r : response) (f : filesystem)
  (res : result unit) (f' : filesystem) (evs : list event) :
  save_image E p r f = (res, f', evs) ->
  Forall (fun ev => is_fs_write ev = true) evs.
Proof.
  unfold save_image. rewrite bind_run.
  destruct (open_write E p f) as [[[[]|e] f1] ev1] eqn:Ho;
    apply open_write_events in Ho as ->;
    [|intros [= <- <- <-]; repeat constructor].
  rewrite bind_run.
  destruct (write_chunks E p _ f1) as [[[[]|e] f2] ev2] eqn:Hw;
    apply write_chunks_events in Hw.
  - destruct (snd _); mstep; intros [= <- <- <-]; rewrite app_nil_r;
      constructor; auto.
  - intros [= <- <- <-]. constructor; auto.
Qed.

Section MetadataRuns.
Context {FM : FloatModel}.

Lemma save_metadata_events (E : env) (self : BingImageDownloader) (data : json)
  (f : filesystem) (res : result unit) (f' : filesystem) (evs : list event) :
  save_metadata E self data f = (res, f', evs) ->
  Forall (fun ev => is_fs_write ev = true) evs.
Proof.
  unfold save_metadata, json_dump, text_write. rewrite bind_run.
  destruct (open_write E _ f) as [[[[]|e] f1] ev1] eqn:Ho;
    apply open_write_events in Ho as ->;
    [|intros [= <- <- <-]; repeat constructor].
  destruct (utf8_encode _) as [b|].
  - destruct (file_write E _ b f1) as [[r2 f2] ev2] eqn:Hw.
    apply file_write_events in Hw. intros [= <- <- <-]. constructor; auto.
  - mstep. intros [= <- <- <-]. repeat constructor.
Qed.

Lemma metadata_path_nonempty (E : env) (self : BingImageDownloader) :
  metadata_path E self <> [].
Proof.
  unfold metadata_path.
  destruct (path_join_suffix (save_dir self) (date_str E ++ str "_metadata.json"))
    as [pre ->].
  intros H. apply (f_equal length) in H. rewrite !length_app in H. cbn in H. lia.
Qed.

Context {FL : FloatLaws FM}.

Lemma json_dumps_encoded (data : json) :
  utf8_encode (json_dumps data) = Some (json_dumps data).
Proof. apply utf8_encode_ascii, iterencode_ascii. Qed.

Lemma save_metadata_run (E : env) (self : BingImageDownloader) (data : json)
  (f : filesystem) :
  denied E (resolve (metadata_path E self)) = false ->
  lookup_path f (metadata_path E self) <> Some Dir ->
  is_dir_key f (parent_key (resolve (metadata_path E self))) = true ->
  write_limit E (resolve (metadata_path E self)) = None ->
  save_metadata E self data f
  = (Ok tt, <[resolve (metadata_path E self) := File (json_dumps data)]> f,
     [EvOpenWrite (metadata_path E self);
      EvWrite (metadata_path E self) (json_dumps data)]).
Proof.
  intros Hd Hl Hk Hw. unfold save_metadata, json_dump, text_write.
  rewrite bind_run.
  rewrite (open_write_run E _ f (metadata_path_nonempty E self) Hd Hl Hk).
  rewrite json_dumps_encoded.
  rewrite (file_write_run E _ _ _ [] (lookup_insert_eq _ _ _) Hw).
  rewrite insert_insert_eq. reflexivity.
Qed.

Lemma save_metadata_raise (E : env) (self : BingImageDownloader) (data : json)
  (f : filesystem) (e : exn) (f' : filesystem) (evs : list event) :
  save_metadata E self data f = (Raise e, f', evs) ->
  exists c, e = OSError c (metadata_path E self).
Proof.
  unfold save_metadata, json_dump, text_write. rewrite bind_run.
  destruct (open_write E _ f) as [[[[]|e1] f1] ev1] eqn:Ho.
  - rewrite json_dumps_encoded.
    destruct (file_write E _ _ f1) as [[r2 f2] ev2] eqn:Hw.
    intros [= -> _ _]. now apply file_write_any in Hw as (_ & _ & _ & He & _); eauto.
  - intros [= <- _ _]. apply open_write_raise in Ho as (_ & _ & Hc). exact Hc.
Qed.

End MetadataRuns.
(** ** Further properties of [download_image] *)

Lemma lookup_path_none (f : filesystem) (p : list N) :
  p <> [] -> lookup_path f p = None ->
  snd (resolve p) <> [] /\ f !! resolve p = None.
Proof.
  unfold lookup_path. destruct p as [|c p']; [congruence|]. intros _.
  destruct (snd (resolve (c :: p'))); [discriminate|]. auto.
Qed.


Lemma lookup_path_insert_ne (f : filesystem) (p q : list N) (n : node) :
  resolve q <> resolve p ->
  lookup_path (<[resolve q := n]> f) p = lookup_path f p.
Proof.
  intros Hne. unfold lookup_path. destruct p as [|c p']; [reflexivity|].
  destruct (snd (resolve (c :: p'))); [reflexivity|].
  now apply lookup_insert_ne.
Qed.

Lemma is_dir_key_insert_file (f : filesystem) (k k' : bool * list (list N))
  (c : list N) :
  f !! k = None -> is_dir_key f k' = true ->
  is_dir_key (<[k := File c]> f) k' = true.
Proof.
  unfold is_dir_key. intros Hk. destruct (snd k') eqn:Hs; [reflexivity|].
  destruct (decide (k = k')) as [->|Hne].
  - rewrite Hk. discriminate.
  - now rewrite lookup_insert_ne.
Qed.

Lemma fs_write_not_error_log (P : event -> Prop) (evs : list event) :
  (forall ev, is_fs_write ev = true -> P ev) ->
  Forall (fun ev => is_fs_write ev = true) evs -> Forall P evs.
Proof. intros HP H. eapply Forall_impl; eauto. Qed.

Section DownloadExtras.
Context {FM : FloatModel}.

Lemma image_path_nonempty (E : env) (self : BingImageDownloader) (data : json)
  (filename : list N) :
  image_filename E data = Ok filename -> path_join (save_dir self) filename <> [].
Proof.
  intros Hn. apply image_filename_ok in Hn as [title ->].
  destruct (path_join_suffix (save_dir self)
              (date_str E ++ str "_" ++ title ++ str ".jpg")) as [pre ->].
  intros H. apply (f_equal length) in H. rewrite !length_app in H. cbn in H. lia.
Qed.

Lemma get_image_url_events (E : env) (self : BingImageDownloader) (f : filesystem)
  (r : result (list N * json)) (f' : filesystem) (evs : list event) :
  get_image_url E self f = (r, f', evs) ->
  evs = EvRequest (bing_api_url self) false
        :: match r with
           | Raise e => if is_RequestException e then [EvLog (ErrorFetching e)] else []
           | Ok _ => []
           end.
Proof.
  rewrite get_image_url_unfold. cbv zeta.
  destruct (http E (bing_api_url self)) as [t|r0]; [intros [= <- _ <-]; reflexivity|].
  destruct (truncated r0); [intros [= <- _ <-]; reflexivity|].
  destruct (is_error_status _); [intros [= <- _ <-]; reflexivity|].
  destruct (json_loads _) as [v|]; [|intros [= <- _ <-]; reflexivity].
  destruct (extract self v) as [x|e0] eqn:Hx; intros [= <- _ <-]; [reflexivity|].
  destruct (extract_raise _ _ _ Hx) as [-> _]. reflexivity.
Qed.

(** X6. Every exception that leaves [download_image] is logged by it as
    the last event of the run; the only error record before it is that of
    [get_image_url], for the same exception. A run that returns a path logs
    no error. *)
Theorem download_image_logs_its_error (E : env) (self : BingImageDownloader)
  (f : filesystem) :
  match download_image E self f with
  | (Raise e, _, evs) =>
      exists pre,
        evs = pre ++ [EvLog (ErrorDownloading e)]
        /\ Forall (fun ev => is_error_log ev = true -> ev = EvLog (ErrorFetching e)) pre
  | (Ok _, _, evs) => Forall (fun ev => is_error_log ev = false) evs
  end.
Proof.
  rewrite download_image_unfold.
  destruct (get_image_url E self f) as [[[[url data]|e] f0] ev0] eqn:Hg;
    apply get_image_url_events in Hg as ->.
  2:{ eexists. split; [reflexivity|].
      destruct (is_RequestException e); repeat constructor; discriminate. }
  destruct (image_filename E data) as [filename|e].
  2:{ eexists. split; [reflexivity|]. repeat constructor; discriminate. }
  cbv zeta. case_bool_decide; [repeat constructor|].
  destruct (http E url) as [t|r].
  { exists [EvRequest (bing_api_url self) false; EvRequest url true].
    split; [reflexivity|]. repeat constructor; discriminate. }
  destruct (is_error_status _).
  { exists [EvRequest (bing_api_url self) false; EvRequest url true].
    split; [reflexivity|]. repeat constructor; discriminate. }
  destruct (save_image E _ r f0) as [[[[]|e] f1] ev1] eqn:Hi;
    apply save_image_events in Hi.
  2:{ exists ([EvRequest (bing_api_url self) false; EvRequest url true] ++ ev1).
      split; [cbn; reflexivity|]. apply Forall_app. split.
      - repeat constructor; discriminate.
      - revert Hi. apply fs_write_not_error_log. now intros []. }
  destruct (save_metadata E self data f1) as [[[[]|e] f2] ev2] eqn:Hm;
    apply save_metadata_events in Hm.
  - cbn [app]. constructor; [reflexivity|]. constructor; [reflexivity|].
    apply Forall_app. split.
    { revert Hi. apply fs_write_not_error_log. now intros []. }
    constructor; [reflexivity|].
    revert Hm. apply fs_write_not_error_log. now intros [].
  - exists ([EvRequest (bing_api_url self) false; EvRequest url true] ++ ev1
            ++ EvLog (SuccessfullyDownloaded (path_join (save_dir self) filename))
            :: ev2).
    split; [cbn; rewrite <- !app_assoc; reflexivity|].
    apply Forall_app. split; [repeat constructor; discriminate|].
    apply Forall_app. split.
    { revert Hi. apply fs_write_not_error_log. now intros []. }
    constructor; [discriminate|].
    revert Hm. apply fs_write_not_error_log. now intros [].
Qed.

(** X7. A title that is not a string (a number, [null], a list): the call
    of [replace] on it raises [AttributeError]; [download_image] logs and
    raises it after the metadata request, before any request for the image;
    nothing is written. *)
Theorem title_not_a_string_stops_download (E : env) (self : BingImageDownloader)
  (f : filesystem) (url : list N) (m : list (list N * json)) (ev0 : list event)
  (v : json) :
  get_image_url E self f = (Ok (url, JObj m), f, ev0) ->
  dict_lookup m (str "title") = Some v ->
  (forall s, v <> JStr s) ->
  download_image E self f =
    (Raise AttributeError, f,
     [EvRequest (bing_api_url self) false; EvLog (ErrorDownloading AttributeError)])
  /\ spec_error_of AttributeError = MalformedResponseError.
Proof.
  intros Hg Ht Hv. split; [|reflexivity].
  rewrite download_image_unfold.
  rewrite (get_image_url_ok_events _ _ _ _ _ _ Hg) in Hg. rewrite Hg.
  unfold image_filename, method_get. rewrite Ht.
  destruct v; try reflexivity. now destruct (Hv s).
Qed.


(** X9. Whatever [download_image] does, it deletes nothing, and it changes
    no entry of the file system other than the image file and the metadata
    file. *)
Theorem download_image_touches_two_files (E : env) (self : BingImageDownloader)
  (f : filesystem) (res : result (list N)) (f' : filesystem) (evs : list event) :
  download_image E self f = (res, f', evs) ->
  keeps_entries f f'
  /\ forall k : bool * list (list N),
       k <> resolve (metadata_path E self) ->
       (forall url data f0 ev0 filename,
          get_image_url E self f = (Ok (url, data), f0, ev0) ->
          image_filename E data = Ok filename ->
          k <> resolve (path_join (save_dir self) filename)) ->
       f' !! k = f !! k.
Proof.
  intros H. rewrite download_image_unfold in H.
  destruct (get_image_url E self f) as [[[[url data]|e] f0] ev0] eqn:Hg;
    destruct (get_image_url_readonly _ _ _ _ _ _ Hg) as [-> _].
  2:{ injection H as _ <- _. split; [apply keeps_entries_refl|reflexivity]. }
  destruct (image_filename E data) as [filename|e] eqn:Hn.
  2:{ injection H as _ <- _. split; [apply keeps_entries_refl|reflexivity]. }
  cbv zeta in H. case_bool_decide.
  { injection H as _ <- _. split; [apply keeps_entries_refl|reflexivity]. }
  destruct (http E url) as [t|r].
  { injection H as _ <- _. split; [apply keeps_entries_refl|reflexivity]. }
  destruct (is_error_status _).
  { injection H as _ <- _. split; [apply keeps_entries_refl|reflexivity]. }
  destruct (save_image E _ r f) as [[[[]|e] f1] ev1] eqn:Hi;
    apply save_image_any in Hi as (Hs1 & Hk1 & _).
  2:{ injection H as _ <- _. split; [exact Hk1|].
      intros k _ Hk. apply Hs1. exact (Hk _ _ _ _ _ eq_refl Hn). }
  destruct (save_metadata E self data f1) as [[r2 f2] ev2] eqn:Hm.
  apply save_metadata_any in Hm as (Hs2 & Hk2 & _).
  assert (f' = f2) as -> by (destruct r2 as [[]|e]; congruence).
  split; [eauto using keeps_entries_trans|].
  intros k Hm' Hk. rewrite Hs2 by exact Hm'. apply Hs1.
  exact (Hk _ _ _ _ _ eq_refl Hn).
Qed.

(** X10. The path that [download_image] returns names something that is
    there when it returns: what was found there before the call, with the
    file system left as it was, or else the file just written with the body
    of the image response. *)
Theorem returned_path_exists (E : env) (self : BingImageDownloader)
  (f : filesystem) (p : list N) (f' : filesystem) (evs : list event) :
  download_image E self f = (Ok p, f', evs) ->
  is_Some (lookup_path f' p)
  /\ (is_Some (lookup_path f p) -> f' = f)
  /\ (lookup_path f p = None ->
      exists url data r,
        fst (fst (get_image_url E self f)) = Ok (url, data)
        /\ http E url = Responded r
        /\ lookup_path f' p = Some (File (concat (raw r)))).
Proof.
  intros H. rewrite download_image_unfold in H.
  destruct (get_image_url E self f) as [[[[url data]|e] f0] ev0] eqn:Hg;
    [|discriminate].
  destruct (get_image_url_readonly _ _ _ _ _ _ Hg) as [-> _].
  destruct (image_filename E data) as [filename|e] eqn:Hn; [|discriminate].
  cbv zeta in H. case_bool_decide as Hp.
  { injection H as <- <- _. split; [exact Hp|]. split; [reflexivity|].
    intros Hnone. rewrite Hnone in Hp. now destruct Hp. }
  destruct (http E url) as [t|r] eqn:Hh; [discriminate|].
  destruct (is_error_status _); [discriminate|].
  destruct (save_image E _ r f) as [[[[]|e] f1] ev1] eqn:Hi; [|discriminate].
  destruct (save_metadata E self data f1) as [[[[]|e] f2] ev2] eqn:Hm;
    [|discriminate].
  injection H as <- <- _. apply save_image_ok in Hi as (Hk & Hl & _ & _).
  apply save_metadata_any in Hm as (Hsame & _ & _).
  assert (Hfile : lookup_path f2 (path_join (save_dir self) filename)
                  = Some (File (concat (raw r)))).
  { rewrite (lookup_path_file _ _ _ Hl). rewrite Hsame; [exact Hk|].
    eapply image_key_ne_metadata_key; eauto. }
  split; [rewrite Hfile; eauto|]. split; [intros Hyes; now destruct Hp|].
  intros _. exists url, data, r. split; [reflexivity|]. split; [exact Hh|exact Hfile].
Qed.

Context {FL : FloatLaws FM}.

(** The run of a first download that nothing hinders. *)
Lemma download_image_fresh (E : env) (self : BingImageDownloader)
  (f : filesystem) (url : list N) (data : json) (ev0 : list event)
  (filename : list N) (r : response) :
  let p := path_join (save_dir self) filename in
  let mp := metadata_path E self in
  get_image_url E self f = (Ok (url, data), f, ev0) ->
  image_filename E data = Ok filename ->
  lookup_path f p = None ->
  http E url = Responded r ->
  is_error_status (status_code r) = false ->
  truncated r = false ->
  is_dir_key f (parent_key (resolve p)) = true ->
  is_dir_key f (parent_key (resolve mp)) = true ->
  lookup_path f mp <> Some Dir ->
  denied E (resolve p) = false ->
  denied E (resolve mp) = false ->
  write_limit E (resolve p) = None ->
  write_limit E (resolve mp) = None ->
  download_image E self f =
    (Ok p,
     <[resolve mp := File (json_dumps data)]>
       (<[resolve p := File (concat (raw r))]> f),
     [EvRequest (bing_api_url self) false; EvRequest url true; EvOpenWrite p]
     ++ chunk_writes p (fst (iter_content (N.to_nat 8192) r))
     ++ [EvLog (SuccessfullyDownloaded p); EvOpenWrite mp;
         EvWrite mp (json_dumps data)]).
Proof.
  intros p mp Hg Hn Hp Hh Hs Ht Hk Hkm Hlm Hd Hdm Hw Hwm.
  pose proof (image_path_nonempty E self data filename Hn) as Hne. fold p in Hne.
  destruct (lookup_path_none f p Hne Hp) as [Hcomp Hkey].
  pose proof (image_key_ne_metadata_key E self data filename Hn) as Hdiff.
  fold p mp in Hdiff.
  rewrite download_image_unfold.
  rewrite (get_image_url_ok_events _ _ _ _ _ _ Hg) in Hg.
  rewrite Hg, Hn. cbv zeta. fold p. rewrite Hp, Hh, Hs.
  rewrite bool_decide_eq_false_2 by (intros [? ?]; discriminate).
  rewrite (save_image_run E p r f Hne Hd) by (auto; congruence). rewrite Ht.
  rewrite (save_metadata_run E self data); fold mp; auto.
  - rewrite lookup_path_insert_ne by exact Hdiff. exact Hlm.
  - now apply is_dir_key_insert_file.
Qed.


(** X12. The text of the metadata file is ASCII, every other character
    being written as an escape, so encoding it as UTF-8 cannot fail and
    gives the text itself: when the metadata step raises, it is an
    [OSError] about the metadata file, and no other entry of the file
    system has changed. *)
Theorem save_metadata_raises_only_OSError (E : env) (self : BingImageDownloader)
  (data : json) (f : filesystem) (e : exn) (f' : filesystem) (evs : list event) :
  save_metadata E self data f = (Raise e, f', evs) ->
  (exists c, e = OSError c (metadata_path E self))
  /\ Forall (fun c => is_ascii c = true) (json_dumps data)
  /\ utf8_encode (json_dumps data) = Some (json_dumps data)
  /\ same_elsewhere (resolve (metadata_path E self)) f f'.
Proof.
  intros H. split; [eauto using save_metadata_raise|].
  split; [apply iterencode_ascii|]. split; [apply json_dumps_encoded|].
  now apply save_metadata_any in H as (Hs & _).
Qed.

End DownloadExtras.
(** ** The writes of the chunk loop *)



(** ** Where the two files go *)

Lemma split_on_absent (c : N) (s : list N) :
  Forall (fun x => x <> c) s -> split_on c s = [s].
Proof.
  induction 1 as [|x s Hx Hs IH]; [reflexivity|].
  cbn [split_on]. apply N.eqb_neq in Hx. rewrite Hx, IH. reflexivity.
Qed.

Lemma components_single (s : list N) :
  Forall (fun x => x <> sep) s -> keep_component s = true -> components s = [s].
Proof.
  intros Hs Hk. unfold components. rewrite split_on_absent by exact Hs.
  cbn [List.filter]. rewrite Hk. reflexivity.
Qed.

Lemma keep_component_long (s : list N) :
  (2 <= length s)%nat -> keep_component s = true.
Proof. destruct s as [|a [|b s]]; cbn; intros; try lia; reflexivity. Qed.

Lemma startswith_sep_app (d x : list N) :
  d <> [] -> startswith [sep] (d ++ x) = startswith [sep] d.
Proof. destruct d as [|c d]; [congruence|reflexivity]. Qed.

Lemma resolve_path_join (d x : list N) :
  startswith [sep] x = false ->
  resolve (path_join d x) = (fst (resolve d), snd (resolve d) ++ components x).
Proof.
  intros Hx. unfold resolve. cbn [fst snd].
  rewrite components_path_join by exact Hx. f_equal.
  unfold path_join. rewrite Hx. destruct d as [|c d]; [exact Hx|].
  cbn [orb]. destruct (endswith [sep] (c :: d)); reflexivity.
Qed.

Lemma date_str_head (E : env) :
  exists c s, date_str E = c :: s /\ Forall (fun x => is_digit x = true) (c :: s).
Proof.
  pose proof (strftime_Ymd_digits (now E)) as Hd.
  pose proof (strftime_Ymd_min_length (now E)) as Hl.
  unfold date_str. destruct (strftime_Ymd (now E)) as [|c s]; [cbn in Hl; lia|].
  eauto.
Qed.

Lemma digits_no_sep (s : list N) :
  Forall (fun x => is_digit x = true) s -> Forall (fun x => x <> sep) s.
Proof.
  intros H. eapply Forall_impl; [exact H|]. intros x Hx. now apply digit_not_sep.
Qed.

Lemma digits_no_space (s : list N) :
  Forall (fun x => is_digit x = true) s -> Forall (fun x => x <> ord " ") s.
Proof.
  intros H. eapply Forall_impl; [exact H|].
  intros x Hx ->. vm_compute in Hx. discriminate.
Qed.

Lemma parent_key_snoc (a : bool) (l : list (list N)) (x : list N) :
  parent_key (a, l ++ [x]) = (a, l).
Proof. unfold parent_key. cbn [fst snd]. now rewrite removelast_last. Qed.

Section Places.
Context {FM : FloatModel}.

Lemma image_filename_head (E : env) (data : json) (filename : list N) :
  image_filename E data = Ok filename ->
  exists c s, filename = c :: s /\ is_digit c = true.
Proof.
  intros Hn. apply image_filename_ok in Hn as [title ->].
  destruct (date_str_head E) as (c & s & -> & Hd). inversion Hd; subst.
  cbn [app]. eauto.
Qed.

Lemma resolve_metadata_path (E : env) (self : BingImageDownloader) :
  resolve (metadata_path E self)
  = (fst (resolve (save_dir self)),
     snd (resolve (save_dir self)) ++ [date_str E ++ str "_metadata.json"]).
Proof.
  unfold metadata_path. destruct (date_str_head E) as (c' & s' & Hds & Hd).
  rewrite resolve_path_join.
  2:{ rewrite Hds. cbn [app]. apply startswith_sep_digit. now inversion Hd. }
  f_equal. f_equal. apply components_single.
  - apply Forall_app. split; [rewrite Hds; now apply digits_no_sep|].
    repeat constructor; discriminate.
  - apply keep_component_long. rewrite length_app. cbn. lia.
Qed.

Lemma resolve_image_path (E : env) (self : BingImageDownloader) (data : json)
  (filename : list N) :
  image_filename E data = Ok filename ->
  Forall (fun x => x <> sep) filename ->
  resolve (path_join (save_dir self) filename)
  = (fst (resolve (save_dir self)), snd (resolve (save_dir self)) ++ [filename]).
Proof.
  intros Hn Hsep. destruct (image_filename_head E _ filename Hn) as (c & s & Hf & Hc).
  rewrite resolve_path_join by (rewrite Hf; now apply startswith_sep_digit).
  rewrite components_single; [reflexivity|exact Hsep|].
  apply keep_component_long. apply image_filename_ok in Hn as [title ->].
  rewrite length_app. pose proof (strftime_Ymd_min_length (now E)).
  unfold date_str. lia.
Qed.

(** X14. The two files are below the save directory: the file name starts
    with a digit of the date, never with a separator, so [os.path.join]
    keeps the save directory in front of it; the components of the image
    path are those of the save directory followed by those of the file
    name, of which there is at least one; and the metadata file is an entry
    of the save directory itself. *)
Theorem files_below_save_dir (E : env) (self : BingImageDownloader) (data : json)
  (filename : list N) :
  image_filename E data = Ok filename ->
  resolve (path_join (save_dir self) filename)
  = (fst (resolve (save_dir self)),
     snd (resolve (save_dir self)) ++ components filename)
  /\ components filename <> []
  /\ resolve (metadata_path E self)
     = (fst (resolve (save_dir self)),
        snd (resolve (save_dir self)) ++ [date_str E ++ str "_metadata.json"])
  /\ parent_key (resolve (metadata_path E self)) = resolve (save_dir self).
Proof.
  intros Hn. destruct (image_filename_head E data filename Hn) as (c & s & -> & Hc).
  destruct (digit_not_sep c Hc) as [Hsep Hdot].
  pose proof (resolve_metadata_path E self) as Hm.
  split; [apply resolve_path_join, startswith_sep_digit, Hc|].
  split; [now apply components_head|]. split; [exact Hm|].
  rewrite Hm, parent_key_snoc. now destruct (resolve (save_dir self)).
Qed.

Lemma image_filename_chars (E : env) (data : json) (filename : list N) :
  image_filename E data = Ok filename ->
  exists title,
    filename = date_str E ++ str "_"
               ++ map (fun c => if c =? ord " " then ord "_" else c) title
               ++ str ".jpg"
    /\ forall m t, data = JObj m -> dict_lookup m (str "title") = Some (JStr t) ->
                   title = t.
Proof.
  unfold image_filename. destruct (method_get data _ _) as [t|e] eqn:Hg; [|discriminate].
  destruct t; try discriminate. unfold method_replace. rewrite replace_space.
  intros Hn. exists s. split; [congruence|].
  intros m t -> Ht. unfold method_get in Hg. rewrite Ht in Hg. congruence.
Qed.

Lemma replaced_char (title : list N) (x : N) :
  x ∈ map (fun c => if c =? ord " " then ord "_" else c) title ->
  x <> ord " " /\ (x = sep -> sep ∈ title).
Proof.
  intros Hx. apply list_elem_of_fmap in Hx as (y & Hy & Hin).
  destruct (y =? ord " ") eqn:Hys.
  - subst x. split; discriminate.
  - apply N.eqb_neq in Hys. subst x. split; [exact Hys|]. now intros <-.
Qed.

(** X15. The file name holds no space, whatever the title; and when the
    title holds no separator either, the file name is one path component, so
    the image file is an entry of the save directory itself. *)
Theorem image_file_in_save_dir (E : env) (self : BingImageDownloader)
  (data : json) (filename : list N) :
  image_filename E data = Ok filename ->
  (ord " " ∉ filename)
  /\ (forall m title,
        data = JObj m ->
        dict_lookup m (str "title") = Some (JStr title) ->
        sep ∉ title ->
        resolve (path_join (save_dir self) filename)
        = (fst (resolve (save_dir self)), snd (resolve (save_dir self)) ++ [filename])
        /\ parent_key (resolve (path_join (save_dir self) filename))
           = resolve (save_dir self)).
Proof.
  intros Hn. destruct (image_filename_head E _ filename Hn) as (c0 & s0 & Hf & Hc).
  destruct (image_filename_chars E data filename Hn) as (title' & Hname & Htitle).
  destruct (date_str_head E) as (c & s' & Hds & Hd).
  split.
  - assert (Hall : Forall (fun x => x <> ord " ") filename).
    { rewrite Hname, Hds. apply Forall_app. split; [now apply digits_no_space|].
      apply Forall_app. split; [repeat constructor; discriminate|].
      apply Forall_app. split; [|repeat constructor; discriminate].
      apply Forall_forall. intros x Hx. now apply replaced_char in Hx. }
    intros Hin. rewrite Forall_forall in Hall. exact (Hall _ Hin eq_refl).
  - intros m title -> Ht Hsep. rewrite (Htitle m title eq_refl Ht) in Hname.
    assert (Hr : resolve (path_join (save_dir self) filename)
        = (fst (resolve (save_dir self)), snd (resolve (save_dir self)) ++ [filename])).
    { apply (resolve_image_path E self _ filename Hn).
      rewrite Hname, Hds. apply Forall_app. split; [now apply digits_no_sep|].
      apply Forall_app. split; [repeat constructor; discriminate|].
      apply Forall_app. split; [|repeat constructor; discriminate].
      apply Forall_forall. intros x Hx ->.
      apply replaced_char in Hx as [_ Hx]. auto. }
    split; [exact Hr|]. rewrite Hr, parent_key_snoc.
    now destruct (resolve (save_dir self)).
Qed.

End Places.
(** ** What the decoder produces *)

Lemma hex_val_bound (c x : N) : hex_val c = Some x -> x < 16.
Proof.
  unfold hex_val, is_digit.
  change (ord "0") with 48. change (ord "9") with 57.
  change (ord "a") with 97. change (ord "f") with 102.
  change (ord "A") with 65. change (ord "F") with 70.
  destruct (48 <=? c) eqn:H1, (c <=? 57) eqn:H2; cbn [andb];
    try (intros [= <-]; apply N.leb_le in H1, H2; lia).
  all: destruct (97 <=? c) eqn:H3, (c <=? 102) eqn:H4; cbn [andb];
    try (intros [= <-]; apply N.leb_le in H3, H4; lia).
  all: destruct (65 <=? c) eqn:H5, (c <=? 70) eqn:H6; cbn [andb];
    try (intros [= <-]; apply N.leb_le in H5, H6; lia); discriminate.
Qed.

Lemma decode_hex4_bound (a b c d n : N) :
  decode_hex4 a b c d = Some n -> n < 0x10000.
Proof.
  unfold decode_hex4.
  destruct (hex_val a) as [x|] eqn:Ha; [|discriminate].
  destruct (hex_val b) as [y|] eqn:Hb; [|discriminate].
  destruct (hex_val c) as [z|] eqn:Hc; [|discriminate].
  destruct (hex_val d) as [w|] eqn:Hd; [|discriminate].
  intros [= <-].
  apply hex_val_bound in Ha, Hb, Hc, Hd. lia.
Qed.

Lemma lor_below (n x y : N) : x < 2 ^ n -> y < 2 ^ n -> N.lor x y < 2 ^ n.
Proof.
  intros Hx Hy. destruct (N.eq_dec (N.lor x y) 0) as [->|Hne]; [lia|].
  apply N.log2_lt_pow2; [lia|]. rewrite N.log2_lor.
  destruct (N.eq_dec x 0) as [->|Hx0], (N.eq_dec y 0) as [->|Hy0].
  - now destruct Hne.
  - rewrite N.max_r by (cbn; lia). apply N.log2_lt_pow2; lia.
  - rewrite N.max_l by (cbn; lia). apply N.log2_lt_pow2; lia.
  - apply N.max_lub_lt; apply N.log2_lt_pow2; lia.
Qed.

Lemma join_surrogates_bound (hi lo : N) :
  is_high_surrogate hi = true -> is_low_surrogate lo = true ->
  0x10000 <= join_surrogates hi lo < 0x110000.
Proof.
  unfold is_high_surrogate, is_low_surrogate, join_surrogates.
  intros [H1 H2]%andb_prop [H3 H4]%andb_prop.
  apply N.leb_le in H1, H2, H3, H4.
  assert (H : N.lor (N.shiftl (hi - 0xd800) 10) (lo - 0xdc00) < 2 ^ 20).
  { apply lor_below.
    - rewrite N.shiftl_mul_pow2. change (2 ^ 20) with (1024 * 2 ^ 10).
      apply N.mul_lt_mono_pos_r; lia.
    - change (2 ^ 20) with 1048576. lia. }
  change (2 ^ 20) with 1048576 in H. lia.
Qed.

Lemma scalar_spec (c : N) :
  scalar c = true ->
  c < 0x110000 /\ is_high_surrogate c = false /\ is_low_surrogate c = false.
Proof.
  unfold scalar, is_surrogate, is_high_surrogate, is_low_surrogate.
  intros [H1 H2]%andb_prop. apply N.ltb_lt in H1. split; [exact H1|].
  apply negb_true_iff, andb_false_iff in H2.
  split; apply andb_false_iff.
  - destruct H2 as [H2|H2]; [now left|right].
    apply N.leb_gt in H2. apply N.leb_gt. lia.
  - destruct H2 as [H2|H2]; [left|now right].
    apply N.leb_gt in H2. apply N.leb_gt. lia.
Qed.

Lemma unescape_plain (e ch : N) :
  unescape e = Some ch ->
  ch < 0x110000 /\ is_high_surrogate ch = false /\ is_low_surrogate ch = false.
Proof.
  unfold unescape. repeat case_match; intros [= <-]; repeat split; reflexivity.
Qed.

Lemma join_surrogates_plain (hi lo : N) :
  is_high_surrogate hi = true -> is_low_surrogate lo = true ->
  join_surrogates hi lo < 0x110000
  /\ is_high_surrogate (join_surrogates hi lo) = false
  /\ is_low_surrogate (join_surrogates hi lo) = false.
Proof.
  intros Hh Hl. destruct (join_surrogates_bound hi lo Hh Hl) as [H1 H2].
  split; [exact H2|]. unfold is_high_surrogate, is_low_surrogate.
  split; apply andb_false_iff; right; apply N.leb_gt; lia.
Qed.

Ltac split_scalars :=
  repeat match goal with
    | H : Forall _ (_ :: _) |- _ => apply Forall_cons in H as [? H]
    end.

(** The strings of the decoder: code points below 0x110000, and no high
    surrogate followed by a low one, since two such escapes are joined. *)
Lemma scanstring_wf (n : nat) : forall (s : list N),
  (length s <= n)%nat ->
  Forall (fun c => scalar c = true) s ->
  forall t rest,
    scanstring s = Some (t, rest) ->
    str_wfb t = true
    /\ Forall (fun c => scalar c = true) rest
    /\ (no_low_escape s = true ->
        match t with c :: _ => is_low_surrogate c = false | [] => True end).
Proof.
  induction n as [|n IH]; intros s Hlen Hs t rest H.
  { destruct s; [discriminate|cbn in Hlen; lia]. }
  destruct s as [|c r]; [discriminate|]. cbn [scanstring] in H.
  apply Forall_cons in Hs as [Hc Hr]. cbn [length] in Hlen.
  destruct (c =? 34) eqn:Hq.
  { injection H as <- <-. auto. }
  destruct (c =? 92) eqn:Hb.
  - destruct r as [|e r1]; [discriminate|].
    destruct (e =? ord "u") eqn:Hu.
    + destruct r1 as [|h1 [|h2 [|h3 [|h4 r2]]]]; try discriminate.
      destruct (decode_hex4 h1 h2 h3 h4) as [uni|] eqn:Hd; [|discriminate].
      pose proof (decode_hex4_bound _ _ _ _ _ Hd) as Huni.
      split_scalars. cbn [length] in Hlen.
      assert (Hsingle :
        (is_high_surrogate uni = true -> no_low_escape r2 = true) ->
        match scanstring r2 with
        | Some (t0, rest0) => Some (uni :: t0, rest0)
        | None => None
        end = Some (t, rest) ->
        str_wfb t = true
        /\ Forall (fun c => scalar c = true) rest
        /\ (no_low_escape (c :: e :: h1 :: h2 :: h3 :: h4 :: r2) = true ->
            match t with c :: _ => is_low_surrogate c = false | [] => True end)).
      { intros Hnl Hrun.
        destruct (scanstring r2) as [[t0 rest0]|] eqn:Hs2; [|discriminate].
        injection Hrun as <- <-.
        apply IH in Hs2 as (Hw & Hrest & Hhead); [|lia|assumption].
        split; [|split; [exact Hrest|]].
        - cbn [str_wfb]. rewrite Hw, andb_true_r.
          apply andb_true_intro. split; [apply N.ltb_lt; lia|].
          destruct (is_high_surrogate uni); [|reflexivity].
          specialize (Hhead (Hnl eq_refl)). destruct t0; [reflexivity|].
          now rewrite Hhead.
        - cbn [no_low_escape]. rewrite Hb, Hu, Hd. cbn [andb].
          now intros ->%negb_true_iff. }
      destruct (is_high_surrogate uni) eqn:Hh;
        [|apply Hsingle; [discriminate|exact H]].
      destruct r2 as [|b [|u [|l1 [|l2 [|l3 [|l4 r3]]]]]];
        try (apply Hsingle; [reflexivity|exact H]).
      destruct ((b =? 92) && (u =? ord "u")) eqn:Hbu.
      2:{ apply Hsingle; [|exact H]. intros _. cbn [no_low_escape].
          now rewrite Hbu. }
      destruct (decode_hex4 l1 l2 l3 l4) as [uni2|] eqn:Hd2; [|discriminate].
      destruct (is_low_surrogate uni2) eqn:Hl2.
      2:{ apply Hsingle; [|exact H]. intros _. cbn [no_low_escape].
          now rewrite Hbu, Hd2, Hl2. }
      destruct (scanstring r3) as [[t0 rest0]|] eqn:Hs3; [|discriminate].
      injection H as <- <-. split_scalars. cbn [length] in Hlen.
      apply IH in Hs3 as (Hw & Hrest & _); [|lia|assumption].
      destruct (join_surrogates_plain uni uni2 Hh Hl2) as (Hj1 & Hj2 & Hj3).
      split; [|split; [exact Hrest|intros _; exact Hj3]].
      cbn [str_wfb]. rewrite Hw, Hj2. cbn [andb negb].
      rewrite !andb_true_r. apply N.ltb_lt. exact Hj1.
    + destruct (unescape e) as [ch|] eqn:He; [|discriminate].
      destruct (scanstring r1) as [[t0 rest0]|] eqn:Hs1; [|discriminate].
      injection H as <- <-. split_scalars. cbn [length] in Hlen.
      apply IH in Hs1 as (Hw & Hrest & _); [|lia|assumption].
      destruct (unescape_plain _ _ He) as (Hu1 & Hu2 & Hu3).
      split; [|split; [exact Hrest|intros _; exact Hu3]].
      cbn [str_wfb]. rewrite Hw, Hu2. cbn [andb negb].
      rewrite !andb_true_r. apply N.ltb_lt. exact Hu1.
  - destruct (c <? 32); [discriminate|].
    destruct (scanstring r) as [[t0 rest0]|] eqn:Hs1; [|discriminate].
    injection H as <- <-.
    apply IH in Hs1 as (Hw & Hrest & _); [|lia|assumption].
    destruct (scalar_spec _ Hc) as (Hc1 & Hc2 & Hc3).
    split; [|split; [exact Hrest|intros _; exact Hc3]].
    cbn [str_wfb]. rewrite Hw, Hc2. cbn [andb negb].
    rewrite !andb_true_r. apply N.ltb_lt. exact Hc1.
Qed.

Lemma skip_ws_scalar (P : N -> Prop) (s : list N) :
  Forall P s -> Forall P (skip_ws s).
Proof.
  induction 1 as [|c s Hc Hs IH]; [constructor|].
  cbn [skip_ws]. destruct (is_ws c); [exact IH|now constructor].
Qed.

Lemma strip_prefix_scalar (P : N -> Prop) (w : list N) :
  forall s rest, strip_prefix w s = Some rest -> Forall P s -> Forall P rest.
Proof.
  induction w as [|a w IH]; intros s rest H Hs.
  - destruct s; cbn in H; now injection H as <-.
  - destruct s as [|b s]; [discriminate|]. cbn [strip_prefix] in H.
    destruct (a =? b); [|discriminate].
    apply Forall_cons in Hs as [_ Hs]. eauto.
Qed.

Section DecoderOutput.
Context {FM : FloatModel}.

Lemma dict_set_keys (d : list (list N * json)) (k : list N) (v : json) (x : list N) :
  x ∈ map fst (dict_set d k v) -> x = k \/ x ∈ map fst d.
Proof.
  induction d as [|[k' v'] d IH]; cbn [dict_set map fst].
  - intros ->%list_elem_of_singleton. now left.
  - destruct (decide (k' = k)) as [->|Hne]; cbn [map fst].
    + intros [->|H]%elem_of_cons; [now left|right; now right].
    + intros [->|H]%elem_of_cons; [right; now left|].
      destruct (IH H) as [->|Hin]; [now left|right; now right].
Qed.

Lemma dict_set_wf (d : list (list N * json)) (k : list N) (v : json) :
  json_wfb (JObj d) = true -> str_wfb k = true -> json_wfb v = true ->
  json_wfb (JObj (dict_set d k v)) = true.
Proof.
  cbn [json_wfb]. intros [Hnd Hall]%andb_prop Hk Hv.
  apply bool_decide_eq_true in Hnd. apply andb_true_intro. split.
  - apply bool_decide_eq_true. clear Hall.
    induction d as [|[k' v'] d IH]; cbn [dict_set map fst].
    + repeat constructor. set_solver.
    + cbn [map fst] in Hnd. apply NoDup_cons in Hnd as [Hk' Hnd].
      destruct (decide (k' = k)) as [->|Hne]; cbn [map fst].
      * now constructor.
      * constructor; [|now apply IH].
        intros [->|Hin]%dict_set_keys; auto.
  - clear Hnd. induction d as [|[k' v'] d IH]; cbn [dict_set forallb fst snd].
    + now rewrite Hk, Hv.
    + cbn [forallb fst snd] in Hall. apply andb_prop in Hall as [Hkv Hall].
      destruct (decide (k' = k)) as [->|Hne]; cbn [forallb fst snd].
      * now rewrite Hk, Hv, Hall.
      * now rewrite Hkv, IH.
Qed.

Lemma number_value_wf (l : number_lexeme) : json_wfb (number_value l) = true.
Proof. unfold number_value. now destruct (nl_frac l), (nl_exp l). Qed.

Lemma scan_wf (fuel : nat) : forall (m : mode) (s : list N) (v : json) (rest : list N),
  Forall (fun c => scalar c = true) s ->
  mode_wfb m = true ->
  scan fuel m s = Some (v, rest) ->
  json_wfb v = true /\ Forall (fun c => scalar c = true) rest.
Proof.
  induction fuel as [|fuel IH]; intros m s v rest Hs Hm H; [discriminate|].
  destruct m as [|acc|acc|acc]; cbn [scan] in H.
  - destruct s as [|c r]; [discriminate|].
    pose proof Hs as Hcr. apply Forall_cons in Hs as [Hc Hr].
    destruct (c =? 34).
    { destruct (scanstring r) as [[t rest0]|] eqn:Hstr; [|discriminate].
      injection H as <- <-.
      apply (scanstring_wf (length r) r (le_n _) Hr) in Hstr as (Hw & Hrest & _).
      auto. }
    destruct (c =? ord "{").
    { pose proof (skip_ws_scalar _ r Hr) as Hsk.
      destruct (skip_ws r) as [|c' r']; [discriminate|].
      destruct (c' =? ord "}").
      - injection H as <- <-. apply Forall_cons in Hsk as [_ Hsk]. auto.
      - eapply IH; [exact Hsk| |exact H]. reflexivity. }
    destruct (c =? ord "[").
    { pose proof (skip_ws_scalar _ r Hr) as Hsk.
      destruct (skip_ws r) as [|c' r']; [discriminate|].
      destruct (c' =? ord "]").
      - injection H as <- <-. apply Forall_cons in Hsk as [_ Hsk]. auto.
      - destruct (scan fuel MValue (c' :: r')) as [[v1 rest1]|] eqn:H1;
          [|discriminate].
        apply IH in H1 as [Hv1 Hrest1]; [|exact Hsk|reflexivity].
        eapply IH; [exact Hrest1| |exact H]. cbn. now rewrite Hv1. }
    destruct (strip_prefix (str "null") (c :: r)) as [r0|] eqn:Hn.
    { injection H as <- <-. eauto using strip_prefix_scalar. }
    destruct (strip_prefix (str "true") (c :: r)) as [r0|] eqn:Ht.
    { injection H as <- <-. eauto using strip_prefix_scalar. }
    destruct (strip_prefix (str "false") (c :: r)) as [r0|] eqn:Hf.
    { injection H as <- <-. eauto using strip_prefix_scalar. }
    destruct (match_number (c :: r)) as [[l r0]|] eqn:Hnum.
    { injection H as <- <-. split; [apply number_value_wf|].
      apply match_number_split in Hnum as (Heq & _). rewrite Heq in Hcr.
      now apply Forall_app in Hcr as [_ Hcr]. }
    destruct (strip_prefix (str "NaN") (c :: r)) as [r0|] eqn:Hnan.
    { injection H as <- <-. eauto using strip_prefix_scalar. }
    destruct (strip_prefix (str "Infinity") (c :: r)) as [r0|] eqn:Hinf.
    { injection H as <- <-. eauto using strip_prefix_scalar. }
    destruct (strip_prefix (str "-Infinity") (c :: r)) as [r0|] eqn:Hninf;
      [|discriminate].
    injection H as <- <-. eauto using strip_prefix_scalar.
  - pose proof (skip_ws_scalar _ s Hs) as Hsk.
    destruct (skip_ws s) as [|c r]; [discriminate|].
    apply Forall_cons in Hsk as [_ Hsk].
    destruct (c =? ord "]"); [injection H as <- <-; auto|].
    destruct (c =? ord ","); [|discriminate].
    destruct (scan fuel MValue (skip_ws r)) as [[v1 rest1]|] eqn:H1; [|discriminate].
    apply IH in H1 as [Hv1 Hrest1]; [|now apply skip_ws_scalar|reflexivity].
    eapply IH; [exact Hrest1| |exact H].
    cbn [mode_wfb json_wfb] in *. rewrite forallb_app, Hm. cbn. now rewrite Hv1.
  - destruct s as [|c r]; [discriminate|].
    apply Forall_cons in Hs as [Hc Hr].
    destruct (c =? 34); [|discriminate].
    destruct (scanstring r) as [[k r1]|] eqn:Hstr; [|discriminate].
    apply (scanstring_wf (length r) r (le_n _) Hr) in Hstr as (Hk & Hr1 & _).
    pose proof (skip_ws_scalar _ r1 Hr1) as Hsk.
    destruct (skip_ws r1) as [|c1 r2]; [discriminate|].
    apply Forall_cons in Hsk as [_ Hsk].
    destruct (c1 =? ord ":"); [|discriminate].
    destruct (scan fuel MValue (skip_ws r2)) as [[v1 rest1]|] eqn:H1; [|discriminate].
    apply IH in H1 as [Hv1 Hrest1]; [|now apply skip_ws_scalar|reflexivity].
    eapply IH; [exact Hrest1| |exact H].
    cbn [mode_wfb] in *. now apply dict_set_wf.
  - pose proof (skip_ws_scalar _ s Hs) as Hsk.
    destruct (skip_ws s) as [|c r]; [discriminate|].
    apply Forall_cons in Hsk as [_ Hsk].
    destruct (c =? ord "}"); [injection H as <- <-; auto|].
    destruct (c =? ord ","); [|discriminate].
    eapply IH; [apply skip_ws_scalar; exact Hsk| |exact H]. exact Hm.
Qed.

(** The values of [json.loads] on a text of scalar values are well formed. *)
Lemma json_loads_wf (s : list N) (v : json) :
  Forall (fun c => scalar c = true) s ->
  json_loads s = Some v -> json_wfb v = true.
Proof.
  intros Hs. unfold json_loads.
  destruct (scan _ MValue (skip_ws s)) as [[v0 rest]|] eqn:H; [|discriminate].
  apply scan_wf in H as [Hv _]; [|now apply skip_ws_scalar|reflexivity].
  destruct (skip_ws rest); [|discriminate]. now intros [= <-].
Qed.

End DecoderOutput.

Section ParsedRecords.
Context {FM : FloatModel}.

Lemma dict_lookup_wf (d : list (list N * json)) (k : list N) (v : json) :
  json_wfb (JObj d) = true -> dict_lookup d k = Some v -> json_wfb v = true.
Proof.
  cbn [json_wfb]. intros [_ Hall]%andb_prop.
  induction d as [|[k' v'] d IH]; [discriminate|].
  cbn [forallb fst snd] in Hall. apply andb_prop in Hall as [Hkv Hall].
  cbn [dict_lookup]. destruct (decide (k' = k)); [|auto].
  intros [= <-]. now apply andb_prop in Hkv as [_ Hv].
Qed.

(** The record that [get_image_url] returns, in the parsed body. *)
Lemma get_image_url_parsed (E : env) (self : BingImageDownloader)
  (f f' : filesystem) (url : list N) (data : json) (evs : list event) :
  get_image_url E self f = (Ok (url, data), f', evs) ->
  exists r d rest,
    http E (bing_api_url self) = Responded r
    /\ json_loads (text r) = Some (JObj d)
    /\ dict_lookup d (str "images") = Some (JArr (data :: rest)).
Proof.
  rewrite get_image_url_unfold. cbv zeta.
  destruct (http E (bing_api_url self)) as [t|r]; [discriminate|].
  destruct (truncated r); [discriminate|].
  destruct (is_error_status _); [discriminate|].
  destruct (json_loads _) as [v|] eqn:Hl; [|discriminate].
  destruct (extract self v) as [[u0 d0]|e] eqn:Hx; [|discriminate].
  intros [= -> -> _ _].
  apply extract_ok in Hx as (d & rest & m & u & -> & Hi & _).
  eauto 10.
Qed.

Context {FL : FloatLaws FM}.

(** X20. What [response.json()] gives for a body of Unicode scalar values
    survives the codec: the value is well formed (strings of code points
    below 0x110000 in which no high surrogate is followed by a low one,
    objects with distinct keys), and [json.dumps] of it with [indent=4],
    read by [json.loads], is the value again. *)
Theorem parsed_value_round_trips (s : list N) (v : json) :
  Forall (fun c => scalar c = true) s ->
  json_loads s = Some v ->
  json_wfb v = true /\ json_loads (json_dumps v) = Some v.
Proof.
  intros Hs Hl. pose proof (json_loads_wf s v Hs Hl) as Hwf.
  split; [exact Hwf|]. now apply json_loads_dumps.
Qed.

(** X21. After every first download that returns, when the body of the
    metadata response is a text of Unicode scalar values, the metadata file
    holds the dump of the record that [get_image_url] returned, and that
    content, decoded and parsed, is the record: the round trip needs no
    assumption on the record. *)
Theorem saved_metadata_parses_back (E : env) (self : BingImageDownloader)
  (f : filesystem) (p : list N) (f1 : filesystem) (evs : list event) :
  (forall r, http E (bing_api_url self) = Responded r ->
             Forall (fun c => scalar c = true) (text r)) ->
  lookup_path f p = None ->
  download_image E self f = (Ok p, f1, evs) ->
  exists url data,
    fst (fst (get_image_url E self f)) = Ok (url, data)
    /\ json_wfb data = true
    /\ f1 !! resolve (metadata_path E self) = Some (File (json_dumps data))
    /\ match utf8_decode (json_dumps data) with
       | Some t => json_loads t
       | None => None
       end = Some data.
Proof.
  intros Htext Hp Hd. rewrite download_image_unfold in Hd.
  destruct (get_image_url E self f) as [[[[url data]|e] f0] ev0] eqn:Hg;
    [|discriminate].
  destruct (get_image_url_readonly _ _ _ _ _ _ Hg) as [-> _].
  assert (Hwf : json_wfb data = true).
  { apply get_image_url_parsed in Hg as (r & d & rest & Hh & Hl & Hi).
    pose proof (json_loads_wf _ _ (Htext r Hh) Hl) as Hobj.
    pose proof (dict_lookup_wf _ _ _ Hobj Hi) as Harr.
    cbn [json_wfb forallb] in Harr. now apply andb_prop in Harr as [Hdata _]. }
  destruct (image_filename E data) as [filename|e] eqn:Hn; [|discriminate].
  cbv zeta in Hd. case_bool_decide as Hthere.
  { injection Hd as <- _ _. rewrite Hp in Hthere. now destruct Hthere. }
  destruct (http E url) as [t|r]; [discriminate|].
  destruct (is_error_status _); [discriminate|].
  destruct (save_image E _ r f) as [[[[]|e] fa] ev1] eqn:Hi; [|discriminate].
  destruct (save_metadata E self data fa) as [[[[]|e] fb] ev2] eqn:Hm;
    [|discriminate].
  injection Hd as _ <- _.
  apply save_metadata_ok in Hm as (b & Hb & Hfile).
  rewrite json_dumps_encoded in Hb. injection Hb as <-.
  exists url, data. split; [reflexivity|]. split; [exact Hwf|].
  split; [exact Hfile|].
  rewrite utf8_decode_ascii by apply iterencode_ascii.
  now apply json_loads_dumps.
Qed.

End ParsedRecords.
(** ** Further properties of the constructor and [main] *)

Lemma adds_directories_refl (f : filesystem) : adds_directories f f.
Proof. split; [reflexivity|]. intros k n H1 H2. congruence. Qed.

Lemma adds_directories_insert (f : filesystem) (k : bool * list (list N)) :
  f !! k = None -> adds_directories f (<[k := Dir]> f).
Proof.
  intros Hk. split; [now apply insert_subseteq|].
  intros k' n Hn. destruct (decide (k = k')) as [->|Hne].
  - rewrite lookup_insert_eq. congruence.
  - rewrite lookup_insert_ne by exact Hne. congruence.
Qed.

Lemma adds_directories_trans (f1 f2 f3 : filesystem) :
  adds_directories f1 f2 -> adds_directories f2 f3 -> adds_directories f1 f3.
Proof.
  intros [Hs1 Hd1] [Hs2 Hd2]. split; [etransitivity; eauto|].
  intros k n Hk Hn. destruct (f2 !! k) as [n2|] eqn:H2.
  - assert (n2 = Dir) as -> by eauto.
    pose proof (lookup_weaken _ _ _ _ H2 Hs2). congruence.
  - eauto.
Qed.

Lemma mkdir_any (E : env) (p : list N) (k : bool * list (list N)) (f : filesystem)
  (r : result unit) (f' : filesystem) (evs : list event) :
  mkdir E p k f = (r, f', evs) ->
  evs = [] /\ adds_directories f f'
  /\ match r with
     | Ok _ => f' !! k = Some Dir
     | Raise e => f' = f /\ exists c, e = OSError c p
     end.
Proof.
  unfold mkdir. mstep. destruct (denied E k).
  { intros [= <- <- <-]. eauto 10 using adds_directories_refl. }
  destruct (f !! k) eqn:Hk.
  { intros [= <- <- <-]. eauto 10 using adds_directories_refl. }
  destruct (is_dir_key f (parent_key k)); intros [= <- <- <-].
  - split; [reflexivity|]. split; [now apply adds_directories_insert|].
    apply lookup_insert_eq.
  - eauto 10 using adds_directories_refl.
Qed.

Lemma ensure_dir_any (E : env) (p : list N) (k : bool * list (list N))
  (f : filesystem) (r : result unit) (f' : filesystem) (evs : list event) :
  ensure_dir E p k f = (r, f', evs) ->
  evs = [] /\ adds_directories f f'
  /\ match r with
     | Ok _ => f' !! k = Some Dir
     | Raise e => f' = f /\ exists c, e = OSError c p
     end.
Proof.
  unfold ensure_dir. rewrite bind_run. unfold get_fs at 1. cbv beta iota.
  destruct (f !! k) as [[|]|] eqn:Hk.
  - mstep. intros [= <- <- <-]. eauto 10 using adds_directories_refl.
  - mstep. intros [= <- <- <-]. eauto 10 using adds_directories_refl.
  - destruct (mkdir E p k f) as [[r1 f1] ev1] eqn:Hm.
    apply mkdir_any in Hm as (-> & Ha & Hr). intros [= <- <- <-]. auto.
Qed.

Lemma makedirs_from_any (E : env) (p : list N) (abs : bool) (todo : list (list N)) :
  forall (done : list (list N)) (f : filesystem) (r : result unit)
         (f' : filesystem) (evs : list event),
    makedirs_from E p abs done todo f = (r, f', evs) ->
    evs = [] /\ adds_directories f f'
    /\ match r with
       | Ok _ => f' !! (abs, done ++ todo) = Some Dir
       | Raise e => exists c, e = OSError c p
       end.
Proof.
  induction todo as [|c rest IH]; intros done f r f' evs H.
  { injection H as <- <- <-. eauto 10 using adds_directories_refl. }
  destruct rest as [|c2 rest'].
  - cbn [makedirs_from] in H. apply mkdir_any in H as (-> & Ha & Hr).
    split; [reflexivity|]. split; [exact Ha|].
    destruct r; [exact Hr|]. now destruct Hr.
  - change (makedirs_from E p abs done (c :: c2 :: rest') f)
      with ((ensure_dir E p (abs, done ++ [c]);;
             makedirs_from E p abs (done ++ [c]) (c2 :: rest')) f) in H.
    rewrite bind_run in H.
    destruct (ensure_dir E p (abs, done ++ [c]) f) as [[[[]|e] f1] ev1] eqn:He;
      apply ensure_dir_any in He as (-> & Ha1 & Hr1).
    + destruct (makedirs_from E p abs (done ++ [c]) (c2 :: rest') f1)
        as [[r2 f2] ev2] eqn:Hm.
      apply IH in Hm as (-> & Ha2 & Hr2). injection H as <- <- <-.
      split; [reflexivity|]. split; [eauto using adds_directories_trans|].
      destruct r2; [|exact Hr2]. now rewrite <- app_assoc in Hr2.
    + injection H as <- <- <-. destruct Hr1 as [-> Hc]. 
      eauto 10 using adds_directories_refl.
Qed.

Lemma makedirs_any (E : env) (p : list N) (f : filesystem) (r : result unit)
  (f' : filesystem) (evs : list event) :
  makedirs E p f = (r, f', evs) ->
  evs = [EvMakedirs p] /\ adds_directories f f'
  /\ match r with
     | Ok _ => lookup_path f' p = Some Dir
     | Raise e => exists c, e = OSError c p
     end.
Proof.
  unfold makedirs. rewrite bind_run. unfold emit at 1. cbv beta iota.
  destruct p as [|c p'].
  { mstep. intros [= <- <- <-]. eauto 10 using adds_directories_refl. }
  destruct (makedirs_from E _ _ [] _ f) as [[r1 f1] ev1] eqn:Hm.
  apply makedirs_from_any in Hm as (-> & Ha & Hr). intros [= <- <- <-].
  split; [reflexivity|]. split; [exact Ha|]. destruct r1; [|exact Hr].
  unfold lookup_path. destruct (snd (resolve (c :: p'))) eqn:Hs; [reflexivity|].
  rewrite <- Hr, <- Hs. cbn [app]. now destruct (resolve (c :: p')).
Qed.

(** The constructor, case by case. *)
Lemma init_unfold (E : env) (dir : list N) (f : filesystem) :
  init E dir f =
  let self :=
    {| save_dir := dir;
       bing_api_url := str "https://www.bing.com/HPImageArchive.aspx?format=js&idx=0&n=1";
       bing_base_url := str "https://www.bing.com" |} in
  if bool_decide (is_Some (lookup_path f dir)) then (Ok self, f, [])
  else match makedirs E dir f with
       | (Ok _, f1, ev1) => (Ok self, f1, ev1 ++ [EvLog (CreatedDirectory dir)])
       | (Raise e, f1, ev1) => (Raise e, f1, ev1)
       end.
Proof.
  unfold init, path_exists, logger_info. cbv zeta. rewrite !bind_run.
  unfold get_fs at 1. cbv beta iota. unfold mret at 1, M_ret at 1. cbv beta iota.
  destruct (bool_decide (is_Some (lookup_path f dir))); cbn [negb].
  - mstep. reflexivity.
  - rewrite !bind_run.
    destruct (makedirs E dir f) as [[[[]|e] f1] ev1]; mstep;
      rewrite ?app_nil_r; reflexivity.
Qed.


(** X17. The constructor is idempotent: where it has returned, the save
    directory is there, and constructing the downloader again gives the same
    object, changes nothing and produces no event. *)
Theorem init_twice (E : env) (dir : list N) (f : filesystem)
  (self : BingImageDownloader) (f' : filesystem) (evs : list event) :
  init E dir f = (Ok self, f', evs) ->
  is_Some (lookup_path f' dir) /\ init E dir f' = (Ok self, f', []).
Proof.
  intros H. assert (Hthere : is_Some (lookup_path f' dir)
                    /\ self = {| save_dir := dir;
       bing_api_url := str "https://www.bing.com/HPImageArchive.aspx?format=js&idx=0&n=1";
       bing_base_url := str "https://www.bing.com" |}).
  { rewrite init_unfold in H. cbv zeta in H. case_bool_decide as Hp.
    - injection H as <- <- _. auto.
    - destruct (makedirs E dir f) as [[[[]|e] f1] ev1] eqn:Hm; [|discriminate].
      apply makedirs_any in Hm as (_ & _ & Hr). injection H as <- <- _.
      rewrite Hr. eauto. }
  destruct Hthere as [Hthere ->]. split; [exact Hthere|].
  rewrite init_unfold. cbv zeta. now rewrite bool_decide_eq_true_2.
Qed.

Section MainExtras.
Context {FM : FloatModel}.

(** [main], case by case. *)
Lemma main_unfold (E : env) (f : filesystem) :
  main E f =
  match init E (str "bing_images") f with
  | (Raise e, f1, ev1) => (Ok tt, f1, ev1 ++ [EvPrint (ErrorLine e)])
  | (Ok self, f1, ev1) =>
      match download_image E self f1 with
      | (Raise e, f2, ev2) => (Ok tt, f2, ev1 ++ ev2 ++ [EvPrint (ErrorLine e)])
      | (Ok p, f2, ev2) => (Ok tt, f2, ev1 ++ ev2 ++ [EvPrint (DownloadedTo p)])
      end
  end.
Proof.
  unfold main, try_except, print. rewrite !bind_run.
  destruct (init E (str "bing_images") f) as [[[d|e] f1] ev1]; cbv beta iota.
  - rewrite bind_run.
    destruct (download_image E d f1) as [[[p|e] f2] ev2]; mstep;
      flat_events; reflexivity.
  - mstep. reflexivity.
Qed.

(** X18. When the save directory cannot be created, [main] makes no
    request: the [OSError] of [os.makedirs] is caught and printed, and
    [main] returns. *)
Theorem main_reports_constructor_failure (E : env) (f : filesystem) (e : exn)
  (f' : filesystem) (evs : list event) :
  init E (str "bing_images") f = (Raise e, f', evs) ->
  main E f =
    (Ok tt, f', [EvMakedirs (str "bing_images"); EvPrint (ErrorLine e)])
  /\ (exists c, e = OSError c (str "bing_images"))
  /\ fst (fst (run_script E f)) = 0.
Proof.
  intros H. assert (Hm : main E f =
    (Ok tt, f', [EvMakedirs (str "bing_images"); EvPrint (ErrorLine e)])
    /\ exists c, e = OSError c (str "bing_images")).
  { rewrite main_unfold, H. rewrite init_unfold in H. cbv zeta in H.
    case_bool_decide; [discriminate|].
    destruct (makedirs E _ f) as [[[[]|e1] f1] ev1] eqn:Hmk; [discriminate|].
    apply makedirs_any in Hmk as (-> & _ & Hr). injection H as <- <- <-. auto. }
  destruct Hm as [Hm Hc]. split; [exact Hm|]. split; [exact Hc|].
  unfold run_script. now rewrite Hm.
Qed.

End MainExtras.
(** ** The script from start to end *)

Lemma lookup_path_resolved (f : filesystem) (p : list N) :
  snd (resolve p) <> [] -> lookup_path f p = f !! resolve p.
Proof.
  intros Hs. unfold lookup_path. destruct p as [|c p']; [now destruct Hs|].
  destruct (snd (resolve (c :: p'))); [congruence|reflexivity].
Qed.

Lemma makedirs_single (E : env) (p : list N) (a : bool) (c : list N)
  (f : filesystem) :
  resolve p = (a, [c]) ->
  f !! (a, [c]) = None ->
  denied E (a, [c]) = false ->
  makedirs E p f = (Ok tt, <[(a, [c]) := Dir]> f, [EvMakedirs p]).
Proof.
  intros Hr Hk Hd. unfold makedirs. rewrite bind_run. unfold emit at 1.
  cbv beta iota. destruct p as [|x p']; [discriminate|]. rewrite Hr.
  cbn [fst snd makedirs_from app]. rewrite mkdir_ok; auto.
Qed.

Section FirstRun.
Context {FM : FloatModel} {FL : FloatLaws FM}.

(** X19. The script on a machine where the save directory [bing_images]
    is not there yet, the OS refuses nothing, both endpoints answer without
    an error and the file name holds no separator: [main] creates the
    directory, downloads the image, writes the image file and the metadata
    file, prints the path and returns; the file system has gained exactly
    these three entries. Run again on the result, it finds the image and
    prints the same path, with the metadata request as its only request and
    no file operation. *)
Theorem first_run_of_main (E : env) (f : filesystem) (url : list N) (data : json)
  (ev0 : list event) (filename : list N) (r : response) :
  let self :=
    {| save_dir := str "bing_images";
       bing_api_url := str "https://www.bing.com/HPImageArchive.aspx?format=js&idx=0&n=1";
       bing_base_url := str "https://www.bing.com" |} in
  let p := path_join (str "bing_images") filename in
  let mp := metadata_path E self in
  let f2 :=
    <[resolve mp := File (json_dumps data)]>
      (<[resolve p := File (concat (raw r))]>
         (<[resolve (str "bing_images") := Dir]> f)) in
  (forall rest, f !! (false, str "bing_images" :: rest) = None) ->
  (forall k, denied E k = false) ->
  (forall k, write_limit E k = None) ->
  get_image_url E self f = (Ok (url, data), f, ev0) ->
  image_filename E data = Ok filename ->
  Forall (fun c => c <> sep) filename ->
  http E url = Responded r ->
  is_error_status (status_code r) = false ->
  truncated r = false ->
  main E f =
    (Ok tt, f2,
     [EvMakedirs (str "bing_images"); EvLog (CreatedDirectory (str "bing_images"));
      EvRequest (bing_api_url self) false; EvRequest url true; EvOpenWrite p]
     ++ chunk_writes p (fst (iter_content (N.to_nat 8192) r))
     ++ [EvLog (SuccessfullyDownloaded p); EvOpenWrite mp;
         EvWrite mp (json_dumps data); EvPrint (DownloadedTo p)])
  /\ main E f2 =
       (Ok tt, f2,
        [EvRequest (bing_api_url self) false; EvLog (ImageAlreadyExists p);
         EvPrint (DownloadedTo p)]).
Proof.
  intros self p mp f2 Hfree Hden Hlim Hg Hn Hsep Hh Hs Ht.
  assert (Hdk : resolve (str "bing_images") = (false, [str "bing_images"]))
    by reflexivity.
  assert (Hpk : resolve p = (false, [str "bing_images"; filename])).
  { unfold p. change (str "bing_images") with (save_dir self) at 1.
    rewrite (resolve_image_path E self data filename Hn Hsep).
    change (save_dir self) with (str "bing_images"). now rewrite Hdk. }
  assert (Hmk : resolve mp
                = (false, [str "bing_images"; date_str E ++ str "_metadata.json"])).
  { unfold mp. rewrite resolve_metadata_path.
    change (save_dir self) with (str "bing_images"). now rewrite Hdk. }
  set (f1 := <[resolve (str "bing_images") := Dir]> f) in *.
  assert (Hinit : init E (str "bing_images") f
                  = (Ok self, f1,
                     [EvMakedirs (str "bing_images");
                      EvLog (CreatedDirectory (str "bing_images"))])).
  { rewrite init_unfold. cbv zeta.
    rewrite lookup_path_resolved by (rewrite Hdk; discriminate).
    rewrite Hdk, (Hfree []).
    rewrite bool_decide_eq_false_2 by (intros [? ?]; discriminate).
    rewrite (makedirs_single E _ false (str "bing_images") f Hdk (Hfree []) (Hden _)).
    unfold f1. rewrite Hdk. reflexivity. }
  pose proof (image_key_ne_metadata_key E self data filename Hn) as Hdiff.
  change (path_join (save_dir self) filename) with p in Hdiff. fold mp in Hdiff.
  destruct (get_image_url_readonly _ _ _ _ _ _ Hg) as [_ Hany].
  assert (Hrun : download_image E self f1 =
    (Ok p, f2,
     [EvRequest (bing_api_url self) false; EvRequest url true; EvOpenWrite p]
     ++ chunk_writes p (fst (iter_content (N.to_nat 8192) r))
     ++ [EvLog (SuccessfullyDownloaded p); EvOpenWrite mp;
         EvWrite mp (json_dumps data)])).
  { apply (download_image_fresh E self f1 url data ev0 filename r); auto.
    - change (path_join (save_dir self) filename) with p.
      rewrite lookup_path_resolved by (rewrite Hpk; discriminate).
      unfold f1. rewrite Hpk, Hdk, lookup_insert_ne by congruence. apply Hfree.
    - change (path_join (save_dir self) filename) with p. rewrite Hpk.
      unfold f1, is_dir_key, parent_key. cbn [fst snd removelast].
      now rewrite Hdk, lookup_insert_eq.
    - fold mp. rewrite Hmk.
      unfold f1, is_dir_key, parent_key. cbn [fst snd removelast].
      now rewrite Hdk, lookup_insert_eq.
    - fold mp. rewrite lookup_path_resolved by (rewrite Hmk; discriminate).
      unfold f1. rewrite Hmk, Hdk, lookup_insert_ne by congruence.
      rewrite Hfree. discriminate. }
  split.
  - rewrite main_unfold, Hinit, Hrun. cbn [app]. rewrite <- !app_assoc. reflexivity.
  - assert (Hdir : lookup_path f2 (str "bing_images") = Some Dir).
    { rewrite lookup_path_resolved by (rewrite Hdk; discriminate).
      unfold f2. rewrite lookup_insert_ne by (rewrite Hmk, Hdk; congruence).
      rewrite lookup_insert_ne by (rewrite Hpk, Hdk; congruence).
      apply lookup_insert_eq. }
    assert (Hfile : is_Some (lookup_path f2 p)).
    { rewrite lookup_path_resolved by (rewrite Hpk; discriminate).
      unfold f2. rewrite lookup_insert_ne by auto. rewrite lookup_insert_eq. eauto. }
    rewrite main_unfold, init_unfold. cbv zeta.
    rewrite bool_decide_eq_true_2 by (rewrite Hdir; eauto).
    fold self.
    rewrite (download_image_skip E self f2 url data f2 ev0 filename (Hany f2) Hn Hfile).
    reflexivity.
Qed.

End FirstRun.
(** ** The order of the events *)

Lemma file_write_on_file (E : env) (p d : list N) (f : filesystem) (r : result unit)
  (f' : filesystem) (evs : list event) :
  file_write E p d f = (r, f', evs) -> Forall (on_file p) evs.
Proof.
  unfold file_write, on_file. mstep. destruct (f !! resolve p) as [[old|]|].
  2,3: intros [= <- <- <-]; constructor.
  case_bool_decide; cbn; intros [= <- <- <-];
    repeat first [apply Forall_nil_2 | apply Forall_cons; split; [right; eauto|]].
Qed.

Lemma write_chunks_on_file (E : env) (p : list N) (chunks : list (list N)) :
  forall (f : filesystem) (r : result unit) (f' : filesystem) (evs : list event),
    write_chunks E p chunks f = (r, f', evs) -> Forall (on_file p) evs.
Proof.
  induction chunks as [|c rest IH]; intros f r f' evs H.
  - cbn in H. injection H as <- <- <-. constructor.
  - cbn [write_chunks] in H. rewrite bind_run in H.
    destruct (match c with [] => mret tt | _ => file_write E p c end f)
      as [[[[]|e] f1] ev1] eqn:Hc.
    + destruct (write_chunks E p rest f1) as [[r2 f2] ev2] eqn:Hr.
      injection H as <- <- <-. apply Forall_app. split; [|eauto].
      destruct c; [injection Hc as <- <-; constructor|eauto using file_write_on_file].
    + injection H as <- <- <-.
      destruct c; [discriminate|eauto using file_write_on_file].
Qed.

Lemma save_image_on_file (E : env) (p : list N) (r : response) (f : filesystem)
  (res : result unit) (f' : filesystem) (evs : list event) :
  save_image E p r f = (res, f', evs) ->
  Forall (on_file p) evs
  /\ forall e, res = Raise e -> e = ChunkedEncodingError \/ exists c, e = OSError c p.
Proof.
  unfold save_image. rewrite bind_run.
  destruct (open_write E p f) as [[[[]|e] f1] ev1] eqn:Ho.
  2:{ intros [= <- <- <-]. apply open_write_raise in Ho as (_ & -> & Hc).
      split; [repeat constructor|]. intros ? [= <-]. now right. }
  apply open_write_events in Ho as ->. rewrite bind_run.
  destruct (write_chunks E p _ f1) as [[[[]|e] f2] ev2] eqn:Hw.
  - apply write_chunks_on_file in Hw.
    destruct (snd _) as [e|] eqn:Hit; mstep; intros [= <- <- <-];
      rewrite app_nil_r.
    + split; [constructor; [now left|exact Hw]|]. intros ? [= <-].
      unfold iter_content in Hit. cbn [snd] in Hit.
      destruct (truncated r); [|discriminate]. injection Hit as <-. now left.
    + split; [constructor; [now left|exact Hw]|]. discriminate.
  - intros [= <- <- <-]. pose proof Hw as Hev. apply write_chunks_on_file in Hev.
    apply write_chunks_any in Hw as (_ & _ & _ & He & _).
    split; [constructor; [now left|exact Hev]|]. intros ? [= <-]. right. eauto.
Qed.

Section EventOrder.
Context {FM : FloatModel}.

Lemma save_metadata_on_file (E : env) (self : BingImageDownloader) (data : json)
  (f : filesystem) (res : result unit) (f' : filesystem) (evs : list event) :
  save_metadata E self data f = (res, f', evs) ->
  Forall (on_file (metadata_path E self)) evs.
Proof.
  unfold save_metadata, json_dump, text_write. rewrite bind_run.
  destruct (open_write E _ f) as [[[[]|e] f1] ev1] eqn:Ho;
    apply open_write_events in Ho as ->;
    [|intros [= <- <- <-]; repeat constructor].
  destruct (utf8_encode _) as [b|].
  - destruct (file_write E _ b f1) as [[r2 f2] ev2] eqn:Hw.
    apply file_write_on_file in Hw. intros [= <- <- <-].
    constructor; [now left|exact Hw].
  - mstep. intros [= <- <- <-]. repeat constructor.
Qed.




Lemma on_file_quiet (p : list N) (evs : list event) :
  Forall (on_file p) evs ->
  Forall (fun ev => is_request ev = false /\ forall q, ev <> EvMakedirs q) evs.
Proof.
  intros H. eapply Forall_impl; [exact H|].
  intros ev [->|[d ->]]; split; try reflexivity; discriminate.
Qed.

(** X24. The events of [download_image], in every run: the first is the
    request to the metadata endpoint; no directory is ever created; either
    nothing else is requested and no file is touched, or the second event is
    the streamed request for the image and no request follows it. So at most
    two requests are made, and files are opened and written only after the
    image was requested. *)
Theorem download_image_event_order (E : env) (self : BingImageDownloader)
  (f : filesystem) :
  exists rest,
    snd (download_image E self f) = EvRequest (bing_api_url self) false :: rest
    /\ Forall (fun ev => forall q, ev <> EvMakedirs q) rest
    /\ (Forall (fun ev => is_request ev = false /\ is_fs_write ev = false) rest
        \/ exists url tail,
             rest = EvRequest url true :: tail
             /\ Forall (fun ev => is_request ev = false) tail).
Proof.
  rewrite download_image_unfold.
  destruct (get_image_url E self f) as [[[[url data]|e] f0] ev0] eqn:Hg;
    apply get_image_url_events in Hg as ->.
  2:{ eexists. split; [reflexivity|].
      destruct (is_RequestException e); cbn [app];
        (split; [repeat constructor; discriminate|left; repeat constructor]). }
  destruct (image_filename E data) as [filename|e].
  2:{ eexists. split; [reflexivity|].
      split; [repeat constructor; discriminate|left; repeat constructor]. }
  cbv zeta. case_bool_decide.
  { eexists. split; [reflexivity|].
    split; [repeat constructor; discriminate|left; repeat constructor]. }
  destruct (http E url) as [t|r].
  { eexists. split; [reflexivity|].
    split; [repeat constructor; discriminate|right].
    eexists _, _. split; [reflexivity|repeat constructor]. }
  destruct (is_error_status _).
  { eexists. split; [reflexivity|].
    split; [repeat constructor; discriminate|right].
    eexists _, _. split; [reflexivity|repeat constructor]. }
  destruct (save_image E _ r f0) as [[[[]|e] f1] ev1] eqn:Hi;
    apply save_image_on_file in Hi as [Hi _]; apply on_file_quiet in Hi.
  2:{ eexists. split; [reflexivity|]. split.
      - constructor; [discriminate|]. apply Forall_app. split.
        + eapply Forall_impl; [exact Hi|]. now intros ev [_ ?].
        + repeat constructor; discriminate.
      - right. eexists _, _. split; [reflexivity|]. apply Forall_app. split.
        + eapply Forall_impl; [exact Hi|]. now intros ev [? _].
        + repeat constructor. }
  destruct (save_metadata E self data f1) as [[[[]|e] f2] ev2] eqn:Hm;
    apply save_metadata_on_file, on_file_quiet in Hm.
  - eexists. split; [reflexivity|]. split.
    + constructor; [discriminate|]. apply Forall_app. split.
      * eapply Forall_impl; [exact Hi|]. now intros ev [_ ?].
      * constructor; [discriminate|].
        eapply Forall_impl; [exact Hm|]. now intros ev [_ ?].
    + right. eexists _, _. split; [reflexivity|]. apply Forall_app. split.
      * eapply Forall_impl; [exact Hi|]. now intros ev [? _].
      * constructor; [reflexivity|].
        eapply Forall_impl; [exact Hm|]. now intros ev [? _].
  - eexists. split; [reflexivity|]. split.
    + constructor; [discriminate|]. apply Forall_app. split.
      * eapply Forall_impl; [exact Hi|]. now intros ev [_ ?].
      * constructor; [discriminate|]. apply Forall_app. split.
        -- eapply Forall_impl; [exact Hm|]. now intros ev [_ ?].
        -- repeat constructor; discriminate.
    + right. eexists _, _. split; [reflexivity|]. apply Forall_app. split.
      * eapply Forall_impl; [exact Hi|]. now intros ev [? _].
      * constructor; [reflexivity|]. apply Forall_app. split.
        -- eapply Forall_impl; [exact Hm|]. now intros ev [? _].
        -- repeat constructor.
Qed.

End EventOrder.
(** ** The date in the names *)

Lemma int_of_digits_zero (r : list N) :
  int_of_digits (ord "0" :: r) = int_of_digits r.
Proof. reflexivity. Qed.

Lemma int_of_digits_zero_pad (w : nat) (s : list N) :
  int_of_digits (zero_pad w s) = int_of_digits s.
Proof.
  unfold zero_pad. induction (w - length s)%nat as [|k IH]; [reflexivity|].
  cbn [repeat app]. now rewrite int_of_digits_zero.
Qed.

Lemma zero_pad_repr_inj (w : nat) (a b : N) :
  zero_pad w (nat_repr a) = zero_pad w (nat_repr b) -> a = b.
Proof.
  intros H. apply (f_equal int_of_digits) in H.
  now rewrite !int_of_digits_zero_pad, !int_of_digits_repr in H.
Qed.

Lemma strftime_Ymd_inj (d1 d2 : date) :
  year d1 < 10000 -> month d1 < 100 -> day d1 < 100 ->
  year d2 < 10000 -> month d2 < 100 -> day d2 < 100 ->
  strftime_Ymd d1 = strftime_Ymd d2 -> d1 = d2.
Proof.
  intros Hy1 Hm1 Hd1 Hy2 Hm2 Hd2. unfold strftime_Ymd. intros H.
  apply app_inj_1 in H as [Hy H].
  2:{ rewrite !zero_pad_length; auto using nat_repr_length_4. }
  apply app_inj_1 in H as [Hm Hd].
  2:{ rewrite !zero_pad_length; auto using nat_repr_length_2. }
  apply zero_pad_repr_inj in Hy, Hm, Hd.
  destruct d1, d2. cbn in *. congruence.
Qed.

Section Dates.
Context {FM : FloatModel}.

Lemma image_filename_tail (E : env) (data : json) (filename : list N) :
  image_filename E data = Ok filename ->
  exists tail, forall E', image_filename E' data = Ok (date_str E' ++ tail).
Proof.
  unfold image_filename. destruct (method_get data _ _) as [t|e]; [|discriminate].
  destruct (method_replace t _ _) as [title|e]; [|discriminate].
  intros _. eauto.
Qed.

(** X25. The date stamp determines the date: for dates of at most four,
    two and two digits, two stamps are equal only for the same date. So on
    two different days the same record gets two different file names, and
    the metadata files of the two days are different files. *)
Theorem file_name_changes_with_the_date (E1 E2 : env) (self : BingImageDownloader)
  (data : json) (n1 n2 : list N) :
  year (now E1) < 10000 -> month (now E1) < 100 -> day (now E1) < 100 ->
  year (now E2) < 10000 -> month (now E2) < 100 -> day (now E2) < 100 ->
  image_filename E1 data = Ok n1 ->
  image_filename E2 data = Ok n2 ->
  (date_str E1 = date_str E2 -> now E1 = now E2)
  /\ (now E1 <> now E2 ->
      n1 <> n2 /\ resolve (metadata_path E1 self) <> resolve (metadata_path E2 self)).
Proof.
  intros Hy1 Hm1 Hd1 Hy2 Hm2 Hd2 H1 H2.
  assert (Hinj : date_str E1 = date_str E2 -> now E1 = now E2)
    by (apply strftime_Ymd_inj; assumption).
  split; [exact Hinj|]. intros Hne. split.
  - destruct (image_filename_tail E1 data n1 H1) as [tail Htail].
    rewrite Htail in H1, H2. injection H1 as <-. injection H2 as <-.
    intros Heq. apply app_inv_tail in Heq. auto.
  - rewrite !resolve_metadata_path. intros Heq.
    apply (f_equal snd) in Heq. cbn [snd] in Heq.
    apply app_inv_head in Heq. injection Heq as Heq.
    apply app_inv_tail in Heq. auto.
Qed.

End Dates.

(** ** The further theorems on concrete worlds *)

Lemma get_image_url_returns_first_image_witness :
  exists (r : response) (d : list (list N * json)) (rest : list json)
         (m : list (list N * json)) (u : list N),
    http fine_world (bing_api_url sample_downloader) = Responded r
    /\ is_error_status (status_code r) = false
    /\ json_loads (FM := one_float) (text r) = Some (JObj d)
    /\ dict_lookup d (str "images") = Some (JArr (sample_record :: rest))
    /\ sample_record = JObj m
    /\ dict_lookup m (str "url") = Some (JStr u)
    /\ sample_image_url = bing_base_url sample_downloader ++ u.
Proof.
  exact (get_image_url_returns_first_image (FM := one_float) fine_world
           sample_downloader dir_fs dir_fs sample_image_url sample_record _
           fine_fetch).
Defined.

(** No connection to the metadata endpoint. *)
Lemma connection_failure_is_logged_twice_witness :
  get_image_url (FM := one_float) offline_world sample_downloader dir_fs =
    (Raise (RequestFailed ConnectionError), dir_fs,
     [EvRequest (bing_api_url sample_downloader) false;
      EvLog (ErrorFetching (RequestFailed ConnectionError))])
  /\ download_image (FM := one_float) offline_world sample_downloader dir_fs =
       (Raise (RequestFailed ConnectionError), dir_fs,
        [EvRequest (bing_api_url sample_downloader) false;
         EvLog (ErrorFetching (RequestFailed ConnectionError));
         EvLog (ErrorDownloading (RequestFailed ConnectionError))])
  /\ spec_error_of (RequestFailed ConnectionError) = NetworkError.
Proof.
  exact (connection_failure_is_logged_twice (FM := one_float) offline_world
           sample_downloader dir_fs ConnectionError eq_refl).
Defined.

(** The image endpoint times out. *)
Lemma image_timeout_fetch :
  get_image_url (FM := one_float) image_timeout_world sample_downloader dir_fs
  = (Ok (sample_image_url, sample_record), dir_fs,
     [EvRequest (bing_api_url sample_downloader) false]).
Proof. by_evaluation. Qed.

Lemma image_request_failure_writes_nothing_witness :
  download_image (FM := one_float) image_timeout_world sample_downloader dir_fs =
    (Raise (RequestFailed Timeout), dir_fs,
     [EvRequest (bing_api_url sample_downloader) false;
      EvRequest sample_image_url true;
      EvLog (ErrorDownloading (RequestFailed Timeout))]).
Proof.
  exact (image_request_failure_writes_nothing (FM := one_float) image_timeout_world
           sample_downloader dir_fs sample_image_url sample_record _ _ Timeout
           image_timeout_fetch fine_filename fresh_path eq_refl).
Defined.



(** A record whose title is the number 7. *)
Lemma numeric_title_fetch :
  get_image_url (FM := one_float) numeric_title_world sample_downloader dir_fs
  = (Ok (sample_image_url,
         JObj [(str "url", JStr (str "/th?id=OHR.Peak.jpg")); (str "title", JInt 7)]),
     dir_fs, [EvRequest (bing_api_url sample_downloader) false]).
Proof. by_evaluation. Qed.

Lemma number_is_no_string : forall s : list N, @JInt one_float 7 <> JStr s.
Proof. discriminate. Qed.

Lemma title_not_a_string_stops_download_witness :
  download_image (FM := one_float) numeric_title_world sample_downloader dir_fs =
    (Raise AttributeError, dir_fs,
     [EvRequest (bing_api_url sample_downloader) false;
      EvLog (ErrorDownloading AttributeError)])
  /\ spec_error_of AttributeError = MalformedResponseError.
Proof.
  exact (title_not_a_string_stops_download (FM := one_float) numeric_title_world
           sample_downloader dir_fs sample_image_url
           [(str "url", JStr (str "/th?id=OHR.Peak.jpg")); (str "title", JInt 7)]
           _ (JInt 7) numeric_title_fetch eq_refl number_is_no_string).
Defined.




(** The normal day: the entry of the save directory itself is as it was. *)
Lemma save_dir_is_not_the_metadata_file :
  (false, [str "bing_images"]) <> resolve (metadata_path fine_world sample_downloader).
Proof. discriminate. Qed.

Lemma save_dir_is_not_the_image_file :
  forall (url : list N) (data : @json one_float) (f0 : filesystem)
         (ev0 : list event) (filename : list N),
    get_image_url fine_world sample_downloader dir_fs = (Ok (url, data), f0, ev0) ->
    image_filename fine_world data = Ok filename ->
    (false, [str "bing_images"])
    <> resolve (path_join (save_dir sample_downloader) filename).
Proof.
  intros url data f0 ev0 filename Hg Hn. rewrite fine_fetch in Hg.
  injection Hg as _ <- _ _. rewrite fine_filename in Hn. injection Hn as <-.
  discriminate.
Qed.

Lemma download_image_touches_two_files_witness :
  keeps_entries dir_fs (snd (fst fine_run))
  /\ snd (fst fine_run) !! (false, [str "bing_images"])
     = dir_fs !! (false, [str "bing_images"]).
Proof.
  destruct (download_image_touches_two_files (FM := one_float) fine_world
              sample_downloader dir_fs _ _ _ fine_run_ok) as [Hkeep Hsame].
  exact (conj Hkeep (Hsame _ save_dir_is_not_the_metadata_file
                       save_dir_is_not_the_image_file)).
Defined.

Lemma returned_path_exists_witness :
  is_Some (lookup_path (snd (fst fine_run))
             (path_join (save_dir sample_downloader)
                (str "20240115_Mountain_View.jpg"))).
Proof.
  exact (proj1 (returned_path_exists (FM := one_float) fine_world sample_downloader
                  dir_fs _ _ _ fine_run_ok)).
Defined.




(** The OS refuses the metadata file. *)
Lemma save_metadata_raises_only_OSError_witness :
  exists c, OSError EACCES (str "bing_images/20240115_metadata.json")
            = OSError c (metadata_path read_only_metadata_world sample_downloader).
Proof.
  exact (proj1 (save_metadata_raises_only_OSError (FM := one_float)
                  (FL := one_float_laws) read_only_metadata_world sample_downloader
                  sample_record _ _ _ _ read_only_save_metadata)).
Defined.

(** The two paths of the normal day. *)
Lemma files_below_save_dir_witness :
  resolve (path_join (save_dir sample_downloader) (str "20240115_Mountain_View.jpg"))
  = (fst (resolve (save_dir sample_downloader)),
     snd (resolve (save_dir sample_downloader))
     ++ components (str "20240115_Mountain_View.jpg"))
  /\ components (str "20240115_Mountain_View.jpg") <> []
  /\ resolve (metadata_path fine_world sample_downloader)
     = (fst (resolve (save_dir sample_downloader)),
        snd (resolve (save_dir sample_downloader))
        ++ [date_str fine_world ++ str "_metadata.json"])
  /\ parent_key (resolve (metadata_path fine_world sample_downloader))
     = resolve (save_dir sample_downloader).
Proof.
  exact (files_below_save_dir (FM := one_float) fine_world sample_downloader
           sample_record _ fine_filename).
Defined.

Lemma no_separator_in_title : sep ∉ str "Mountain View".
Proof.
  intros H. apply list_elem_of_In in H. vm_compute in H. intuition discriminate.
Qed.

Lemma image_file_in_save_dir_witness :
  (ord " " ∉ str "20240115_Mountain_View.jpg")
  /\ parent_key (resolve (path_join (save_dir sample_downloader)
                            (str "20240115_Mountain_View.jpg")))
     = resolve (save_dir sample_downloader).
Proof.
  destruct (image_file_in_save_dir (FM := one_float) fine_world sample_downloader
              sample_record _ fine_filename) as [Hspace Hdir].
  exact (conj Hspace (proj2 (Hdir _ (str "Mountain View") eq_refl eq_refl
                               no_separator_in_title))).
Defined.

(** The constructor on an empty file system, once and twice. *)
Lemma default_dir_created :
  init fine_world (str "bing_images") empty_fs
  = (Ok sample_downloader, dir_fs,
     [EvMakedirs (str "bing_images"); EvLog (CreatedDirectory (str "bing_images"))]).
Proof. by_evaluation. Qed.


Lemma init_twice_witness :
  is_Some (lookup_path dir_fs (str "bing_images"))
  /\ init fine_world (str "bing_images") dir_fs = (Ok sample_downloader, dir_fs, []).
Proof.
  exact (init_twice fine_world (str "bing_images") empty_fs _ _ _
           default_dir_created).
Defined.

(** The OS refuses to create [bing_images]. *)
Lemma default_dir_refused :
  init no_directory_world (str "bing_images") empty_fs
  = (Raise (OSError EACCES (str "bing_images")), empty_fs,
     [EvMakedirs (str "bing_images")]).
Proof. by_evaluation. Qed.

Lemma main_reports_constructor_failure_witness :
  main (FM := one_float) no_directory_world empty_fs =
    (Ok tt, empty_fs,
     [EvMakedirs (str "bing_images");
      EvPrint (ErrorLine (OSError EACCES (str "bing_images")))])
  /\ (exists c, OSError EACCES (str "bing_images") = OSError c (str "bing_images"))
  /\ fst (fst (run_script (FM := one_float) no_directory_world empty_fs)) = 0.
Proof.
  exact (main_reports_constructor_failure (FM := one_float) no_directory_world
           empty_fs _ _ _ default_dir_refused).
Defined.



(** The script on an empty file system, on the normal day. *)
Lemma fine_fetch_from_nothing :
  get_image_url (FM := one_float) fine_world sample_downloader empty_fs
  = (Ok (sample_image_url, sample_record), empty_fs,
     [EvRequest (bing_api_url sample_downloader) false]).
Proof. by_evaluation. Qed.

Lemma no_separator_in_name :
  Forall (fun c => c <> sep) (str "20240115_Mountain_View.jpg").
Proof. repeat constructor; discriminate. Qed.

Lemma first_run_of_main_witness :
  main (FM := one_float) fine_world empty_fs =
    (Ok tt,
     <[resolve (metadata_path fine_world sample_downloader)
       := File (json_dumps (FM := one_float) sample_record)]>
       (<[resolve (path_join (str "bing_images") (str "20240115_Mountain_View.jpg"))
          := File (concat sample_image)]>
          (<[resolve (str "bing_images") := Dir]> empty_fs)),
     [EvMakedirs (str "bing_images"); EvLog (CreatedDirectory (str "bing_images"));
      EvRequest (bing_api_url sample_downloader) false;
      EvRequest sample_image_url true;
      EvOpenWrite (path_join (str "bing_images") (str "20240115_Mountain_View.jpg"))]
     ++ chunk_writes (path_join (str "bing_images") (str "20240115_Mountain_View.jpg"))
          (fst (iter_content (N.to_nat 8192)
                  {| status_code := 200; text := []; raw := sample_image;
                     truncated := false |}))
     ++ [EvLog (SuccessfullyDownloaded
                  (path_join (str "bing_images") (str "20240115_Mountain_View.jpg")));
         EvOpenWrite (metadata_path fine_world sample_downloader);
         EvWrite (metadata_path fine_world sample_downloader)
           (json_dumps (FM := one_float) sample_record);
         EvPrint (DownloadedTo
                    (path_join (str "bing_images")
                       (str "20240115_Mountain_View.jpg")))]).
Proof.
  exact (proj1 (first_run_of_main (FM := one_float) (FL := one_float_laws)
                  fine_world empty_fs sample_image_url sample_record _
                  (str "20240115_Mountain_View.jpg")
                  {| status_code := 200; text := []; raw := sample_image;
                     truncated := false |}
                  (fun rest => lookup_empty _) (fun k => eq_refl) (fun k => eq_refl)
                  fine_fetch_from_nothing fine_filename no_separator_in_name
                  eq_refl eq_refl eq_refl)).
Defined.

(** The body of the normal day is a text of scalar values, and parses. *)
Lemma sample_body_scalar : Forall (fun c => scalar c = true) sample_body.
Proof.
  apply Forall_forall. intros x Hx%list_elem_of_In. revert x Hx.
  apply forallb_forall. by_evaluation.
Qed.

Lemma sample_body_parsed :
  json_loads (FM := one_float) sample_body
  = Some (JObj [(str "images", JArr [sample_record])]).
Proof. by_evaluation. Qed.

Lemma parsed_value_round_trips_witness :
  json_wfb (FM := one_float) (JObj [(str "images", JArr [sample_record])]) = true
  /\ json_loads (FM := one_float)
       (json_dumps (JObj [(str "images", JArr [sample_record])]))
     = Some (JObj [(str "images", JArr [sample_record])]).
Proof.
  exact (parsed_value_round_trips (FM := one_float) (FL := one_float_laws)
           sample_body _ sample_body_scalar sample_body_parsed).
Defined.

Lemma fine_text_scalar :
  forall r : response,
    http fine_world (bing_api_url sample_downloader) = Responded r ->
    Forall (fun c => scalar c = true) (text r).
Proof. intros r [= <-]. exact sample_body_scalar. Qed.

Lemma saved_metadata_parses_back_witness :
  exists (url : list N) (data : @json one_float),
    fst (fst (get_image_url fine_world sample_downloader dir_fs)) = Ok (url, data)
    /\ json_wfb data = true
    /\ snd (fst fine_run) !! resolve (metadata_path fine_world sample_downloader)
       = Some (File (json_dumps data))
    /\ match utf8_decode (json_dumps data) with
       | Some t => json_loads t
       | None => None
       end = Some data.
Proof.
  exact (saved_metadata_parses_back (FM := one_float) (FL := one_float_laws)
           fine_world sample_downloader dir_fs _ _ _
           fine_text_scalar fresh_path fine_run_ok).
Defined.








(** 15 and 16 January 2024. *)
Lemma next_day_filename :
  image_filename (FM := one_float) next_day_world sample_record
  = Ok (str "20240116_Mountain_View.jpg").
Proof. by_evaluation. Qed.

Lemma two_days : now fine_world <> now next_day_world.
Proof. discriminate. Qed.

Lemma file_name_changes_with_the_date_witness :
  str "20240115_Mountain_View.jpg" <> str "20240116_Mountain_View.jpg"
  /\ resolve (metadata_path fine_world sample_downloader)
     <> resolve (metadata_path next_day_world sample_downloader).
Proof.
  exact (proj2 (file_name_changes_with_the_date (FM := one_float) fine_world
                  next_day_world sample_downloader sample_record _ _
                  eq_refl eq_refl eq_refl eq_refl eq_refl eq_refl
                  fine_filename next_day_filename) two_days).
Defined.
